(** * go-powerwall: request engine, auth coordinator and value decoders

    A shallow embedding of the Go package [powerwall]
    (the HTTP request executor, the session-token coordinator and the
    custom JSON decoders [NonIsoTime], [Duration] and [DecodedAlert]),
    followed by the properties its specification states about them.

    Go strings and byte slices are byte sequences: they are modelled as
    [string] (a list of 8-bit [ascii] characters).  Go's [int], [int64] and
    [uint64] are modelled as [Z] with the wrap-around written out where the
    code can reach it.  A [map[string]string] is a [gmap string string].

    The package calls into Go's standard library ([encoding/json],
    [strconv], [time], [net/http]).  Those functions are not part of the
    repository; the parts the package relies on are modelled here, each
    under the name of the Go function it stands for. *)

From Stdlib Require Import ZArith List String Ascii Lia Bool.
From stdpp Require Import base option gmap strings.

Import ListNotations.
Set Warnings "-register-all".
Local Open Scope string_scope.
Local Open Scope Z_scope.

(** ** Bytes and characters *)

Definition code (c : ascii) : Z := Z.of_N (N_of_ascii c).
Definition chr (z : Z) : ascii := ascii_of_N (Z.to_N (z mod 256)).

Definition isDigit (c : ascii) : bool := (48 <=? code c) && (code c <=? 57).
Definition digitVal (c : ascii) : Z := code c - 48.
Definition digitChar (d : Z) : ascii := chr (48 + d).

Definition str1 (c : ascii) : string := String c EmptyString.

(** [strings.HasPrefix] *)
Definition HasPrefix (s p : string) : bool := String.prefix p s.

(** The double-quote byte (0x22) and the backslash byte (0x5C). *)
Definition dquote : ascii := Ascii false true false false false true false false.
Definition backslash : ascii := Ascii false false true true true false true false.

(** [strings.Replace(s, dquote, empty, -1)]: every double-quote byte is
    removed, wherever it stands. *)
Fixpoint removeQuotes (s : string) : string :=
  match s with
  | EmptyString => EmptyString
  | String c r => if Ascii.eqb c dquote then removeQuotes r
                  else String c (removeQuotes r)
  end.

(** Test inputs are written with single quotes standing for double
    quotes: [sq] turns every 0x27 byte into 0x22. *)
Fixpoint sq (s : string) : string :=
  match s with
  | EmptyString => EmptyString
  | String c r => String (if Ascii.eqb c "'" then dquote else c) (sq r)
  end.

Fixpoint repeatChar (c : ascii) (n : nat) : string :=
  match n with
  | O => EmptyString
  | S n => String c (repeatChar c n)
  end.

(** ** Errors

    Go's [error] interface values that this package creates or passes
    through. *)

Record URL := mkURL { Scheme : string; Host : string; Path : string }.

Inductive error :=
  | SyntaxError (msg : string)
      (* *json.SyntaxError *)
  | UnmarshalTypeError (value : string) (gotype : string)
      (* *json.UnmarshalTypeError *)
  | Errorf_w (context : string) (wrapped : error)
      (* fmt.Errorf("... %w", err) *)
  | ErrorsNew (msg : string)
      (* errors.New(msg) *)
  | TransportError (isNetError : bool) (msg : string)
      (* an error returned by http.Client.Do; the flag says whether its
         dynamic type implements net.Error *)
  | NewRequestError (msg : string)
      (* an error returned by http.NewRequest *)
  | BodyReadError (msg : string)
      (* an error returned by ioutil.ReadAll(resp.Body) *)
  | TimeParseError (msg : string)
      (* *time.ParseError *)
  | DurationError (msg : string)
      (* the errors of time.ParseDuration *)
  | AuthFailure (url : URL) (ErrorText : string) (Message : string)
  | ApiError (url : URL) (StatusCode : Z) (Body : string).

(** Results of fallible functions: Go's [(T, error)] with a nil or
    non-nil error. *)
Inductive result (A : Type) :=
  | Ok (a : A)
  | Err (e : error).
Arguments Ok {A} a.
Arguments Err {A} e.

Definition isErr {A} (r : result A) : bool :=
  match r with Ok _ => false | Err _ => true end.

(** ** UTF-8 ([unicode/utf8]) and UTF-16 surrogates ([unicode/utf16]) *)

Definition RuneError : Z := 65533.   (* U+FFFD *)

Definition inRange (lo hi : Z) (c : ascii) : bool :=
  (lo <=? code c) && (code c <=? hi).

(** [utf8.DecodeRuneInString]: the first rune of [s] and its width in
    bytes; an invalid or truncated encoding gives [(RuneError, 1)]. *)
Definition utf8_DecodeRune (s : string) : Z * nat :=
  match s with
  | EmptyString => (RuneError, 0%nat)
  | String c0 r =>
    let b0 := code c0 in
    if b0 <? 128 then (b0, 1%nat)
    else if (194 <=? b0) && (b0 <=? 223) then
      match r with
      | String c1 _ =>
        if inRange 128 191 c1
        then (Z.lor (Z.shiftl (Z.land b0 31) 6) (Z.land (code c1) 63), 2%nat)
        else (RuneError, 1%nat)
      | _ => (RuneError, 1%nat)
      end
    else if (224 <=? b0) && (b0 <=? 239) then
      let lo := if b0 =? 224 then 160 else 128 in
      let hi := if b0 =? 237 then 159 else 191 in
      match r with
      | String c1 (String c2 _) =>
        if inRange lo hi c1 && inRange 128 191 c2
        then (Z.lor (Z.shiftl (Z.land b0 15) 12)
                (Z.lor (Z.shiftl (Z.land (code c1) 63) 6)
                       (Z.land (code c2) 63)), 3%nat)
        else (RuneError, 1%nat)
      | _ => (RuneError, 1%nat)
      end
    else if (240 <=? b0) && (b0 <=? 244) then
      let lo := if b0 =? 240 then 144 else 128 in
      let hi := if b0 =? 244 then 143 else 191 in
      match r with
      | String c1 (String c2 (String c3 _)) =>
        if inRange lo hi c1 && inRange 128 191 c2 && inRange 128 191 c3
        then (Z.lor (Z.shiftl (Z.land b0 7) 18)
                (Z.lor (Z.shiftl (Z.land (code c1) 63) 12)
                   (Z.lor (Z.shiftl (Z.land (code c2) 63) 6)
                          (Z.land (code c3) 63))), 4%nat)
        else (RuneError, 1%nat)
      | _ => (RuneError, 1%nat)
      end
    else (RuneError, 1%nat)
  end.

Definition isSurrogate (r : Z) : bool := (55296 <=? r) && (r <? 57344).

(** [utf8.EncodeRune] (as [utf8.AppendRune]): surrogates and values out
    of range are encoded as U+FFFD. *)
Definition utf8_EncodeRune (r0 : Z) : string :=
  let r := if (r0 <? 0) || (1114111 <? r0) || isSurrogate r0
           then RuneError else r0 in
  if r <? 128 then str1 (chr r)
  else if r <? 2048 then
    String (chr (Z.lor 192 (Z.shiftr r 6)))
      (str1 (chr (Z.lor 128 (Z.land r 63))))
  else if r <? 65536 then
    String (chr (Z.lor 224 (Z.shiftr r 12)))
      (String (chr (Z.lor 128 (Z.land (Z.shiftr r 6) 63)))
         (str1 (chr (Z.lor 128 (Z.land r 63)))))
  else
    String (chr (Z.lor 240 (Z.shiftr r 18)))
      (String (chr (Z.lor 128 (Z.land (Z.shiftr r 12) 63)))
         (String (chr (Z.lor 128 (Z.land (Z.shiftr r 6) 63)))
            (str1 (chr (Z.lor 128 (Z.land r 63)))))).

(** [utf16.DecodeRune]: the code point of a surrogate pair, U+FFFD when
    the two halves do not form one. *)
Definition utf16_DecodeRune (r1 r2 : Z) : Z :=
  if (55296 <=? r1) && (r1 <? 56320) && (56320 <=? r2) && (r2 <? 57344)
  then Z.lor (Z.shiftl (r1 - 55296) 10) (r2 - 56320) + 65536
  else RuneError.

Fixpoint dropn (n : nat) (s : string) : string :=
  match n, s with
  | O, _ => s
  | S n, String _ r => dropn n r
  | S _, EmptyString => EmptyString
  end.

(** ** JSON syntax ([encoding/json]'s scanner and [unquote])

    A JSON text is parsed into a tree first; decoding into a Go value is
    a second pass over the tree, as [json.Unmarshal] runs [checkValid]
    over the whole input before it stores anything. *)

Inductive json :=
  | JNull
  | JBool (b : bool)
  | JNumber (lit : string)
  | JString (s : string)
  | JArray (l : list json)
  | JObject (members : list (string * json)).

Definition isSpace (c : ascii) : bool :=
  let b := code c in (b =? 32) || (b =? 9) || (b =? 13) || (b =? 10).

Fixpoint skipSpace (s : string) : string :=
  match s with
  | String c r => if isSpace c then skipSpace r else s
  | EmptyString => s
  end.

Definition hexVal (c : ascii) : option Z :=
  let b := code c in
  if (48 <=? b) && (b <=? 57) then Some (b - 48)
  else if (97 <=? b) && (b <=? 102) then Some (b - 97 + 10)
  else if (65 <=? b) && (b <=? 70) then Some (b - 65 + 10)
  else None.

(** Four hexadecimal digits at the head of [s]. *)
Definition hex4 (s : string) : option (Z * string) :=
  match s with
  | String a (String b (String c (String d r))) =>
    match hexVal a, hexVal b, hexVal c, hexVal d with
    | Some x, Some y, Some z, Some w =>
      Some (((x * 16 + y) * 16 + z) * 16 + w, r)
    | _, _, _, _ => None
    end
  | _ => None
  end.

(** [getu4]: the rune of a backslash-u escape at the head of [s], with
    what follows it. *)
Definition getu4 (s : string) : option (Z * string) :=
  match s with
  | String b (String u r) =>
    if Ascii.eqb b backslash && Ascii.eqb u "u" then hex4 r else None
  | _ => None
  end.

Definition simpleEscape (c : ascii) : option ascii :=
  let b := code c in
  if (b =? 34) || (b =? 92) || (b =? 47) then Some c
  else if b =? 98 then Some (chr 8)
  else if b =? 102 then Some (chr 12)
  else if b =? 110 then Some (chr 10)
  else if b =? 114 then Some (chr 13)
  else if b =? 116 then Some (chr 9)
  else None.

Definition consResult (p : string) (r : option (string * string))
  : option (string * string) :=
  match r with
  | Some (v, rest) => Some (p ++ v, rest)%string
  | None => None
  end.

(** The body of a string literal, after its opening quote: the decoded
    bytes and the input after the closing quote.  Control bytes and
    unknown escapes are syntax errors; bytes that are not well-formed
    UTF-8 and lone surrogate escapes become U+FFFD. *)
Fixpoint scanString (fuel : nat) (s : string) : option (string * string) :=
  match fuel with
  | O => None
  | S fuel =>
    match s with
    | EmptyString => None
    | String c r =>
      if Ascii.eqb c dquote then Some (EmptyString, r)
      else if code c <? 32 then None
      else if Ascii.eqb c backslash then
        match r with
        | EmptyString => None
        | String e r2 =>
          match simpleEscape e with
          | Some b => consResult (str1 b) (scanString fuel r2)
          | None =>
            if Ascii.eqb e "u" then
              match hex4 r2 with
              | None => None
              | Some (rr, r3) =>
                if isSurrogate rr then
                  match getu4 r3 with
                  | Some (rr1, r4) =>
                    let dec := utf16_DecodeRune rr rr1 in
                    if dec =? RuneError
                    then consResult (utf8_EncodeRune RuneError)
                           (scanString fuel r3)
                    else consResult (utf8_EncodeRune dec)
                           (scanString fuel r4)
                  | None => consResult (utf8_EncodeRune RuneError)
                              (scanString fuel r3)
                  end
                else consResult (utf8_EncodeRune rr) (scanString fuel r3)
              end
            else None
          end
        end
      else if code c <? 128 then consResult (str1 c) (scanString fuel r)
      else
        let '(rr, size) := utf8_DecodeRune s in
        consResult (utf8_EncodeRune rr) (scanString fuel (dropn size s))
    end
  end.

Fixpoint spanDigits (s : string) : string * string :=
  match s with
  | String c r =>
    if isDigit c then let '(d, rest) := spanDigits r in (String c d, rest)
    else (EmptyString, s)
  | EmptyString => (EmptyString, EmptyString)
  end.

(** The exponent part of a number, if any. *)
Definition scanExp (s : string) : option (string * string) :=
  match s with
  | String e r =>
    if Ascii.eqb e "e" || Ascii.eqb e "E" then
      let '(sign, r1) :=
        match r with
        | String g r' =>
          if Ascii.eqb g "+" || Ascii.eqb g "-" then (str1 g, r') else (EmptyString, r)
        | EmptyString => (EmptyString, r)
        end in
      match spanDigits r1 with
      | (EmptyString, _) => None
      | (ds, rest) => Some (String e (sign ++ ds), rest)%string
      end
    else Some (EmptyString, s)
  | EmptyString => Some (EmptyString, s)
  end.

(** The fraction and exponent parts of a number, if any. *)
Definition scanFracExp (s : string) : option (string * string) :=
  match s with
  | String "." r =>
    match spanDigits r with
    | (EmptyString, _) => None
    | (ds, rest) =>
      match scanExp rest with
      | Some (e, rest') => Some (String "." (ds ++ e), rest')%string
      | None => None
      end
    end
  | _ => scanExp s
  end.

(** A number literal at the head of [s]: its text and what follows. *)
Definition scanNumber (s : string) : option (string * string) :=
  let '(sign, r) :=
    match s with
    | String "-" r => ("-", r)
    | _ => (EmptyString, s)
    end in
  match r with
  | String c r1 =>
    if Ascii.eqb c "0" then
      match scanFracExp r1 with
      | Some (t, rest) => Some (sign ++ String c t, rest)%string
      | None => None
      end
    else if isDigit c then
      let '(ds, r2) := spanDigits r1 in
      match scanFracExp r2 with
      | Some (t, rest) => Some (sign ++ String c (ds ++ t), rest)%string
      | None => None
      end
    else None
  | EmptyString => None
  end.

Definition stripPrefix (p s : string) : option string :=
  if String.prefix p s then Some (dropn (String.length p) s) else None.

Definition maxNestingDepth : Z := 10000.

(** One JSON value at the head of [s] (no leading white space), inside
    [depth] open arrays and objects. *)
Fixpoint parseValue (fuel : nat) (depth : Z) (s : string)
  : option (json * string) :=
  match fuel with
  | O => None
  | S fuel =>
    match s with
    | EmptyString => None
    | String c r =>
      if Ascii.eqb c "{" then
        if maxNestingDepth <? depth + 1 then None
        else match skipSpace r with
             | String "}" r' => Some (JObject [], r')
             | r1 =>
               match parseMembers fuel (depth + 1) r1 with
               | Some (ms, rest) => Some (JObject ms, rest)
               | None => None
               end
             end
      else if Ascii.eqb c "[" then
        if maxNestingDepth <? depth + 1 then None
        else match skipSpace r with
             | String "]" r' => Some (JArray [], r')
             | r1 =>
               match parseElements fuel (depth + 1) r1 with
               | Some (vs, rest) => Some (JArray vs, rest)
               | None => None
               end
             end
      else if Ascii.eqb c dquote then
        match scanString (S (String.length r)) r with
        | Some (v, rest) => Some (JString v, rest)
        | None => None
        end
      else if Ascii.eqb c "t" then
        option_map (fun rest => (JBool true, rest)) (stripPrefix "true" s)
      else if Ascii.eqb c "f" then
        option_map (fun rest => (JBool false, rest)) (stripPrefix "false" s)
      else if Ascii.eqb c "n" then
        option_map (fun rest => (JNull, rest)) (stripPrefix "null" s)
      else
        match scanNumber s with
        | Some (lit, rest) => Some (JNumber lit, rest)
        | None => None
        end
    end
  end

(** The elements of an array after its opening bracket (not empty). *)
with parseElements (fuel : nat) (depth : Z) (s : string)
  : option (list json * string) :=
  match fuel with
  | O => None
  | S fuel =>
    match parseValue fuel depth s with
    | None => None
    | Some (v, rest) =>
      match skipSpace rest with
      | String "," r1 =>
        match parseElements fuel depth (skipSpace r1) with
        | Some (vs, rest') => Some (v :: vs, rest')
        | None => None
        end
      | String "]" r1 => Some ([v], r1)
      | _ => None
      end
    end
  end

(** The members of an object after its opening brace (not empty). *)
with parseMembers (fuel : nat) (depth : Z) (s : string)
  : option (list (string * json) * string) :=
  match fuel with
  | O => None
  | S fuel =>
    match s with
    | String q r =>
      if Ascii.eqb q dquote then
        match scanString (S (String.length r)) r with
        | None => None
        | Some (k, rest) =>
          match skipSpace rest with
          | String ":" r1 =>
            match parseValue fuel depth (skipSpace r1) with
            | None => None
            | Some (v, rest1) =>
              match skipSpace rest1 with
              | String "," r2 =>
                match parseMembers fuel depth (skipSpace r2) with
                | Some (ms, rest') => Some ((k, v) :: ms, rest')
                | None => None
                end
              | String "}" r2 => Some ([(k, v)], r2)
              | _ => None
              end
            end
          | _ => None
          end
        end
      else None
    | EmptyString => None
    end
  end.

(** [checkValid] and the parse of a whole input: one value, with white
    space allowed around it and nothing else.  [None] is a
    [*json.SyntaxError]. *)
Definition parseJSON (data : string) : option json :=
  match parseValue (2 * String.length data + 2) 0 (skipSpace data) with
  | Some (v, rest) =>
    match skipSpace rest with
    | EmptyString => Some v
    | _ => None
    end
  | None => None
  end.

(** ** Decimal text of integers *)

Fixpoint fmtDigits (fuel : nat) (v : Z) (acc : string) : string :=
  match fuel with
  | O => acc
  | S fuel =>
    if 0 <? v then fmtDigits fuel (v / 10) (String (digitChar (v mod 10)) acc)
    else acc
  end.

(** The decimal digits of a natural number, without sign. *)
Definition decimal (v : Z) : string :=
  if v <=? 0 then "0" else fmtDigits (S (Z.to_nat (Z.log2 v))) v EmptyString.

(** [strconv.Itoa] *)
Definition strconv_Itoa (i : Z) : string :=
  if i <? 0 then String "-" (decimal (- i)) else decimal i.

Fixpoint parseDigits (s : string) (acc : Z) : Z :=
  match s with
  | String c r => parseDigits r (acc * 10 + digitVal c)
  | EmptyString => acc
  end.

(** ** [float64]

    An IEEE 754 binary64 value.  A finite non-zero value is
    [m * 2^e] with [2^52 <= m < 2^53] (normal) or [e = -1074] and
    [0 < m < 2^52] (subnormal), so every value has one representation. *)

Inductive float64 :=
  | FZero (neg : bool)
  | FFinite (neg : bool) (m : Z) (e : Z)
  | FInf (neg : bool)
  | FNaN.

(** The fraction [n / d * 2^(-k)] as a pair of integers. *)
Definition scale2 (n d k : Z) : Z * Z :=
  if 0 <=? k then (n, d * 2 ^ k) else (n * 2 ^ (- k), d).

(** The [k] with [2^k <= n/d < 2^(k+1)], for positive [n] and [d]. *)
Definition floorLog2 (n d : Z) : Z :=
  let k := Z.log2 n - Z.log2 d in
  let '(n', d') := scale2 n d k in
  if d' <=? n' then k else k - 1.

(** Round-to-nearest, ties-to-even, of the positive rational [n / d]. *)
Definition roundFloat (neg : bool) (n d : Z) : float64 :=
  if n <=? 0 then FZero neg else
  let k := floorLog2 n d in
  let e := Z.max (k - 52) (-1074) in
  let '(n', d') := scale2 n d e in
  let q := n' / d' in
  let r := n' mod d' in
  let q' := if (d' <? 2 * r) || ((2 * r =? d') && Z.odd q) then q + 1 else q in
  let '(m, e') := if q' =? 2 ^ 53 then (2 ^ 52, e + 1) else (q', e) in
  if m =? 0 then FZero neg
  else if 971 <? e' then FInf neg
  else FFinite neg m e'.

(** The conversion [float64(x)] of an unsigned integer. *)
Definition float64_of_Z (x : Z) : float64 :=
  if x <? 0 then roundFloat true (- x) 1 else roundFloat false x 1.

(** The value of a finite float as a fraction. *)
Definition float64_frac (f : float64) : option (bool * Z * Z) :=
  match f with
  | FZero neg => Some (neg, 0, 1)
  | FFinite neg m e => let '(n, d) := scale2 m 1 (- e) in Some (neg, n, d)
  | _ => None
  end.

(** Float multiplication and division, on the operands this package
    gives them (non-negative; the divisor is not zero). *)
Definition float64_mul (a b : float64) : float64 :=
  match a, b with
  | FNaN, _ | _, FNaN => FNaN
  | FInf na, FZero _ | FZero na, FInf _ => FNaN
  | FInf na, FInf nb | FInf na, FFinite nb _ _ | FFinite na _ _, FInf nb =>
      FInf (xorb na nb)
  | FZero na, FZero nb | FZero na, FFinite nb _ _ | FFinite na _ _, FZero nb =>
      FZero (xorb na nb)
  | FFinite na ma ea, FFinite nb mb eb =>
      let '(n, d) := scale2 (ma * mb) 1 (- (ea + eb)) in
      roundFloat (xorb na nb) n d
  end.

Definition float64_div (a b : float64) : float64 :=
  match a, b with
  | FNaN, _ | _, FNaN => FNaN
  | FInf _, FInf _ | FZero _, FZero _ => FNaN
  | FInf na, FZero nb | FInf na, FFinite nb _ _ => FInf (xorb na nb)
  | FFinite na _ _, FZero nb => FInf (xorb na nb)
  | FZero na, FInf nb | FZero na, FFinite nb _ _ | FFinite na _ _, FInf nb =>
      FZero (xorb na nb)
  | FFinite na ma ea, FFinite nb mb eb =>
      (* (ma * 2^ea) / (mb * 2^eb) *)
      let '(n, d) := scale2 ma mb (- (ea - eb)) in
      roundFloat (xorb na nb) n d
  end.

(** The [float64] that holds the integer [q] exactly, for
    [0 < q < 2^53]. *)
Definition exactFloat (q : Z) : float64 :=
  FFinite false (q * 2 ^ (52 - Z.log2 q)) (Z.log2 q - 52).

(** The conversion [uint64(f)] of a float that is finite, non-negative
    and below [2^64]: truncation. *)
Definition uint64_of_float64 (f : float64) : Z :=
  match f with
  | FFinite false m e => let '(n, d) := scale2 m 1 (- e) in n / d
  | _ => 0
  end.

(** *** [strconv.ParseFloat(s, 64)] on a JSON number literal *)

(** The literal as [(neg, mantissa digits, decimal exponent)]: its value
    is [mantissa * 10^exponent]. *)
Definition splitNumber (lit : string) : bool * Z * Z :=
  let '(neg, r) :=
    match lit with
    | String "-" r => (true, r)
    | _ => (false, lit)
    end in
  let '(ip, r1) := spanDigits r in
  let '(fp, r2) :=
    match r1 with
    | String "." r' => spanDigits r'
    | _ => (EmptyString, r1)
    end in
  let ex :=
    match r2 with
    | String _ (String "-" ds) => - parseDigits ds 0
    | String _ (String "+" ds) => parseDigits ds 0
    | String _ ds => parseDigits ds 0
    | EmptyString => 0
    end in
  (neg, parseDigits (ip ++ fp) 0, ex - Z.of_nat (String.length fp)).

(** The nearest [float64]; [None] is the range error ParseFloat returns
    when the result is infinite. *)
Definition strconv_ParseFloat (lit : string) : option float64 :=
  let '(neg, m, ex) := splitNumber lit in
  let f := if 0 <=? ex then roundFloat neg (m * 10 ^ ex) 1
           else roundFloat neg m (10 ^ (- ex)) in
  match f with
  | FInf _ => None
  | _ => Some f
  end.

(** *** [strconv.FormatFloat(f, fmt, -1, 64)]: shortest digits *)

(** The shortest decimal [c * 10^k] that rounds back to [m * 2^e], the
    closest one to it among those of that length.  [V], [LO] and [HI]
    are the value and the two half-way points to its neighbours, in
    units of [2^s]; the search walks the decimal positions [k]
    downwards and stops at the first where the value rounded down or
    up to that position falls between the half-way points (which count
    when the mantissa is even). *)
Fixpoint shortestLoop (fuel : nat) (V LO HI s : Z) (inclusive : bool) (k : Z)
  : Z * Z :=
  let p2 := 2 ^ Z.max s 0 in
  let p10 := 10 ^ Z.max (- k) 0 in
  let U := 2 ^ Z.max (- s) 0 * 10 ^ Z.max k 0 in
  let Vn := V * p2 * p10 in
  let LOn := LO * p2 * p10 in
  let HIn := HI * p2 * p10 in
  let t := Vn / U in
  let okdown := (LOn <? t * U) || (inclusive && (LOn =? t * U)) in
  let okup := ((t + 1) * U <? HIn) || (inclusive && ((t + 1) * U =? HIn)) in
  let rem := Vn - t * U in
  let up := (U <? 2 * rem) || ((2 * rem =? U) && Z.odd t) in
  if okdown && okup then (if up then t + 1 else t, k)
  else if okdown then (t, k)
  else if okup then (t + 1, k)
  else match fuel with
       | O => (V * p2 * p10, k)
       | S fuel => shortestLoop fuel V LO HI s inclusive (k - 1)
       end.

Fixpoint trimZeros (fuel : nat) (c k : Z) : Z * Z :=
  match fuel with
  | O => (c, k)
  | S fuel =>
    if (c =? 0) || negb (c mod 10 =? 0) then (c, k)
    else trimZeros fuel (c / 10) (k + 1)
  end.

(** The shortest digits of a finite positive float, as [(c, k)] with
    [c] not a multiple of ten. *)
Definition shortest (m e : Z) : Z * Z :=
  let s := e - 2 in
  let V := 4 * m in
  let HI := 4 * m + 2 in
  let LO := if (m =? 2 ^ 52) && (-1074 <? e) then 4 * m - 1 else 4 * m - 2 in
  let kstart := Z.max 0 (Z.log2 HI + 1 + s) in
  let fuel := Z.to_nat (kstart - Z.min s 0 + 1) in
  let '(c, k) := shortestLoop fuel V LO HI s (Z.even m) kstart in
  trimZeros (Z.to_nat (Z.log2 c) + 1) c k.

(** The [%f] layout of the digits [c * 10^k]: all integer digits, and
    as many fraction digits as the digits need. *)
Definition fmtF (c k : Z) : string :=
  let ds := decimal c in
  if c =? 0 then "0"
  else if 0 <=? k then (ds ++ repeatChar "0" (Z.to_nat k))%string
  else
    let n := Z.of_nat (String.length ds) in
    if - k <? n then
      (String.substring 0 (Z.to_nat (n + k)) ds ++ "." ++
       String.substring (Z.to_nat (n + k)) (Z.to_nat (- k)) ds)%string
    else ("0." ++ repeatChar "0" (Z.to_nat (- k - n)) ++ ds)%string.

(** The [%e] layout: one digit, the others after the point, and an
    exponent of at least two digits. *)
Definition fmtE (c k : Z) : string :=
  let ds := decimal c in
  let n := Z.of_nat (String.length ds) in
  let ex := if c =? 0 then 0 else n + k - 1 in
  let mant :=
    match ds with
    | String d EmptyString => str1 d
    | String d r => String d (String "." r)
    | EmptyString => "0"
    end in
  let exs := decimal (Z.abs ex) in
  let sgn := if ex <? 0 then "-" else "+" in
  let pad := if Z.abs ex <? 10 then "0" else EmptyString in
  (mant ++ "e" ++ sgn ++ pad ++ exs)%string.

Definition signed (neg : bool) (s : string) : string :=
  if neg then String "-" s else s.

(** [strconv.FormatFloat(f, 'f', -1, 64)] *)
Definition strconv_FormatFloat_f (f : float64) : string :=
  match f with
  | FZero neg => signed neg "0"
  | FFinite neg m e => let '(c, k) := shortest m e in signed neg (fmtF c k)
  | FInf neg => if neg then "-Inf" else "+Inf"
  | FNaN => "NaN"
  end.

(** [strconv.FormatFloat(f, 'g', -1, 64)], which is how [fmt]'s [%v]
    prints a [float64]: [%e] when the exponent is below -4 or at least
    21 is [encoding/json]'s rule; [fmt]'s is below -4 or at least 6. *)
Definition strconv_FormatFloat_g (f : float64) : string :=
  match f with
  | FZero neg => signed neg "0"
  | FFinite neg m e =>
    let '(c, k) := shortest m e in
    let ex := Z.of_nat (String.length (decimal c)) + k - 1 in
    signed neg (if (ex <? -4) || (6 <=? ex) then fmtE c k else fmtF c k)
  | FInf neg => if neg then "-Inf" else "+Inf"
  | FNaN => "NaN"
  end.

(** ** Decoding JSON into Go values ([encoding/json]'s [decodeState]) *)

(** The dynamic values an [interface{}] can hold, as far as this package
    inspects them.  [encoding/json] produces [nil], [bool], [float64],
    [string], [[]interface{}] and [map[string]interface{}] only; [int]
    and [[]byte] are dynamic types the package's type switch also asks
    for. *)
Inductive GoVal :=
  | VNil
  | VBool (b : bool)
  | VInt (i : Z)
  | VFloat64 (f : float64)
  | VString (s : string)
  | VBytes (b : string)
  | VSlice (l : list GoVal)
  | VMap (m : list (string * GoVal)).

(** The decoder keeps the first error it saved and goes on. *)
Definition firstErr (a b : option error) : option error :=
  match a with Some _ => a | None => b end.

(** [m[k] = v] on a map kept as a list sorted by key. *)
Fixpoint mapAssign {A} (k : string) (v : A) (m : list (string * A))
  : list (string * A) :=
  match m with
  | [] => [(k, v)]
  | (k', v') :: r =>
    if String.eqb k k' then (k, v) :: r
    else if String.ltb k k' then (k, v) :: m
    else (k', v') :: mapAssign k v r
  end.

(** [valueInterface]: a JSON value decoded into an empty interface. *)
Fixpoint valueInterface (j : json) : GoVal * option error :=
  match j with
  | JNull => (VNil, None)
  | JBool b => (VBool b, None)
  | JNumber lit =>
    match strconv_ParseFloat lit with
    | Some f => (VFloat64 f, None)
    | None => (VNil, Some (UnmarshalTypeError ("number " ++ lit) "float64"))
    end
  | JString s => (VString s, None)
  | JArray l =>
    let fix elems (l : list json) : list GoVal * option error :=
      match l with
      | [] => ([], None)
      | x :: r =>
        let '(v, e) := valueInterface x in
        let '(vs, es) := elems r in
        (v :: vs, firstErr e es)
      end in
    let '(vs, e) := elems l in (VSlice vs, e)
  | JObject ms =>
    let fix members (ms : list (string * json)) (acc : list (string * GoVal))
      : list (string * GoVal) * option error :=
      match ms with
      | [] => (acc, None)
      | (k, x) :: r =>
        let '(v, e) := valueInterface x in
        let '(m, es) := members r (mapAssign k v acc) in
        (m, firstErr e es)
      end in
    let '(m, e) := members ms [] in (VMap m, e)
  end.

(** The name of a JSON value's kind in an [UnmarshalTypeError]. *)
Definition kindName (j : json) : string :=
  match j with
  | JNull => "null"
  | JBool _ => "bool"
  | JNumber _ => "number"
  | JString _ => "string"
  | JArray _ => "array"
  | JObject _ => "object"
  end.

(** A JSON value stored into a Go [string]: a JSON string is stored,
    [null] has no effect, any other value is a type error and leaves the
    target as it was. *)
Definition storeString (j : json) (cur : string) : string * option error :=
  match j with
  | JString s => (s, None)
  | JNull => (cur, None)
  | _ => (cur, Some (UnmarshalTypeError (kindName j) "string"))
  end.

(** A JSON value stored into an [interface{}] target. *)
Definition storeInterface (j : json) (cur : GoVal) : GoVal * option error :=
  match j with
  | JNumber lit =>
    match strconv_ParseFloat lit with
    | Some f => (VFloat64 f, None)
    | None => (cur, Some (UnmarshalTypeError ("number " ++ lit) "float64"))
    end
  | _ => valueInterface j
  end.

(** A JSON value stored into a [[]string]. *)
Definition storeStringSlice (j : json) (cur : option (list string))
  : option (list string) * option error :=
  match j with
  | JNull => (None, None)
  | JArray l =>
    let fix elems (l : list json) : list string * option error :=
      match l with
      | [] => ([], None)
      | x :: r =>
        let '(s, e) := storeString x EmptyString in
        let '(ss, es) := elems r in
        (s :: ss, firstErr e es)
      end in
    let '(ss, e) := elems l in (Some ss, e)
  | _ => (cur, Some (UnmarshalTypeError (kindName j) "[]string"))
  end.

(** [foldName]: the case-insensitive form of an object key under which
    struct fields are looked up.  ASCII letters are upper-cased; the two
    other runes whose case orbit reaches ASCII, U+017F (long s) and
    U+212A (Kelvin sign), become [S] and [K]. *)
Fixpoint foldName (fuel : nat) (s : string) : string :=
  match fuel with
  | O => s
  | S fuel =>
    match s with
    | EmptyString => EmptyString
    | String c r =>
      let b := code c in
      if (97 <=? b) && (b <=? 122) then String (chr (b - 32)) (foldName fuel r)
      else if String.prefix (String (chr 197) (str1 (chr 191))) s
      then String "S" (foldName fuel (dropn 2 s))
      else if String.prefix (String (chr 226) (String (chr 132) (str1 (chr 170)))) s
      then String "K" (foldName fuel (dropn 3 s))
      else String c (foldName fuel r)
    end
  end.

(** Whether the object key [k] selects the struct field tagged [tag]. *)
Definition keyIs (tag k : string) : bool :=
  String.eqb k tag ||
  String.eqb (foldName (String.length k) k) (foldName (String.length tag) tag).

(** *** [fmt]'s [%v] *)

Definition joinSpace (l : list string) : string :=
  match l with
  | [] => EmptyString
  | x :: r => fold_left (fun acc y => (acc ++ " " ++ y)%string) r x
  end.

Fixpoint bytesList (s : string) : list string :=
  match s with
  | EmptyString => []
  | String c r => decimal (code c) :: bytesList r
  end.

Fixpoint fmt_v (v : GoVal) : string :=
  match v with
  | VNil => "<nil>"
  | VBool b => if b then "true" else "false"
  | VInt i => strconv_Itoa i
  | VFloat64 f => strconv_FormatFloat_g f
  | VString s => s
  | VBytes b => ("[" ++ joinSpace (bytesList b) ++ "]")%string
  | VSlice l =>
    let fix elems (l : list GoVal) : list string :=
      match l with
      | [] => []
      | x :: r => fmt_v x :: elems r
      end in
    ("[" ++ joinSpace (elems l) ++ "]")%string
  | VMap m =>
    let fix members (m : list (string * GoVal)) : list string :=
      match m with
      | [] => []
      | (k, x) :: r => (k ++ ":" ++ fmt_v x)%string :: members r
      end in
    ("map[" ++ joinSpace (members m) ++ "]")%string
  end.

(** *** [json.Marshal] of a string ([appendString], HTML escaping on) *)

Definition hexDigit (d : Z) : ascii :=
  if d <? 10 then chr (48 + d) else chr (97 + d - 10).

Definition htmlSafe (c : ascii) : bool :=
  let b := code c in
  (32 <=? b) && (b <? 128) &&
  negb ((b =? 34) || (b =? 92) || (b =? 60) || (b =? 62) || (b =? 38)).

Definition escapeByte (c : ascii) : string :=
  let b := code c in
  if (b =? 34) || (b =? 92) then String backslash (str1 c)
  else if b =? 8 then String backslash "b"
  else if b =? 12 then String backslash "f"
  else if b =? 10 then String backslash "n"
  else if b =? 13 then String backslash "r"
  else if b =? 9 then String backslash "t"
  else String backslash
         (String "u" (String "0" (String "0"
            (String (hexDigit (Z.shiftr b 4)) (str1 (hexDigit (Z.land b 15))))))).

Fixpoint appendStringBody (fuel : nat) (s : string) : string :=
  match fuel with
  | O => EmptyString
  | S fuel =>
    match s with
    | EmptyString => EmptyString
    | String c r =>
      if code c <? 128 then
        if htmlSafe c then String c (appendStringBody fuel r)
        else (escapeByte c ++ appendStringBody fuel r)%string
      else
        let '(rr, size) := utf8_DecodeRune s in
        if (rr =? RuneError) && Nat.eqb size 1 then
          (String backslash "ufffd" ++ appendStringBody fuel r)%string
        else if (rr =? 8232) || (rr =? 8233) then
          (String backslash "u202" ++ str1 (hexDigit (Z.land rr 15)) ++
           appendStringBody fuel (dropn size s))%string
        else
          (String.substring 0 size s ++ appendStringBody fuel (dropn size s))%string
    end
  end.

(** [json.Marshal(s)] for a Go string [s]; it cannot fail. *)
Definition json_Marshal_string (s : string) : string :=
  String dquote (appendStringBody (String.length s) s ++ str1 dquote).

(** A string that [json.Marshal] copies as it is between the quotes it
    adds, and that holds no quote itself. *)
Definition copiedVerbatim (s : string) : Prop :=
  (forall fuel, (String.length s <= fuel)%nat -> appendStringBody fuel s = s) /\
  removeQuotes s = s.

(** ** [time.Parse] for the layout of [NonIsoTime]

    A [time.Time] is kept as the instant (seconds since the Unix epoch
    and nanoseconds) and the offset of its location east of UTC. *)

Record Time := mkTime { unixSec : Z; nsec : Z; zoneOffset : Z }.

(** The layout elements [nextStdChunk] finds in the layouts used here. *)
Inductive std :=
  | stdLongYear      (* 2006 *)
  | stdZeroMonth     (* 01 *)
  | stdZeroDay       (* 02 *)
  | stdHour          (* 15 *)
  | stdZeroMinute    (* 04 *)
  | stdZeroSecond    (* 05 *)
  | stdNumTZ.        (* -0700 *)

(** [nextStdChunk], for layouts built from the elements above and
    literal text: the literal prefix, the element, and the rest. *)
Fixpoint nextStdChunk (layout : string) : string * option std * string :=
  match layout with
  | EmptyString => (EmptyString, None, EmptyString)
  | String c r =>
    if String.prefix "2006" layout then (EmptyString, Some stdLongYear, dropn 4 layout)
    else if String.prefix "01" layout then (EmptyString, Some stdZeroMonth, dropn 2 layout)
    else if String.prefix "02" layout then (EmptyString, Some stdZeroDay, dropn 2 layout)
    else if String.prefix "15" layout then (EmptyString, Some stdHour, dropn 2 layout)
    else if String.prefix "04" layout then (EmptyString, Some stdZeroMinute, dropn 2 layout)
    else if String.prefix "05" layout then (EmptyString, Some stdZeroSecond, dropn 2 layout)
    else if String.prefix "-0700" layout then (EmptyString, Some stdNumTZ, dropn 5 layout)
    else let '(p, s, rest) := nextStdChunk r in (String c p, s, rest)
  end.

Fixpoint cutspace (s : string) : string :=
  match s with
  | String " " r => cutspace r
  | _ => s
  end.

(** [skip]: the value after the literal [prefix]; a run of spaces in the
    layout matches a run of spaces of any length in the value. *)
Fixpoint skip (fuel : nat) (value prefix : string) : option string :=
  match fuel with
  | O => None
  | S fuel =>
    match prefix with
    | EmptyString => Some value
    | String p pr =>
      if Ascii.eqb p " " then
        match value with
        | String v _ =>
          if Ascii.eqb v " " then skip fuel (cutspace value) (cutspace prefix)
          else None
        | EmptyString => skip fuel (cutspace value) (cutspace prefix)
        end
      else
        match value with
        | String v vr => if Ascii.eqb v p then skip fuel vr pr else None
        | EmptyString => None
        end
    end
  end.

(** [getnum]: a one- or two-digit number; [fixed] asks for two digits. *)
Definition getnum (s : string) (fixed : bool) : option (Z * string) :=
  match s with
  | String a r =>
    if isDigit a then
      match r with
      | String b r' =>
        if isDigit b then Some (digitVal a * 10 + digitVal b, r')
        else if fixed then None else Some (digitVal a, r)
      | EmptyString => if fixed then None else Some (digitVal a, r)
      end
    else None
  | EmptyString => None
  end.

Definition allDigits (s : string) : bool :=
  match spanDigits s with
  | (_, EmptyString) => true
  | _ => false
  end.

Definition commaOrPeriod (c : ascii) : bool :=
  Ascii.eqb c "." || Ascii.eqb c ",".

(** [parseNanoseconds]: the fraction whose digits are [ds] (at least
    one), cut after nine digits, in nanoseconds. *)
Definition parseNanoseconds (ds : string) : Z :=
  let d9 := String.substring 0 9 ds in
  parseDigits d9 0 * 10 ^ (9 - Z.of_nat (String.length d9)).

Definition isLeap (year : Z) : bool :=
  (year mod 4 =? 0) && (negb (year mod 100 =? 0) || (year mod 400 =? 0)).

Definition daysIn (month year : Z) : Z :=
  if month =? 2 then (if isLeap year then 29 else 28)
  else if (month =? 4) || (month =? 6) || (month =? 9) || (month =? 11) then 30
  else 31.

(** Days from 1970-01-01 to the given day of the proleptic Gregorian
    calendar. *)
Definition daysSinceEpoch (year month day : Z) : Z :=
  let y := if month <=? 2 then year - 1 else year in
  let era := y / 400 in
  let yoe := y - era * 400 in
  let mp := if 2 <? month then month - 3 else month + 9 in
  let doy := (153 * mp + 2) / 5 + day - 1 in
  let doe := yoe * 365 + yoe / 4 - yoe / 100 + doy in
  era * 146097 + doe - 719468.

(** The fields [time.Parse] collects while it walks the layout. *)
Record fields := mkFields {
  f_year : Z; f_month : Z; f_day : Z;
  f_hour : Z; f_min : Z; f_sec : Z; f_nsec : Z;
  f_zoneOffset : Z
}.

Definition fields0 : fields :=
  mkFields 0 (-1) (-1) 0 0 0 0 (-1).

(** One layout element applied to the head of the value: the updated
    fields and the rest of the value, or the parse error. *)
Definition parseStd (s : std) (value : string) (f : fields)
  : result (fields * string) :=
  let bad := Err (TimeParseError "cannot parse") in
  let range what := Err (TimeParseError (what ++ " out of range")) in
  match s with
  | stdLongYear =>
    match value with
    | String a _ =>
      if (4 <=? Z.of_nat (String.length value)) && isDigit a then
        let p := String.substring 0 4 value in
        if allDigits p
        then Ok (mkFields (parseDigits p 0) (f_month f) (f_day f) (f_hour f)
                   (f_min f) (f_sec f) (f_nsec f) (f_zoneOffset f), dropn 4 value)
        else bad
      else bad
    | EmptyString => bad
    end
  | stdZeroMonth =>
    match getnum value true with
    | Some (month, rest) =>
      if (month <=? 0) || (12 <? month) then range "month"
      else Ok (mkFields (f_year f) month (f_day f) (f_hour f)
                 (f_min f) (f_sec f) (f_nsec f) (f_zoneOffset f), rest)
    | None => bad
    end
  | stdZeroDay =>
    match getnum value true with
    | Some (day, rest) =>
      Ok (mkFields (f_year f) (f_month f) day (f_hour f)
            (f_min f) (f_sec f) (f_nsec f) (f_zoneOffset f), rest)
    | None => bad
    end
  | stdHour =>
    match getnum value false with
    | Some (hour, rest) =>
      if (hour <? 0) || (24 <=? hour) then range "hour"
      else Ok (mkFields (f_year f) (f_month f) (f_day f) hour
                 (f_min f) (f_sec f) (f_nsec f) (f_zoneOffset f), rest)
    | None => bad
    end
  | stdZeroMinute =>
    match getnum value true with
    | Some (min, rest) =>
      if (min <? 0) || (60 <=? min) then range "minute"
      else Ok (mkFields (f_year f) (f_month f) (f_day f) (f_hour f)
                 min (f_sec f) (f_nsec f) (f_zoneOffset f), rest)
    | None => bad
    end
  | stdZeroSecond =>
    match getnum value true with
    | Some (sec, rest) =>
      if (sec <? 0) || (60 <=? sec) then range "second"
      else
        (* A fractional second in the input is read even when the
           layout has none after the seconds (none of the layouts
           here has one). *)
        match rest with
        | String p (String d _ as frac) =>
          if commaOrPeriod p && isDigit d then
            let '(ds, rest') := spanDigits frac in
            Ok (mkFields (f_year f) (f_month f) (f_day f) (f_hour f)
                  (f_min f) sec (parseNanoseconds ds) (f_zoneOffset f), rest')
          else Ok (mkFields (f_year f) (f_month f) (f_day f) (f_hour f)
                     (f_min f) sec (f_nsec f) (f_zoneOffset f), rest)
        | _ => Ok (mkFields (f_year f) (f_month f) (f_day f) (f_hour f)
                     (f_min f) sec (f_nsec f) (f_zoneOffset f), rest)
        end
    | None => bad
    end
  | stdNumTZ =>
    match value with
    | String sign (String h1 (String h2 (String m1 (String m2 rest)))) =>
      match getnum (String h1 (str1 h2)) true, getnum (String m1 (str1 m2)) true with
      | Some (hr, _), Some (mm, _) =>
        if 60 <? mm then range "time zone offset minute"
        else if 24 <? hr then range "time zone offset hour"
        else
          let off := (hr * 60 + mm) * 60 in
          if Ascii.eqb sign "+"
          then Ok (mkFields (f_year f) (f_month f) (f_day f) (f_hour f)
                     (f_min f) (f_sec f) (f_nsec f) off, rest)
          else if Ascii.eqb sign "-"
          then Ok (mkFields (f_year f) (f_month f) (f_day f) (f_hour f)
                     (f_min f) (f_sec f) (f_nsec f) (- off), rest)
          else bad
      | _, _ => bad
      end
    | _ => bad
    end
  end.

(** The loop of [time.Parse] over the layout. *)
Fixpoint parseLoop (fuel : nat) (layout value : string) (f : fields)
  : result fields :=
  match fuel with
  | O => Err (TimeParseError "layout too long")
  | S fuel =>
    let '(prefix, s, suffix) := nextStdChunk layout in
    match skip (S (String.length prefix)) value prefix with
    | None => Err (TimeParseError "cannot parse")
    | Some value1 =>
      match s with
      | None =>
        match value1 with
        | EmptyString => Ok f
        | _ => Err (TimeParseError "extra text")
        end
      | Some st =>
        match parseStd st value1 f with
        | Ok (f', value2) => parseLoop fuel suffix value2 f'
        | Err e => Err e
        end
      end
    end
  end.

(** [time.Parse(layout, value)] *)
Definition time_Parse (layout value : string) : result Time :=
  match parseLoop (S (String.length layout)) layout value fields0 with
  | Err e => Err e
  | Ok f =>
    let month := if f_month f <? 0 then 1 else f_month f in
    let day := if f_day f <? 0 then 1 else f_day f in
    if (day <? 1) || (daysIn month (f_year f) <? day)
    then Err (TimeParseError "day out of range")
    else
      let civil := daysSinceEpoch (f_year f) month day * 86400
                   + f_hour f * 3600 + f_min f * 60 + f_sec f in
      if f_zoneOffset f =? -1
      then Ok (mkTime civil (f_nsec f) 0)
      else Ok (mkTime (civil - f_zoneOffset f) (f_nsec f) (f_zoneOffset f))
  end.

(** ** [time.Duration]: [time.ParseDuration] and [Duration.String]

    A [Duration] is an [int64] count of nanoseconds. *)

Definition Nanosecond : Z := 1.
Definition Microsecond : Z := 1000.
Definition Millisecond : Z := 1000000.
Definition Second : Z := 1000000000.
Definition Minute : Z := 60 * Second.
Definition Hour : Z := 60 * Minute.

Definition two63 : Z := 2 ^ 63.
Definition two64 : Z := 2 ^ 64.

(** The micro sign U+00B5 and the Greek letter mu U+03BC, in UTF-8. *)
Definition microSign : string := String (chr 194) (str1 (chr 181)).
Definition greekMu : string := String (chr 206) (str1 (chr 188)).

(** [unitMap] *)
Definition unitMap (u : string) : option Z :=
  if String.eqb u "ns" then Some Nanosecond
  else if String.eqb u "us" then Some Microsecond
  else if String.eqb u (microSign ++ "s") then Some Microsecond
  else if String.eqb u (greekMu ++ "s") then Some Microsecond
  else if String.eqb u "ms" then Some Millisecond
  else if String.eqb u "s" then Some Second
  else if String.eqb u "m" then Some Minute
  else if String.eqb u "h" then Some Hour
  else None.

(** [leadingInt]: the leading digits as a [uint64], with the rest;
    [None] when the number exceeds [2^63]. *)
Fixpoint leadingInt (s : string) (x : Z) : option (Z * string) :=
  match s with
  | String c r =>
    if isDigit c then
      if two63 / 10 <? x then None
      else
        let x' := x * 10 + digitVal c in
        if two63 <? x' then None else leadingInt r x'
    else Some (x, s)
  | EmptyString => Some (x, s)
  end.

(** [leadingFraction]: the leading digits as a [uint64] and the power
    of ten that scales them; digits past the capacity are read and
    dropped. *)
Fixpoint leadingFraction (s : string) (x : Z) (scale : float64)
  (overflow : bool) : Z * float64 * string :=
  match s with
  | String c r =>
    if isDigit c then
      if overflow then leadingFraction r x scale true
      else if (two63 - 1) / 10 <? x then leadingFraction r x scale true
      else
        let y := x * 10 + digitVal c in
        if two63 <? y then leadingFraction r x scale true
        else leadingFraction r y (float64_mul scale (float64_of_Z 10)) false
    else (x, scale, s)
  | EmptyString => (x, scale, s)
  end.

(** The unit name: everything up to the next digit or period. *)
Fixpoint spanUnit (s : string) : string * string :=
  match s with
  | String c r =>
    if Ascii.eqb c "." || isDigit c then (EmptyString, s)
    else let '(u, rest) := spanUnit r in (String c u, rest)
  | EmptyString => (EmptyString, EmptyString)
  end.

(** The optional fraction of a group: a period and the digits after
    it.  The result is the fraction's digits as an integer, their scale,
    the rest of the input, and whether any digit was read. *)
Definition consumeFraction (s1 : string) : Z * float64 * string * bool :=
  match s1 with
  | String c r =>
    if Ascii.eqb c "." then
      let '(f, scale, s2) := leadingFraction r 0 (float64_of_Z 1) false in
      (f, scale, s2, negb (Nat.eqb (String.length r) (String.length s2)))
    else (0, float64_of_Z 1, s1, false)
  | EmptyString => (0, float64_of_Z 1, s1, false)
  end.

(** No byte of [s] is a digit or a period. *)
Fixpoint noDigits (s : string) : bool :=
  match s with
  | EmptyString => true
  | String c r => negb (Ascii.eqb c "." || isDigit c) && noDigits r
  end.

(** [s] is empty or begins with a digit or a period. *)
Definition startsNumber (s : string) : bool :=
  match s with
  | EmptyString => true
  | String c _ => Ascii.eqb c "." || isDigit c
  end.

(** The loop of [time.ParseDuration] over the number-unit groups; [d]
    is the [uint64] sum so far. *)
Fixpoint parseDurationLoop (fuel : nat) (s : string) (d : Z) : option Z :=
  match fuel with
  | O => None
  | S fuel =>
    match s with
    | EmptyString => Some d
    | String c _ =>
      if negb (Ascii.eqb c "." || isDigit c) then None
      else
        match leadingInt s 0 with
        | None => None
        | Some (v, s1) =>
          let pre := negb (Nat.eqb (String.length s) (String.length s1)) in
          let '(f, scale, s2, post) := consumeFraction s1 in
          if negb pre && negb post then None
          else
            let '(u, s3) := spanUnit s2 in
            match u with
            | EmptyString => None
            | _ =>
              match unitMap u with
              | None => None
              | Some unit =>
                if two63 / unit <? v then None
                else
                  let v1 := v * unit in
                  let v2 :=
                    if 0 <? f
                    then (v1 + uint64_of_float64
                                 (float64_mul (float64_of_Z f)
                                    (float64_div (float64_of_Z unit) scale)))
                         mod two64
                    else v1 in
                  if (0 <? f) && (two63 <? v2) then None
                  else
                    let d' := (d + v2) mod two64 in
                    if two63 <? d' then None
                    else parseDurationLoop fuel s3 d'
              end
            end
        end
    end
  end.

(** [time.ParseDuration] *)
Definition time_ParseDuration (s : string) : result Z :=
  let invalid := Err (DurationError "invalid duration") in
  let '(neg, s1) :=
    match s with
    | String c r =>
      if Ascii.eqb c "-" then (true, r)
      else if Ascii.eqb c "+" then (false, r)
      else (false, s)
    | EmptyString => (false, s)
    end in
  if String.eqb s1 "0" then Ok 0
  else if String.eqb s1 EmptyString then invalid
  else
    match parseDurationLoop (S (String.length s1)) s1 0 with
    | None => invalid
    | Some d =>
      if neg then Ok (- d)
      else if two63 - 1 <? d then invalid
      else Ok d
    end.

(** [fmtFrac]: the low [prec] digits of [v] as a fraction without
    trailing zeros, put in front of [buf], and [v / 10^prec]. *)
Fixpoint fmtFrac (prec : nat) (buf : string) (v : Z) (print : bool)
  : string * Z :=
  match prec with
  | O => (if print then String "." buf else buf, v)
  | S prec =>
    let digit := v mod 10 in
    let print' := print || negb (digit =? 0) in
    fmtFrac prec (if print' then String (digitChar digit) buf else buf)
            (v / 10) print'
  end.

(** The [p] low decimal digits of [v], with their leading zeros, put in
    front of [acc]. *)
Fixpoint fracDigits (p : nat) (v : Z) (acc : string) : string :=
  match p with
  | O => acc
  | S p => fracDigits p (v / 10) (String (digitChar (v mod 10)) acc)
  end.

(** [fmtInt]: the decimal digits of [v] put in front of [buf]. *)
Definition fmtInt (buf : string) (v : Z) : string :=
  if v =? 0 then String "0" buf else fmtDigits 20 v buf.

(** The body of [Duration.format]: the text of the magnitude [u] of a
    duration, without sign. *)
Definition durationBody (u : Z) : string :=
  if u <? Second then
    if u =? 0 then "0s"
    else if u <? Microsecond then
      let '(w, u1) := fmtFrac 0 "ns" u false in fmtInt w u1
    else if u <? Millisecond then
      let '(w, u1) := fmtFrac 3 (microSign ++ "s") u false in fmtInt w u1
    else
      let '(w, u1) := fmtFrac 6 "ms" u false in fmtInt w u1
  else
    let '(w, u1) := fmtFrac 9 "s" u false in
    let w1 := fmtInt w (u1 mod 60) in
    let u2 := u1 / 60 in
    if 0 <? u2 then
      let w2 := fmtInt (String "m" w1) (u2 mod 60) in
      let u3 := u2 / 60 in
      if 0 <? u3 then fmtInt (String "h" w2) u3 else w2
    else w1.

(** [Duration.String] *)
Definition Duration_String (d : Z) : string :=
  if d <? 0 then String "-" (durationBody (Z.abs d))
  else durationBody (Z.abs d).

(** ** The package's decoders (types.go) *)

(** [NonIsoTime]: a [time.Time] read from the gateway's own layout. *)
Definition nonIsoTimeFormat : string := "2006-01-02 15:04:05 -0700".

(** [NonIsoTime.UnmarshalJSON]; the receiver is written on success
    only. *)
Definition NonIsoTime_UnmarshalJSON (p : string) : result Time :=
  time_Parse nonIsoTimeFormat (removeQuotes p).

(** The shape the specification names for a [NonIsoTime]:
    YYYY-MM-DD HH:MM:SS and a signed four-digit zone, each part of its
    exact width, one space between the parts, nothing else.  A shape is
    matched from left to right; each step gives what is left. *)
Definition matcher := string -> option string.

Definition mDigit : matcher := fun s =>
  match s with
  | String c r => if isDigit c then Some r else None
  | EmptyString => None
  end.

Definition mChar (c : ascii) : matcher := fun s =>
  match s with
  | String d r => if Ascii.eqb d c then Some r else None
  | EmptyString => None
  end.

Definition mSign : matcher := fun s =>
  match s with
  | String d r => if Ascii.eqb d "+" || Ascii.eqb d "-" then Some r else None
  | EmptyString => None
  end.

(** One or more spaces. *)
Definition mSpaces : matcher := fun s =>
  match s with
  | String d r => if Ascii.eqb d " " then Some (cutspace r) else None
  | EmptyString => None
  end.

(** A digit, if one is there. *)
Definition mOptDigit : matcher := fun s =>
  match s with
  | String c r => if isDigit c then Some r else Some s
  | EmptyString => Some s
  end.

(** A period or comma and digits after it, if they are there. *)
Definition mOptFraction : matcher := fun s =>
  match s with
  | String p (String d _ as frac) =>
    if commaOrPeriod p && isDigit d then Some (snd (spanDigits frac)) else Some s
  | _ => Some s
  end.

Fixpoint mSeq (ms : list matcher) (s : string) : option string :=
  match ms with
  | [] => Some s
  | m :: r => match m s with Some s' => mSeq r s' | None => None end
  end.

Definition matches (ms : list matcher) (s : string) : bool :=
  match mSeq ms s with
  | Some EmptyString => true
  | _ => false
  end.

Definition strictLayout : string -> bool :=
  matches [mDigit; mDigit; mDigit; mDigit; mChar "-"; mDigit; mDigit;
           mChar "-"; mDigit; mDigit; mChar " ";
           mDigit; mDigit; mChar ":"; mDigit; mDigit; mChar ":";
           mDigit; mDigit; mChar " "; mSign; mDigit; mDigit; mDigit; mDigit].

(** The shapes [time.Parse] takes for that layout: the hour may have
    one digit, the seconds may have a fraction, and the parts may be
    separated by several spaces. *)
Definition lenientLayout : string -> bool :=
  matches [mDigit; mDigit; mDigit; mDigit; mChar "-"; mDigit; mDigit;
           mChar "-"; mDigit; mDigit; mSpaces;
           mDigit; mOptDigit; mChar ":"; mDigit; mDigit; mChar ":";
           mDigit; mDigit; mOptFraction; mSpaces;
           mSign; mDigit; mDigit; mDigit; mDigit].

(** [Duration.UnmarshalJSON] *)
Definition Duration_UnmarshalJSON (p : string) : result Z :=
  time_ParseDuration (removeQuotes p).

(** [Duration.MarshalJSON]; [json.Marshal] of a string has no error. *)
Definition Duration_MarshalJSON (v : Z) : string :=
  json_Marshal_string (Duration_String v).

(** *** [DecodedAlert] *)

(** The local type [entry] of [DecodedAlert.UnmarshalJSON]. *)
Record entry := mkEntry { Name : string; Value : GoVal; Units : GoVal }.

Definition entry0 : entry := mkEntry EmptyString VNil VNil.

(** One object member decoded into an [entry]: the field whose tag the
    key selects is stored, other keys are skipped. *)
Definition entryMember (e : entry) (k : string) (j : json)
  : entry * option error :=
  if keyIs "name" k then
    let '(s, err) := storeString j (Name e) in
    (mkEntry s (Value e) (Units e), err)
  else if keyIs "value" k then
    let '(v, err) := storeInterface j (Value e) in
    (mkEntry (Name e) v (Units e), err)
  else if keyIs "units" k then
    let '(v, err) := storeInterface j (Units e) in
    (mkEntry (Name e) (Value e) v, err)
  else (e, None).

Fixpoint entryMembers (e : entry) (ms : list (string * json))
  : entry * option error :=
  match ms with
  | [] => (e, None)
  | (k, j) :: r =>
    let '(e1, err1) := entryMember e k j in
    let '(e2, err2) := entryMembers e1 r in
    (e2, firstErr err1 err2)
  end.

(** A JSON value stored into a zero [entry]. *)
Definition storeEntry (j : json) : entry * option error :=
  match j with
  | JObject ms => entryMembers entry0 ms
  | JNull => (entry0, None)
  | _ => (entry0, Some (UnmarshalTypeError (kindName j) "entry"))
  end.

Fixpoint storeEntries (l : list json) : list entry * option error :=
  match l with
  | [] => ([], None)
  | x :: r =>
    let '(e, err1) := storeEntry x in
    let '(es, err2) := storeEntries r in
    (e :: es, firstErr err1 err2)
  end.

(** [json.Unmarshal(data, &strvalue)] for a [string] target. *)
Definition json_Unmarshal_string (data : string) (cur : string)
  : string * option error :=
  match parseJSON data with
  | None => (cur, Some (SyntaxError "invalid JSON"))
  | Some j => storeString j cur
  end.

(** [json.Unmarshal(data, &entries)] for a [[]entry] target; [None] is
    the nil slice. *)
Definition json_Unmarshal_entries (data : string) (cur : option (list entry))
  : option (list entry) * option error :=
  match parseJSON data with
  | None => (cur, Some (SyntaxError "invalid JSON"))
  | Some JNull => (None, None)
  | Some (JArray l) => let '(es, err) := storeEntries l in (Some es, err)
  | Some j => (cur, Some (UnmarshalTypeError (kindName j) "[]entry"))
  end.

(** [fmt.Sprintf("%v", e)] for an [entry]. *)
Definition fmt_v_entry (e : entry) : string :=
  ("{" ++ Name e ++ " " ++ fmt_v (Value e) ++ " " ++ fmt_v (Units e) ++ "}")%string.

(** [m[k]] on a [map[string]string]: the empty string when absent. *)
Definition mapGet (m : gmap string string) (k : string) : string :=
  default EmptyString (m !! k).

Section DecodedAlert.

(** [fmt.Sprintf("%q", b)] for a byte slice: Go's quoting of
    non-printable runes depends on Unicode tables that are not
    modelled, so it is a parameter. *)
Variable fmt_q : string -> string.

(** The chain of type assertions on [e.Value]: the text every branch
    assigns to the map at [e.Name]. *)
Definition valueText (e : entry) : string :=
  match Value e with
  | VInt iv => strconv_Itoa iv
  | VFloat64 fv => strconv_FormatFloat_f fv
  | VString sv => sv
  | VBytes bv => fmt_q bv
  | _ => ("unrecognized type " ++ fmt_v_entry e)%string
  end.

(** The body of the loop over the entries. *)
Definition alertEntry (v : gmap string string) (e : entry)
  : gmap string string :=
  let v1 := <[Name e := valueText e]> v in
  match Units e with
  | VString uv =>
    if negb (String.eqb (mapGet v1 (Name e)) EmptyString) &&
       negb (String.eqb uv EmptyString)
    then <[Name e := (mapGet v1 (Name e) ++ " " ++ uv)%string]> v1
    else v1
  | _ => v1
  end.

(** [DecodedAlert.UnmarshalJSON].  The receiver is a pointer to a map:
    [v] is the map it points to on entry ([None] for a nil map); the
    result is the map it points to on return, and the error. *)
Definition DecodedAlert_UnmarshalJSON (v : option (gmap string string))
  (data : string) : option (gmap string string) * option error :=
  let '(strvalue, err) := json_Unmarshal_string data EmptyString in
  match err with
  | Some e =>
    (v, Some (Errorf_w ("error unmarshalling grid alert " ++ strvalue
                        ++ " into string: ") e))
  | None =>
    if String.eqb strvalue EmptyString then (v, None)
    else
      let '(entries, err) := json_Unmarshal_entries strvalue (Some []) in
      match err with
      | Some e =>
        (v, Some (Errorf_w ("error unmarshalling grid alert " ++ strvalue
                            ++ ": ") e))
      | None =>
        (Some (fold_left alertEntry (default [] entries) ∅), None)
      end
  end.

End DecodedAlert.

(** ** The client (client.go)

    What the package sees of [net/http]: requests, responses, and the
    behaviour of the [*http.Client] it holds.  Log lines ([logf], whose
    sink does nothing unless one is registered) are not modelled. *)

Record Cookie := mkCookie { CookieName : string; CookieValue : string }.

(** An [*http.Request]: [Cookies] is what [AddCookie] has put in the
    [Cookie] header so far. *)
Record Request := mkRequest {
  Method : string;
  ReqURL : URL;
  ContentType : option string;
  Cookies : list Cookie;
  ReqBody : option string
}.

(** An [*http.Response]: [Body] is what [ioutil.ReadAll(resp.Body)]
    returns. *)
Record Response := mkResponse {
  StatusCode : Z;
  RespContentType : string;
  Body : result string
}.

(** The [*http.Client] and the network behind it.  [Do n req] is what
    the call of [httpClient.Do(req)] that follows [n] earlier calls
    takes (in nanoseconds) and returns; [NewRequestErr] is the error, if
    any, with which [http.NewRequest] rejects a method and URL. *)
Record HttpClient := mkHttpClient {
  Do : nat -> Request -> Z * result Response;
  NewRequestErr : string -> URL -> option error
}.

Record Client := mkClient {
  gatewayAddress : string;
  gatewayLoginEmail : string;
  gatewayLoginPassword : string;
  httpClient : HttpClient;
  retryInterval : Z;
  retryTimeout : Z
}.

(** [SetRetry] *)
Definition SetRetry (c : Client) (interval timeout : Z) : Client :=
  mkClient (gatewayAddress c) (gatewayLoginEmail c) (gatewayLoginPassword c)
           (httpClient c) interval timeout.

(** The commands of the auth coordinator. *)
Inductive cmd := cmd_DO_LOGIN | cmd_CHECK_LOGIN | cmd_SET_TOKEN.

(** An [authMessage]; [result_ch] names the reply channel. *)
Record authMessage := mkAuthMessage {
  action : cmd;
  email : string;
  password : string;
  token : string;
  result_ch : nat
}.

(** What a run leaves behind, in order. *)
Inductive Event :=
  | EvHttpDo (req : Request)
      (* httpDo(req) is entered *)
  | EvDo (req : Request) (tokenThen : string) (at_ : Z) (took : Z)
         (res : result Response)
      (* httpClient.Do(req), called at time [at_], took [took] and
         returned [res]; [tokenThen] is the coordinator's token at that
         moment *)
  | EvSleep (d : Z)
      (* time.Sleep(d) *)
  | EvTokenRead (tok : string)
      (* a value received from token_ch *)
  | EvAuthMsg (msg : authMessage)
      (* a message received by the coordinator from auth_ch *)
  | EvReply (ch : nat) (err : option error)
      (* a value sent on a reply channel *)
  | EvErrFunc (api : string) (data : string) (err : error).
      (* jsonError: the diagnostic callback *)

(** The state a run threads: the clock (nanoseconds), the number of
    [httpClient.Do] calls made, the coordinator's [authToken] variable,
    the number of reply channels made, and the events so far. *)
Record World := mkWorld {
  now : Z;
  calls : nat;
  authToken : string;
  chans : nat;
  trace : list Event
}.

Definition emit (e : Event) (w : World) : World :=
  mkWorld (now w) (calls w) (authToken w) (chans w) (trace w ++ [e]).

Definition setToken (t : string) (w : World) : World :=
  mkWorld (now w) (calls w) t (chans w) (trace w).

(** [time.Sleep(d)]: a zero or negative duration returns at once. *)
Definition sleep (d : Z) (w : World) : World :=
  emit (EvSleep d)
       (mkWorld (now w + Z.max 0 d) (calls w) (authToken w) (chans w) (trace w)).

(** One call of [httpClient.Do]. *)
Definition callDo (c : Client) (req : Request) (w : World)
  : result Response * World :=
  let '(dur, res) := Do (httpClient c) (calls w) req in
  (res, emit (EvDo req (authToken w) (now w) (Z.max 0 dur) res)
          (mkWorld (now w + Z.max 0 dur) (S (calls w)) (authToken w)
                   (chans w) (trace w))).

(** [err.(net.Error)] *)
Definition isNetError (res : result Response) : bool :=
  match res with
  | Err (TransportError b _) => b
  | _ => false
  end.

(** The loop of [httpDo]; [None] when [fuel] attempts were not enough
    for it to return. *)
Fixpoint httpDoLoop (c : Client) (fuel : nat) (req : Request)
  (start_time : Z) (w : World) : option (result Response * World) :=
  match fuel with
  | O => None
  | S fuel =>
    let attempt_time := now w in
    let '(res, w1) := callDo c req w in
    if negb (isNetError res) then Some (res, w1)
    else if retryTimeout c <=? now w1 - start_time then Some (res, w1)
    else httpDoLoop c fuel req start_time
           (sleep (retryInterval c - (now w1 - attempt_time)) w1)
  end.

(** [httpDo] *)
Definition httpDo (c : Client) (fuel : nat) (req : Request) (w : World)
  : option (result Response * World) :=
  httpDoLoop c fuel req (now w) (emit (EvHttpDo req) w).

(** The local type [errorResponse] of [doHttpRequest]; its [Code] is
    never read. *)
Record errorResponse := mkErrorResponse { ErrError : string; ErrMessage : string }.

Fixpoint errorResponseMembers (r : errorResponse) (ms : list (string * json))
  : errorResponse :=
  match ms with
  | [] => r
  | (k, j) :: rest =>
    let r1 :=
      if keyIs "error" k then mkErrorResponse (fst (storeString j (ErrError r))) (ErrMessage r)
      else if keyIs "message" k then mkErrorResponse (ErrError r) (fst (storeString j (ErrMessage r)))
      else r in
    errorResponseMembers r1 rest
  end.

(** [_ = json.Unmarshal(body, &errInfo)]: whatever could be decoded. *)
Definition json_Unmarshal_errorResponse (body : string) : errorResponse :=
  match parseJSON body with
  | Some (JObject ms) => errorResponseMembers (mkErrorResponse EmptyString EmptyString) ms
  | _ => mkErrorResponse EmptyString EmptyString
  end.

Definition addCookie (k : Cookie) (req : Request) : Request :=
  mkRequest (Method req) (ReqURL req) (ContentType req) (Cookies req ++ [k])
            (ReqBody req).

Definition delCookies (req : Request) : Request :=
  mkRequest (Method req) (ReqURL req) (ContentType req) [] (ReqBody req).

Definition isAuthStatus (s : Z) : bool := (s =? 401) || (s =? 403).

Section Executor.

Variable c : Client.
Variable fuel : nat.

(** [c.GetAuthToken()] and [c.DoLogin()] as the calling goroutine
    experiences them; [None] when the call never returns. *)
Variable GetAuthToken : World -> option (string * World).
Variable DoLogin : World -> option (option error * World).

(** The tail of [doHttpRequest], from [ioutil.ReadAll] on. *)
Definition finishRequest (url : URL) (resp : Response) (w : World)
  : option string * option error * World :=
  match Body resp with
  | Err e => (None, Some e, w)
  | Ok body =>
    if isAuthStatus (StatusCode resp) then
      let errInfo := json_Unmarshal_errorResponse body in
      (None, Some (AuthFailure url (ErrError errInfo) (ErrMessage errInfo)), w)
    else if (StatusCode resp <? 200) || (300 <=? StatusCode resp) then
      (Some body, Some (ApiError url (StatusCode resp) body), w)
    else (Some body, None, w)
  end.

(** [doHttpRequest]: the body returned ([None] for nil) and the
    error. *)
Definition doHttpRequest (api method : string) (payload : option string)
  (contentType : string) (w : World)
  : option (option string * option error * World) :=
  let url := mkURL "https" (gatewayAddress c) ("api/" ++ api) in
  match NewRequestErr (httpClient c) method url with
  | Some e => Some (None, Some e, w)
  | None =>
    let req :=
      match payload with
      | None => mkRequest method url None [] None
      | Some p => mkRequest method url (Some contentType) [] (Some p)
      end in
    if HasPrefix api "login/" then
      match httpDo c fuel req w with
      | None => None
      | Some (Err e, w1) => Some (None, Some e, w1)
      | Some (Ok resp, w1) => Some (finishRequest url resp w1)
      end
    else
      match GetAuthToken w with
      | None => None
      | Some (authToken, w0) =>
        let req1 :=
          if negb (String.eqb authToken EmptyString)
          then addCookie (mkCookie "AuthCookie" authToken) req
          else req in
        match httpDo c fuel req1 w0 with
        | None => None
        | Some (Err e, w1) => Some (None, Some e, w1)
        | Some (Ok resp, w1) =>
          if isAuthStatus (StatusCode resp) then
            match DoLogin w1 with
            | None => None
            | Some (Some e, w2) => Some (None, Some e, w2)
            | Some (None, w2) =>
              match GetAuthToken w2 with
              | None => None
              | Some (authToken2, w3) =>
                let req2 :=
                  addCookie (mkCookie "AuthCookie" authToken2)
                            (delCookies req1) in
                match httpDo c fuel req2 w3 with
                | None => None
                | Some (Err e, w4) => Some (None, Some e, w4)
                | Some (Ok resp2, w4) => Some (finishRequest url resp2 w4)
                end
              end
            end
          else Some (finishRequest url resp w1)
        end
      end
  end.

(** [jsonError] *)
Definition jsonError (api data : string) (err : error) (w : World) : World :=
  emit (EvErrFunc api data err) w.

(** [apiGetJson] and [apiPostJson], for a result of type [R] whose
    [json.Unmarshal] is [unmarshal]: the result variable after the
    call, and the error. *)
Definition apiJson {R} (api method : string) (payload : option string)
  (contentType : string) (unmarshal : string -> R -> R * option error)
  (result0 : R) (w : World) : option (R * option error * World) :=
  match doHttpRequest api method payload contentType w with
  | None => None
  | Some (_, Some e, w1) => Some (result0, Some e, w1)
  | Some (respData, None, w1) =>
    let data := default EmptyString respData in
    match unmarshal data result0 with
    | (r, Some e) => Some (r, Some e, jsonError api data e w1)
    | (r, None) => Some (r, None, w1)
    end
  end.

Definition apiGetJson {R} (api : string)
  (unmarshal : string -> R -> R * option error) (result0 : R) (w : World)
  : option (R * option error * World) :=
  apiJson api "GET" None EmptyString unmarshal result0 w.

(** [payloadData] is [json.Marshal(payload)], which does not fail on
    the payloads this package sends. *)
Definition apiPostJson {R} (api : string) (payloadData : string)
  (unmarshal : string -> R -> R * option error) (result0 : R) (w : World)
  : option (R * option error * World) :=
  apiJson api "POST" (Some payloadData) "application/json" unmarshal result0 w.

End Executor.

(** ** Authentication (auth.go) *)

Record loginData := mkLoginData {
  Username : string;
  Email : string;
  Password : string;
  ForceSmOff : bool
}.

(** [json.Marshal] of a [loginData]. *)
Definition json_Marshal_loginData (ld : loginData) : string :=
  ("{" ++ json_Marshal_string "username" ++ ":" ++ json_Marshal_string (Username ld)
   ++ "," ++ json_Marshal_string "email" ++ ":" ++ json_Marshal_string (Email ld)
   ++ "," ++ json_Marshal_string "password" ++ ":" ++ json_Marshal_string (Password ld)
   ++ "," ++ json_Marshal_string "force_sm_off" ++ ":"
   ++ (if ForceSmOff ld then "true" else "false") ++ "}")%string.

(** The exported fields of [loginResponse] (the field [loginTime] is
    unexported, so [encoding/json] does not see it). *)
Record loginResponse := mkLoginResponse {
  LrEmail : string;
  FirstName : string;
  LastName : string;
  Roles : option (list string);
  Token : string;
  Provider : string
}.

Definition loginResponse0 : loginResponse :=
  mkLoginResponse EmptyString EmptyString EmptyString None EmptyString EmptyString.

Definition loginResponseMember (r : loginResponse) (k : string) (j : json)
  : loginResponse * option error :=
  if keyIs "email" k then
    let '(s, e) := storeString j (LrEmail r) in
    (mkLoginResponse s (FirstName r) (LastName r) (Roles r) (Token r) (Provider r), e)
  else if keyIs "firstname" k then
    let '(s, e) := storeString j (FirstName r) in
    (mkLoginResponse (LrEmail r) s (LastName r) (Roles r) (Token r) (Provider r), e)
  else if keyIs "lastname" k then
    let '(s, e) := storeString j (LastName r) in
    (mkLoginResponse (LrEmail r) (FirstName r) s (Roles r) (Token r) (Provider r), e)
  else if keyIs "roles" k then
    let '(s, e) := storeStringSlice j (Roles r) in
    (mkLoginResponse (LrEmail r) (FirstName r) (LastName r) s (Token r) (Provider r), e)
  else if keyIs "token" k then
    let '(s, e) := storeString j (Token r) in
    (mkLoginResponse (LrEmail r) (FirstName r) (LastName r) (Roles r) s (Provider r), e)
  else if keyIs "provider" k then
    let '(s, e) := storeString j (Provider r) in
    (mkLoginResponse (LrEmail r) (FirstName r) (LastName r) (Roles r) (Token r) s, e)
  else (r, None).

Fixpoint loginResponseMembers (r : loginResponse) (ms : list (string * json))
  : loginResponse * option error :=
  match ms with
  | [] => (r, None)
  | (k, j) :: rest =>
    let '(r1, e1) := loginResponseMember r k j in
    let '(r2, e2) := loginResponseMembers r1 rest in
    (r2, firstErr e1 e2)
  end.

(** [json.Unmarshal(data, &resp)] for a [loginResponse] target. *)
Definition json_Unmarshal_loginResponse (data : string) (cur : loginResponse)
  : loginResponse * option error :=
  match parseJSON data with
  | None => (cur, Some (SyntaxError "invalid JSON"))
  | Some (JObject ms) => loginResponseMembers cur ms
  | Some JNull => (cur, None)
  | Some j => (cur, Some (UnmarshalTypeError (kindName j) "loginResponse"))
  end.

(** A call that never returns: what [GetAuthToken] and [DoLogin] would be
    for the coordinator's own goroutine, which is the only receiver of
    the channels they wait on. *)
Definition blocked {A} (w : World) : option (A * World) := None.

(** [performLogin]; it runs in the coordinator's goroutine. *)
Definition performLogin (c : Client) (fuel : nat) (email password : string)
  (w : World) : option (string * option error * World) :=
  let ld := mkLoginData "customer" email password false in
  match apiPostJson c fuel blocked blocked "login/Basic"
          (json_Marshal_loginData ld) json_Unmarshal_loginResponse
          loginResponse0 w with
  | None => None
  | Some (resp, err, w1) =>
    if negb (String.eqb (Token resp) EmptyString) then Some (Token resp, None, w1)
    else match err with
         | Some e => Some (EmptyString, Some e, w1)
         | None => Some (EmptyString,
                         Some (ErrorsNew "No auth token returned from login API call"),
                         w1)
         end
  end.

(** The HTTP call [performLogin] makes through [apiPostJson]. *)
Definition loginCall (c : Client) (fuel : nat) (email password : string)
  (w : World) : option (option string * option error * World) :=
  doHttpRequest c fuel blocked blocked "login/Basic" "POST"
    (Some (json_Marshal_loginData (mkLoginData "customer" email password false)))
    "application/json" w.

(** [doAuthMsg]: the coordinator's variable [authToken] is the world's;
    a send on [msg.result_ch] is an [EvReply]. *)
Definition doAuthMsg (c : Client) (fuel : nat) (msg : authMessage) (w : World)
  : option World :=
  match action msg with
  | cmd_SET_TOKEN => Some (setToken (token msg) w)
  | cmd_DO_LOGIN =>
    match performLogin c fuel (email msg) (password msg) w with
    | None => None
    | Some (tok, err, w1) => Some (emit (EvReply (result_ch msg) err) (setToken tok w1))
    end
  | cmd_CHECK_LOGIN =>
    if String.eqb (authToken w) EmptyString then
      match performLogin c fuel (email msg) (password msg) w with
      | None => None
      | Some (tok, err, w1) => Some (emit (EvReply (result_ch msg) err) (setToken tok w1))
      end
    else Some (emit (EvReply (result_ch msg) None) w)
  end.

(** [make(chan error)] *)
Definition makeChan (w : World) : nat * World :=
  (chans w, mkWorld (now w) (calls w) (authToken w) (S (chans w)) (trace w)).

(** The last value sent on channel [ch]. *)
Fixpoint lastReply (ch : nat) (tr : list Event) (acc : option (option error))
  : option (option error) :=
  match tr with
  | [] => acc
  | EvReply ch' err :: r =>
    lastReply ch r (if Nat.eqb ch ch' then Some err else acc)
  | _ :: r => lastReply ch r acc
  end.

(** A message handed to the coordinator on [auth_ch] and handled by it,
    and the value then received from its reply channel. *)
Definition roundTrip (c : Client) (fuel : nat) (msg : authMessage) (w : World)
  : option (option error * World) :=
  match doAuthMsg c fuel msg (emit (EvAuthMsg msg) w) with
  | None => None
  | Some w1 =>
    match lastReply (result_ch msg) (trace w1) None with
    | Some err => Some (err, w1)
    | None => None
    end
  end.

(** [DoLogin] *)
Definition DoLogin (c : Client) (fuel : nat) (w : World)
  : option (option error * World) :=
  let '(ch, w0) := makeChan w in
  roundTrip c fuel
    (mkAuthMessage cmd_DO_LOGIN (gatewayLoginEmail c) (gatewayLoginPassword c)
                   EmptyString ch) w0.

(** [checkLogin] *)
Definition checkLogin (c : Client) (fuel : nat) (w : World)
  : option (option error * World) :=
  let '(ch, w0) := makeChan w in
  roundTrip c fuel
    (mkAuthMessage cmd_CHECK_LOGIN (gatewayLoginEmail c) (gatewayLoginPassword c)
                   EmptyString ch) w0.

(** [GetAuthToken]: the value the coordinator sends on [token_ch]. *)
Definition GetAuthToken (w : World) : option (string * World) :=
  Some (authToken w, emit (EvTokenRead (authToken w)) w).

(** [doHttpRequest], [apiGetJson] and [apiPostJson] called from a client
    goroutine that has the client to itself; for a client shared
    between goroutines see [Shared_doHttpRequest] below. *)
Definition Client_doHttpRequest (c : Client) (fuel : nat) :=
  doHttpRequest c fuel GetAuthToken (DoLogin c fuel).

Definition Client_apiGetJson (c : Client) (fuel : nat) {R} :=
  @apiGetJson c fuel GetAuthToken (DoLogin c fuel) R.

Definition Client_apiPostJson (c : Client) (fuel : nat) {R} :=
  @apiPostJson c fuel GetAuthToken (DoLogin c fuel) R.

Definition world0 : World := mkWorld 0 0 EmptyString 0 [].

(** ** The coordinator's worker ([authManager])

    The worker loops over two [select] statements.  Its state is where
    it stands in the loop, the world (which holds its [authToken]), the
    goroutines blocked sending on [auth_ch] (in arrival order, with
    their messages) and the number of goroutines blocked receiving from
    [token_ch].  Both channels are unbuffered. *)

Inductive mgrPC :=
  | AtFirstSelect     (* about to run the select with a default case *)
  | AtSecondSelect    (* about to run the select over both channels *)
  | Parked.           (* waiting inside the second select *)

Record Mgr := mkMgr {
  pc : mgrPC;
  world : World;
  senders : list authMessage;
  receivers : nat
}.

Inductive Label :=
  | LArriveSend (msg : authMessage)   (* a goroutine starts [auth_ch <- msg] *)
  | LArriveRecv                       (* a goroutine starts [<-token_ch] *)
  | LDefault                          (* the first select takes its default case *)
  | LPark                             (* the second select finds nothing ready *)
  | LAuth (msg : authMessage)         (* the worker receives [msg] and runs doAuthMsg *)
  | LToken (tok : string).            (* the worker sends [tok] on token_ch *)

(** One step of the worker or of its environment.  A [select] with
    several ready cases takes any one of them. *)
Inductive mstep (c : Client) (fuel : nat) : Mgr -> Label -> Mgr -> Prop :=
  | step_arrive_send p w ss n msg :
      p <> Parked ->
      mstep c fuel (mkMgr p w ss n) (LArriveSend msg) (mkMgr p w (ss ++ [msg]) n)
  | step_arrive_recv p w ss n :
      p <> Parked ->
      mstep c fuel (mkMgr p w ss n) LArriveRecv (mkMgr p w ss (S n))
  | step_first_auth w ss n msg w' :
      doAuthMsg c fuel msg (emit (EvAuthMsg msg) w) = Some w' ->
      mstep c fuel (mkMgr AtFirstSelect w (msg :: ss) n) (LAuth msg)
            (mkMgr AtFirstSelect w' ss n)
  | step_first_default w n :
      mstep c fuel (mkMgr AtFirstSelect w [] n) LDefault
            (mkMgr AtSecondSelect w [] n)
  | step_second_auth w ss n msg w' :
      doAuthMsg c fuel msg (emit (EvAuthMsg msg) w) = Some w' ->
      mstep c fuel (mkMgr AtSecondSelect w (msg :: ss) n) (LAuth msg)
            (mkMgr AtFirstSelect w' ss n)
  | step_second_token w ss n :
      mstep c fuel (mkMgr AtSecondSelect w ss (S n)) (LToken (authToken w))
            (mkMgr AtFirstSelect (emit (EvTokenRead (authToken w)) w) ss n)
  | step_second_park w :
      mstep c fuel (mkMgr AtSecondSelect w [] 0%nat) LPark (mkMgr Parked w [] 0%nat)
  | step_parked_auth w msg w' :
      doAuthMsg c fuel msg (emit (EvAuthMsg msg) w) = Some w' ->
      mstep c fuel (mkMgr Parked w [] 0%nat) (LAuth msg)
            (mkMgr AtFirstSelect w' [] 0%nat)
  | step_parked_token w :
      mstep c fuel (mkMgr Parked w [] 0%nat) (LToken (authToken w))
            (mkMgr AtFirstSelect (emit (EvTokenRead (authToken w)) w) [] 0%nat).

(** Executions: sequences of steps with their labels. *)
Inductive msteps (c : Client) (fuel : nat) : Mgr -> list Label -> Mgr -> Prop :=
  | msteps_nil m : msteps c fuel m [] m
  | msteps_cons m1 l m2 ls m3 :
      mstep c fuel m1 l m2 -> msteps c fuel m2 ls m3 ->
      msteps c fuel m1 (l :: ls) m3.

(** The worker as [NewClient] starts it. *)
Definition mgr0 : Mgr := mkMgr AtFirstSelect world0 [] 0%nat.

(** ** Observations on traces *)

(** The requests [httpDo] was entered with, in order. *)
Definition requestsIssued (tr : list Event) : list Request :=
  flat_map (fun ev => match ev with EvHttpDo r => [r] | _ => [] end) tr.


(** The messages the coordinator received. *)
Definition authMsgs (tr : list Event) : list authMessage :=
  flat_map (fun ev => match ev with EvAuthMsg m => [m] | _ => [] end) tr.


(** The retry policy in the specification's words: after an attempt
    that failed at the transport level, and while the time elapsed since
    the first attempt began is below the timeout, sleep for the interval
    less the time the attempt took, and try again; any other result, or
    a transport error once the timeout has elapsed, ends the call with
    that result.  [retrySchedule c req tok start t n evs res]: from time
    [t], after [n] earlier calls of the transport, the call leaves the
    events [evs] and returns [res]. *)
Inductive retrySchedule (c : Client) (req : Request) (tok : string) (start : Z)
  : Z -> nat -> list Event -> result Response -> Prop :=
  | rs_last t n :
      let dur := Z.max 0 (fst (Do (httpClient c) n req)) in
      let res := snd (Do (httpClient c) n req) in
      isNetError res = false \/ retryTimeout c <= t + dur - start ->
      retrySchedule c req tok start t n [EvDo req tok t dur res] res
  | rs_retry t n evs final :
      let dur := Z.max 0 (fst (Do (httpClient c) n req)) in
      let res := snd (Do (httpClient c) n req) in
      isNetError res = true ->
      t + dur - start < retryTimeout c ->
      retrySchedule c req tok start
        (t + dur + Z.max 0 (retryInterval c - dur)) (S n) evs final ->
      retrySchedule c req tok start t n
        (EvDo req tok t dur res :: EvSleep (retryInterval c - dur) :: evs) final.

(** ** Gateways used in examples *)

Definition jsonResponse (status : Z) (body : string) : result Response :=
  Ok (mkResponse status "application/json" (Ok body)).

Definition isLoginRequest (r : Request) : bool :=
  String.eqb (Path (ReqURL r)) "api/login/Basic".

Definition carries (r : Request) (tok : string) : bool :=
  match Cookies r with
  | [k] => String.eqb (CookieName k) "AuthCookie" && String.eqb (CookieValue k) tok
  | _ => false
  end.

(** A gateway that answers every request, logins too, with 401. *)
Definition gateway401 : HttpClient :=
  mkHttpClient
    (fun _ _ => (5, jsonResponse 401 (sq "{'code':401,'error':'bad credentials','message':'Login Error'}")))
    (fun _ _ => None).

(** A gateway whose login answers with a token next to a field of the
    wrong type, and which serves the holder of that token. *)
Definition gatewayToken : HttpClient :=
  mkHttpClient
    (fun _ r =>
       (5, if isLoginRequest r then jsonResponse 200 (sq "{'roles':5,'token':'abc'}")
           else if carries r "abc" then jsonResponse 200 "{}"
           else jsonResponse 401 "{}"))
    (fun _ _ => None).


(** A gateway that accepts logins and rejects every other request. *)
Definition gatewayForbidden : HttpClient :=
  mkHttpClient
    (fun _ r =>
       (5, if isLoginRequest r then jsonResponse 200 (sq "{'token':'abc'}")
           else jsonResponse 403 (sq "{'error':'forbidden','message':'no'}")))
    (fun _ _ => None).

(** A network on which every attempt fails after 5 ns, and one on which
    the first two attempts fail after 3 ns. *)
Definition networkDown : HttpClient :=
  mkHttpClient (fun _ _ => (5, Err (TransportError true "i/o timeout")))
               (fun _ _ => None).


Definition clientOf (h : HttpClient) (interval timeout : Z) : Client :=
  mkClient "powerwall" "user@example.com" "secret" h interval timeout.

Definition statusRequest : Request :=
  mkRequest "GET" (mkURL "https" "powerwall" "api/status") None [] None.



(** The events of the login call of [performLogin]: requests without
    cookie to the login path, sleeps between attempts, and the
    diagnostic callback. *)
Definition loginCallEvent (ev : Event) : Prop :=
  match ev with
  | EvHttpDo r | EvDo r _ _ _ _ =>
    Cookies r = [] /\ Path (ReqURL r) = "api/login/Basic"
  | EvSleep _ | EvErrFunc _ _ _ => True
  | _ => False
  end.

(** The request [doHttpRequest] builds before any cookie is added. *)
Definition newRequest (c : Client) (api method : string)
  (payload : option string) (contentType : string) : Request :=
  let url := mkURL "https" (gatewayAddress c) ("api/" ++ api) in
  match payload with
  | None => mkRequest method url None [] None
  | Some p => mkRequest method url (Some contentType) [] (Some p)
  end.

(** The request of the first attempt, and the request of the retry
    after a re-login, for a call outside the login paths. *)
Definition firstRequest (c : Client) (api method : string)
  (payload : option string) (contentType : string) (tok : string) : Request :=
  if negb (String.eqb tok EmptyString)
  then addCookie (mkCookie "AuthCookie" tok)
                 (newRequest c api method payload contentType)
  else newRequest c api method payload contentType.

Definition retryRequest (c : Client) (api method : string)
  (payload : option string) (contentType : string) (tok : string) : Request :=
  addCookie (mkCookie "AuthCookie" tok)
            (newRequest c api method payload contentType).

(** The steps of the worker's environment. *)
Definition isArrival (l : Label) : Prop :=
  match l with
  | LArriveSend _ | LArriveRecv => True
  | _ => False
  end.

(** ** More of auth.go and client.go *)

(** The request of the login call: [apiPostJson] on [login/Basic] with
    the client's credentials as a [loginData], user name [customer]. *)
Definition loginRequest (c : Client) : Request :=
  newRequest c "login/Basic" "POST"
    (Some (json_Marshal_loginData
             (mkLoginData "customer" (gatewayLoginEmail c)
                          (gatewayLoginPassword c) false)))
    "application/json".

(** The message [SetAuthToken] sends.  Its [result_ch] is left at the
    zero value (a nil channel) and [cmd_SET_TOKEN] never uses it; the
    name [0] stands for it here. *)
Definition setTokenMessage (token : string) : authMessage :=
  mkAuthMessage cmd_SET_TOKEN EmptyString EmptyString token 0.

(** ** Other goroutines

    A [Client] is shared.  Any goroutine that holds it may call
    [DoLogin], [SetAuthToken] or one of the API functions, which begin
    with [checkLogin]; each of these sends one message on [auth_ch], and
    the worker handles the messages it receives one at a time.  So
    between two exchanges of one caller with the worker, the worker may
    have handled messages of other goroutines. *)
Inductive otherCall :=
  | OtherDoLogin
  | OtherCheckLogin
  | OtherSetAuthToken (token : string).

(** The message such a call sends, with the reply channel it makes. *)
Definition otherMessage (c : Client) (o : otherCall) (w : World)
  : authMessage * World :=
  match o with
  | OtherDoLogin =>
    let '(ch, w0) := makeChan w in
    (mkAuthMessage cmd_DO_LOGIN (gatewayLoginEmail c) (gatewayLoginPassword c)
                   EmptyString ch, w0)
  | OtherCheckLogin =>
    let '(ch, w0) := makeChan w in
    (mkAuthMessage cmd_CHECK_LOGIN (gatewayLoginEmail c) (gatewayLoginPassword c)
                   EmptyString ch, w0)
  | OtherSetAuthToken t => (setTokenMessage t, w)
  end.

(** What the handling of another goroutine's message leaves to the
    caller under study: the clock, the number of transport calls, the
    coordinator's token and the channels made are shared; the record of
    events stays the caller's own. *)
Definition behind (w w1 : World) : World :=
  mkWorld (now w1) (calls w1) (authToken w1) (chans w1) (trace w).

(** The worker handles the messages of the calls [os] of other
    goroutines, in order; [None] when one of them does not return. *)
Fixpoint handleOthers (c : Client) (fuel : nat) (os : list otherCall)
  (w : World) : option World :=
  match os with
  | [] => Some w
  | o :: rest =>
    let '(msg, w0) := otherMessage c o w in
    match doAuthMsg c fuel msg w0 with
    | None => None
    | Some w1 => handleOthers c fuel rest (behind w w1)
    end
  end.

Section Shared.

Variable c : Client.
Variable fuel : nat.

(** The calls of other goroutines whose messages the worker handles
    before it turns to the next exchange of the caller under study,
    given the caller's run so far. *)
Variable others : World -> list otherCall.

(** [GetAuthToken], [DoLogin] and [checkLogin] on a shared client. *)
Definition Shared_GetAuthToken (w : World) : option (string * World) :=
  match handleOthers c fuel (others w) w with
  | None => None
  | Some w1 => GetAuthToken w1
  end.

Definition Shared_roundTrip (msg : authMessage) (w : World)
  : option (option error * World) :=
  match handleOthers c fuel (others w) w with
  | None => None
  | Some w1 => roundTrip c fuel msg w1
  end.

Definition Shared_DoLogin (w : World) : option (option error * World) :=
  let '(ch, w0) := makeChan w in
  Shared_roundTrip
    (mkAuthMessage cmd_DO_LOGIN (gatewayLoginEmail c) (gatewayLoginPassword c)
                   EmptyString ch) w0.


(** [doHttpRequest] and [apiGetJson] called on a shared client. *)
Definition Shared_doHttpRequest :=
  doHttpRequest c fuel Shared_GetAuthToken Shared_DoLogin.


End Shared.

(** No other goroutine; and other goroutines whose calls [os] reach the
    worker right after it has replied to a successful login of the
    caller. *)
Definition alone : World -> list otherCall := fun _ => [].




(** Every byte of [s] is an ASCII byte (below 0x80). *)
Fixpoint isASCII (s : string) : bool :=
  match s with
  | EmptyString => true
  | String c r => (code c <? 128) && isASCII r
  end.

(** ** A caller of [checkLogin] and [apiGetJson]: [GetSitemaster] *)







(** * Properties *)

(** ** JSON decoding *)

Lemma firstErr_Some_l (e : error) (b : option error) :
  firstErr (Some e) b = Some e.
Proof. reflexivity. Qed.

Lemma firstErr_is_Some_r (a : option error) (e : error) :
  exists e', firstErr a (Some e) = Some e'.
Proof. destruct a as [x|]; simpl; eauto. Qed.

(** A JSON value that is neither a string nor [null] does not fit a Go
    [string]. *)
Lemma storeString_type_error (j : json) (cur : string) :
  (forall s, j <> JString s) -> j <> JNull ->
  storeString j cur = (cur, Some (UnmarshalTypeError (kindName j) "string")).
Proof.
  intros Hs Hn. destruct j; simpl; try reflexivity.
  - congruence.
  - exfalso. eapply Hs. reflexivity.
Qed.

(** An array element that is neither an object nor [null] does not fit
    an [entry]. *)
Lemma storeEntry_type_error (j : json) :
  (forall ms, j <> JObject ms) -> j <> JNull ->
  snd (storeEntry j) = Some (UnmarshalTypeError (kindName j) "entry").
Proof.
  intros Ho Hn. destruct j; simpl; try reflexivity.
  - congruence.
  - exfalso. eapply Ho. reflexivity.
Qed.

Lemma storeEntries_error (l : list json) (x : json) :
  In x l -> (forall ms, x <> JObject ms) -> x <> JNull ->
  exists e, snd (storeEntries l) = Some e.
Proof.
  induction l as [|y r IH]; intros Hin Ho Hn; [destruct Hin|].
  simpl. destruct (storeEntry y) as [e1 err1] eqn:E1.
  destruct (storeEntries r) as [es err2] eqn:E2. simpl.
  destruct Hin as [->|Hin].
  - pose proof (storeEntry_type_error x Ho Hn) as H. rewrite E1 in H.
    simpl in H. subst err1. eauto.
  - destruct (IH Hin Ho Hn) as [e He]. simpl in He. subst err2.
    apply firstErr_is_Some_r.
Qed.

(** [encoding/json] never puts an [int] or a [[]byte] into an empty
    interface: numbers arrive as [float64]. *)
Lemma valueInterface_dynamic_type (j : json) :
  match fst (valueInterface j) with
  | VInt _ | VBytes _ => False
  | _ => True
  end.
Proof.
  destruct j; simpl; auto.
  - destruct (strconv_ParseFloat lit); exact I.
  - match goal with |- context [let '(_, _) := ?t in _] => destruct t end.
    exact I.
  - match goal with |- context [let '(_, _) := ?t in _] => destruct t end.
    exact I.
Qed.

Lemma storeInterface_dynamic_type (j : json) :
  match fst (storeInterface j VNil) with
  | VInt _ | VBytes _ => False
  | _ => True
  end.
Proof.
  destruct j; try apply (valueInterface_dynamic_type _).
  simpl. destruct (strconv_ParseFloat lit); exact I.
Qed.

(** ** DecodedAlert *)

Section DecodedAlertProps.

Variable fmt_q : string -> string.
Variable v : option (gmap string string).

Lemma DecodedAlert_outer_error (data : string) (e : error) (s : string) :
  json_Unmarshal_string data EmptyString = (s, Some e) ->
  exists e', DecodedAlert_UnmarshalJSON fmt_q v data = (v, Some e').
Proof.
  intros H. unfold DecodedAlert_UnmarshalJSON. rewrite H. eauto.
Qed.

Lemma DecodedAlert_outer_syntax (data : string) :
  parseJSON data = None ->
  exists e, DecodedAlert_UnmarshalJSON fmt_q v data = (v, Some e).
Proof.
  intros H. eapply DecodedAlert_outer_error.
  unfold json_Unmarshal_string. rewrite H. reflexivity.
Qed.

Lemma DecodedAlert_outer_type (data : string) (j : json) :
  parseJSON data = Some j ->
  (forall s, j <> JString s) -> j <> JNull ->
  exists e, DecodedAlert_UnmarshalJSON fmt_q v data = (v, Some e).
Proof.
  intros H Hs Hn. eapply DecodedAlert_outer_error.
  unfold json_Unmarshal_string. rewrite H.
  apply storeString_type_error; assumption.
Qed.

Lemma DecodedAlert_inner (data s : string) :
  parseJSON data = Some (JString s) ->
  s <> EmptyString ->
  DecodedAlert_UnmarshalJSON fmt_q v data =
  match json_Unmarshal_entries s (Some []) with
  | (_, Some e) =>
      (v, Some (Errorf_w ("error unmarshalling grid alert " ++ s ++ ": ") e))
  | (entries, None) =>
      (Some (fold_left (alertEntry fmt_q) (default [] entries) ∅), None)
  end.
Proof.
  intros H Hne. unfold DecodedAlert_UnmarshalJSON, json_Unmarshal_string.
  rewrite H. simpl.
  destruct (String.eqb s EmptyString) eqn:E.
  - apply String.eqb_eq in E. contradiction.
  - destruct (json_Unmarshal_entries s (Some [])) as [es [e|]]; reflexivity.
Qed.

Lemma DecodedAlert_inner_error (data s : string) (es : option (list entry))
      (e : error) :
  parseJSON data = Some (JString s) ->
  s <> EmptyString ->
  json_Unmarshal_entries s (Some []) = (es, Some e) ->
  exists e', DecodedAlert_UnmarshalJSON fmt_q v data = (v, Some e').
Proof.
  intros H Hne He. rewrite (DecodedAlert_inner data s H Hne), He. eauto.
Qed.

End DecodedAlertProps.

(** C5, as stated, fails: the JSON text [null] is valid JSON and not a
    JSON string, and a JSON string whose contents are [null] does not
    hold an array of entries, yet neither is an error. *)
Lemma C5_null_is_accepted :
  parseJSON "null" = Some JNull /\
  DecodedAlert_UnmarshalJSON (fun b => b) None "null" = (None, None) /\
  parseJSON (sq "'null'") = Some (JString "null") /\
  snd (DecodedAlert_UnmarshalJSON (fun b => b) None (sq "'null'")) = None.
Proof. vm_compute. repeat split; reflexivity. Qed.

(** C5 (amended).  [DecodedAlert.UnmarshalJSON] on the JSON string with
    empty contents returns no error and leaves the map as it was; on
    input that is not valid JSON, or is valid JSON that is neither a JSON
    string nor [null] (a bare array, for one), it returns an error and
    leaves the map as it was; so it does on a JSON string whose non-empty
    contents are not valid JSON, are valid JSON other than an array or
    [null], or are an array with an element that is neither an object
    nor [null]. *)
Theorem C5_decoded_alert_errors (fmt_q : string -> string)
        (v : option (gmap string string)) :
  DecodedAlert_UnmarshalJSON fmt_q v (sq "''") = (v, None) /\
  (forall data, parseJSON data = None ->
     exists e, DecodedAlert_UnmarshalJSON fmt_q v data = (v, Some e)) /\
  (forall data j, parseJSON data = Some j ->
     (forall s, j <> JString s) -> j <> JNull ->
     exists e, DecodedAlert_UnmarshalJSON fmt_q v data = (v, Some e)) /\
  (exists e, DecodedAlert_UnmarshalJSON fmt_q v
               (sq "[{'name':'PINV_alertID','value':'Non-nested JSON'}]")
             = (v, Some e)) /\
  (forall data s, parseJSON data = Some (JString s) -> s <> EmptyString ->
     parseJSON s = None ->
     exists e, DecodedAlert_UnmarshalJSON fmt_q v data = (v, Some e)) /\
  (forall data s j, parseJSON data = Some (JString s) -> s <> EmptyString ->
     parseJSON s = Some j -> (forall l, j <> JArray l) -> j <> JNull ->
     exists e, DecodedAlert_UnmarshalJSON fmt_q v data = (v, Some e)) /\
  (forall data s l x, parseJSON data = Some (JString s) -> s <> EmptyString ->
     parseJSON s = Some (JArray l) ->
     In x l -> (forall ms, x <> JObject ms) -> x <> JNull ->
     exists e, DecodedAlert_UnmarshalJSON fmt_q v data = (v, Some e)).
Proof.
  split; [reflexivity|].
  split; [apply DecodedAlert_outer_syntax|].
  split; [apply DecodedAlert_outer_type|].
  split.
  { eapply DecodedAlert_outer_type with (j := JArray _).
    - vm_compute. reflexivity.
    - discriminate.
    - discriminate. }
  split.
  { intros data s H Hne Hs.
    eapply DecodedAlert_inner_error; eauto.
    unfold json_Unmarshal_entries. rewrite Hs. reflexivity. }
  split.
  { intros data s j H Hne Hs Ha Hn.
    eapply DecodedAlert_inner_error; eauto.
    unfold json_Unmarshal_entries. rewrite Hs.
    destruct j; try reflexivity.
    - congruence.
    - exfalso. eapply Ha. reflexivity. }
  intros data s l x H Hne Hs Hin Ho Hn.
  destruct (storeEntries_error l x Hin Ho Hn) as [e He].
  destruct (storeEntries l) as [es err] eqn:E. simpl in He. subst err.
  eapply DecodedAlert_inner_error; eauto.
  unfold json_Unmarshal_entries. rewrite Hs, E. reflexivity.
Qed.

(** The test suite's bare array, and a string holding an array of
    numbers, are rejected. *)
Lemma C5_decoded_alert_errors_witness :
  (exists e, DecodedAlert_UnmarshalJSON (fun b => b) None (sq "[1]")
             = (None, Some e)) /\
  (exists e, DecodedAlert_UnmarshalJSON (fun b => b) None (sq "'[1]'")
             = (None, Some e)).
Proof.
  pose proof (C5_decoded_alert_errors (fun b => b) None)
    as (_ & _ & Houter & _ & _ & _ & Helem).
  split.
  - apply (Houter (sq "[1]") (JArray [JNumber "1"])).
    + vm_compute; reflexivity.
    + discriminate.
    + discriminate.
  - apply (Helem (sq "'[1]'") "[1]" [JNumber "1"] (JNumber "1")).
    + vm_compute; reflexivity.
    + discriminate.
    + vm_compute; reflexivity.
    + left; reflexivity.
    + discriminate.
    + discriminate.
Defined.

(** The text of an entry in the map: its value, and its units after one
    space when both are non-empty strings. *)
Lemma alertEntry_lookup (fmt_q : string -> string) (m : gmap string string)
      (e : entry) :
  alertEntry fmt_q m e !! Name e =
  Some (match Units e with
        | VString u =>
          if negb (String.eqb (valueText fmt_q e) EmptyString) &&
             negb (String.eqb u EmptyString)
          then (valueText fmt_q e ++ " " ++ u)%string
          else valueText fmt_q e
        | _ => valueText fmt_q e
        end).
Proof.
  unfold alertEntry, mapGet. rewrite lookup_insert_eq. simpl.
  destruct (Units e); try apply lookup_insert_eq.
  destruct (negb (String.eqb (valueText fmt_q e) EmptyString) &&
            negb (String.eqb s EmptyString)); apply lookup_insert_eq.
Qed.

Lemma alertEntry_with_units (fmt_q : string -> string) (m : gmap string string)
      (e : entry) (u : string) :
  Units e = VString u -> u <> EmptyString ->
  valueText fmt_q e <> EmptyString ->
  alertEntry fmt_q m e !! Name e = Some (valueText fmt_q e ++ " " ++ u)%string.
Proof.
  intros HU Hu Hv. rewrite alertEntry_lookup, HU.
  apply String.eqb_neq in Hu, Hv. rewrite Hu, Hv. reflexivity.
Qed.

(** The entry of the specification's example. *)
Example decoded_alert_184_Vrms (fmt_q : string -> string) :
  fst (DecodedAlert_UnmarshalJSON fmt_q None
         (json_Marshal_string
            (sq "[{'name':'PINV_a021_ov_amplitude1','value':184,'units':'Vrms'}]")))
  = Some {[ "PINV_a021_ov_amplitude1" := "184 Vrms" ]}.
Proof. vm_compute. reflexivity. Qed.

(** C6.  The code at an integer beyond 2^53: the value 9007199254740993
    is rendered as 9007199254740992.  The branch that renders an [int]
    with [strconv.Itoa] is never taken, because [encoding/json] hands
    every number over as a [float64]. *)
Theorem C6_integer_rendered_through_float64 (fmt_q : string -> string) :
  fst (DecodedAlert_UnmarshalJSON fmt_q None
         (json_Marshal_string
            (sq "[{'name':'n','value':9007199254740993,'units':'Vrms'}]")))
  = Some {[ "n" := "9007199254740992 Vrms" ]}.
Proof. vm_compute. reflexivity. Qed.

(** ** NonIsoTime *)

Lemma mSeq_app (a b : list matcher) (s : string) :
  mSeq (a ++ b) s = match mSeq a s with Some r => mSeq b r | None => None end.
Proof.
  revert s. induction a as [|m a IH]; intros s; simpl; [reflexivity|].
  destruct (m s); [apply IH | reflexivity].
Qed.

Lemma getnum_fixed_shape (s : string) (n : Z) (r : string) :
  getnum s true = Some (n, r) -> mSeq [mDigit; mDigit] s = Some r.
Proof.
  unfold getnum, mSeq, mDigit. destruct s as [|a [|b r']]; try discriminate.
  - destruct (isDigit a); discriminate.
  - destruct (isDigit a); [|discriminate].
    destruct (isDigit b); [|discriminate].
    intros H; injection H as _ <-. reflexivity.
Qed.

Lemma getnum_free_shape (s : string) (n : Z) (r : string) :
  getnum s false = Some (n, r) -> mSeq [mDigit; mOptDigit] s = Some r.
Proof.
  unfold getnum, mSeq, mDigit, mOptDigit.
  destruct s as [|a [|b r']]; try discriminate.
  - destruct (isDigit a); [|discriminate].
    intros H; injection H as _ <-. reflexivity.
  - destruct (isDigit a); [|discriminate].
    destruct (isDigit b); intros H; injection H as _ <-; reflexivity.
Qed.

Lemma getnum_not_empty (fixed : bool) : getnum EmptyString fixed = None.
Proof. reflexivity. Qed.

Lemma allDigits_4 (a b c d : ascii) :
  allDigits (String a (String b (String c (String d EmptyString)))) = true ->
  isDigit a = true /\ isDigit b = true /\ isDigit c = true /\ isDigit d = true.
Proof.
  unfold allDigits. simpl.
  destruct (isDigit a); [|discriminate]. simpl.
  destruct (isDigit b); [|discriminate]. simpl.
  destruct (isDigit c); [|discriminate]. simpl.
  destruct (isDigit d); [|discriminate]. auto.
Qed.

(** What each layout element takes from the value. *)
Definition stdShape (s : std) : list matcher :=
  match s with
  | stdLongYear => [mDigit; mDigit; mDigit; mDigit]
  | stdZeroMonth | stdZeroDay | stdZeroMinute => [mDigit; mDigit]
  | stdHour => [mDigit; mOptDigit]
  | stdZeroSecond => [mDigit; mDigit; mOptFraction]
  | stdNumTZ => [mSign; mDigit; mDigit; mDigit; mDigit]
  end.

Lemma parseStd_shape (s : std) (value : string) (f f' : fields) (rest : string) :
  parseStd s value f = Ok (f', rest) -> mSeq (stdShape s) value = Some rest.
Proof.
  destruct s; unfold parseStd, stdShape.
  - (* year *)
    destruct value as [|a r0]; [discriminate|].
    destruct ((4 <=? Z.of_nat (String.length (String a r0))) && isDigit a)
      eqn:E; [|discriminate].
    apply andb_prop in E as [El Ea].
    destruct r0 as [|b [|c [|d r]]]; try (simpl in El; discriminate).
    replace (substring 0 4 (String a (String b (String c (String d r)))))
      with (String a (String b (String c (String d EmptyString))))
      by (simpl; destruct r; reflexivity).
    destruct (allDigits _) eqn:Ed; [|discriminate].
    apply allDigits_4 in Ed as (_ & Eb & Ec & Edd).
    unfold mSeq, mDigit. rewrite Ea, Eb, Ec, Edd.
    intros H; injection H as _ <-. reflexivity.
  - destruct (getnum value true) as [[n r]|] eqn:E; [|discriminate].
    destruct ((n <=? 0) || (12 <? n)); [discriminate|].
    intros H; injection H as _ <-. eapply getnum_fixed_shape; eauto.
  - destruct (getnum value true) as [[n r]|] eqn:E; [|discriminate].
    intros H; injection H as _ <-. eapply getnum_fixed_shape; eauto.
  - destruct (getnum value false) as [[n r]|] eqn:E; [|discriminate].
    destruct ((n <? 0) || (24 <=? n)); [discriminate|].
    intros H; injection H as _ <-. eapply getnum_free_shape; eauto.
  - destruct (getnum value true) as [[n r]|] eqn:E; [|discriminate].
    destruct ((n <? 0) || (60 <=? n)); [discriminate|].
    intros H; injection H as _ <-. eapply getnum_fixed_shape; eauto.
  - destruct (getnum value true) as [[n r]|] eqn:E; [|discriminate].
    destruct ((n <? 0) || (60 <=? n)); [discriminate|].
    apply getnum_fixed_shape in E.
    change [mDigit; mDigit; mOptFraction] with ([mDigit; mDigit] ++ [mOptFraction])%list.
    rewrite mSeq_app, E. unfold mSeq, mOptFraction.
    destruct r as [|p [|d r']].
    + intros H; injection H as _ <-. reflexivity.
    + intros H; injection H as _ <-. reflexivity.
    + destruct (commaOrPeriod p && isDigit d) eqn:Ec.
      * destruct (spanDigits (String d r')) as [ds rest'] eqn:Es.
        intros H; injection H as _ <-. reflexivity.
      * intros H; injection H as _ <-. reflexivity.
  - destruct value as [|sg [|h1 [|h2 [|m1 [|m2 r]]]]]; try discriminate.
    destruct (getnum (String h1 (str1 h2)) true) as [[hr ?]|] eqn:Eh;
      [|discriminate].
    destruct (getnum (String m1 (str1 m2)) true) as [[mm ?]|] eqn:Em;
      [|discriminate].
    unfold getnum, str1 in Eh, Em.
    destruct (isDigit h1) eqn:E1; [|discriminate].
    destruct (isDigit h2) eqn:E2; [|discriminate].
    destruct (isDigit m1) eqn:E3; [|discriminate].
    destruct (isDigit m2) eqn:E4; [|discriminate].
    destruct (60 <? mm); [discriminate|].
    destruct (24 <? hr); [discriminate|].
    destruct (Ascii.eqb sg "+") eqn:Ep.
    + intros H; injection H as _ <-.
      cbn [mSeq]. unfold mSign. rewrite Ep. cbn [orb]. unfold mDigit.
      rewrite E1, E2, E3, E4. reflexivity.
    + destruct (Ascii.eqb sg "-") eqn:En; [|discriminate].
      intros H; injection H as _ <-.
      cbn [mSeq]. unfold mSign. rewrite Ep, En. cbn [orb]. unfold mDigit.
      rewrite E1, E2, E3, E4. reflexivity.
Qed.

Lemma parseStd_not_empty (s : std) (f : fields) :
  isErr (parseStd s EmptyString f) = true.
Proof. destruct s; reflexivity. Qed.

Lemma skip_char (fuel : nat) (value : string) (c : ascii) (rest : string) :
  Ascii.eqb c " " = false ->
  skip (S fuel) value (str1 c) = Some rest ->
  mChar c value = Some rest.
Proof.
  intros Hc. simpl. rewrite Hc. destruct value as [|v vr]; [discriminate|].
  simpl. destruct (Ascii.eqb v c); [|discriminate].
  destruct fuel; simpl; [discriminate|]. auto.
Qed.

Lemma skip_space (value rest : string) :
  skip 2 value " " = Some rest ->
  (value = EmptyString /\ rest = EmptyString) \/ mSpaces value = Some rest.
Proof.
  simpl. destruct value as [|v vr]; simpl.
  - intros H; injection H as <-. left; auto.
  - destruct (Ascii.eqb v " ") eqn:E; [|discriminate].
    apply Ascii.eqb_eq in E. subst v. simpl. intros H; injection H as <-.
    right. reflexivity.
Qed.

Lemma parseLoop_S (fuel : nat) (layout value : string) (f : fields) :
  parseLoop (S fuel) layout value f =
  let '(prefix, s, suffix) := nextStdChunk layout in
  match skip (S (String.length prefix)) value prefix with
  | None => Err (TimeParseError "cannot parse")
  | Some value1 =>
    match s with
    | None =>
      match value1 with
      | EmptyString => Ok f
      | _ => Err (TimeParseError "extra text")
      end
    | Some st =>
      match parseStd st value1 f with
      | Ok (f', value2) => parseLoop fuel suffix value2 f'
      | Err e => Err e
      end
    end
  end.
Proof. reflexivity. Qed.

Lemma parseLoop_step_plain (fuel : nat) (layout suffix value : string)
      (st : std) (f fr : fields) :
  nextStdChunk layout = (EmptyString, Some st, suffix) ->
  parseLoop (S fuel) layout value f = Ok fr ->
  exists f' v2, mSeq (stdShape st) value = Some v2 /\
                parseLoop fuel suffix v2 f' = Ok fr.
Proof.
  intros Hc. rewrite parseLoop_S, Hc. simpl.
  destruct (parseStd st value f) as [[f' v2]|e] eqn:E; [|discriminate].
  intros H. exists f', v2. split; [eapply parseStd_shape; eauto | exact H].
Qed.

Lemma parseLoop_step_char (fuel : nat) (layout suffix value : string)
      (c : ascii) (st : std) (f fr : fields) :
  nextStdChunk layout = (str1 c, Some st, suffix) ->
  Ascii.eqb c " " = false ->
  parseLoop (S fuel) layout value f = Ok fr ->
  exists f' v2, mSeq (mChar c :: stdShape st) value = Some v2 /\
                parseLoop fuel suffix v2 f' = Ok fr.
Proof.
  intros Hc Hsp. rewrite parseLoop_S, Hc.
  cbv beta iota zeta.
  destruct (skip _ value (str1 c)) as [v1|] eqn:Es; [|discriminate].
  apply skip_char in Es; [|exact Hsp].
  destruct (parseStd st v1 f) as [[f' v2]|e] eqn:E; [|discriminate].
  intros H. exists f', v2. split; [|exact H].
  cbn [mSeq]. rewrite Es. eapply parseStd_shape; eauto.
Qed.

Lemma parseLoop_step_space (fuel : nat) (layout suffix value : string)
      (st : std) (f fr : fields) :
  nextStdChunk layout = (" ", Some st, suffix) ->
  parseLoop (S fuel) layout value f = Ok fr ->
  exists f' v2, mSeq (mSpaces :: stdShape st) value = Some v2 /\
                parseLoop fuel suffix v2 f' = Ok fr.
Proof.
  intros Hc. rewrite parseLoop_S, Hc.
  cbv beta iota zeta.
  change (S (String.length " ")) with 2%nat.
  destruct (skip 2 value " ") as [v1|] eqn:Es; [|discriminate].
  destruct (parseStd st v1 f) as [[f' v2]|e] eqn:E; [|discriminate].
  intros H. exists f', v2. split; [|exact H].
  apply skip_space in Es as [[-> ->]|Es].
  - pose proof (parseStd_not_empty st f) as Hn. rewrite E in Hn. discriminate.
  - cbn [mSeq]. rewrite Es. eapply parseStd_shape; eauto.
Qed.

Lemma parseLoop_end (fuel : nat) (value : string) (f fr : fields) :
  parseLoop (S fuel) EmptyString value f = Ok fr -> value = EmptyString.
Proof.
  rewrite parseLoop_S. simpl. destruct value; [reflexivity | discriminate].
Qed.

(** Every value [time.Parse] accepts for the layout of [NonIsoTime] has
    the lenient shape. *)
Lemma time_Parse_nonIso_shape (value : string) (t : Time) :
  time_Parse nonIsoTimeFormat value = Ok t -> lenientLayout value = true.
Proof.
  unfold time_Parse.
  destruct (parseLoop _ nonIsoTimeFormat value fields0) as [fr|e] eqn:E;
    [|discriminate].
  intros _. revert E.
  change (S (String.length nonIsoTimeFormat)) with 26%nat.
  intros E.
  apply parseLoop_step_plain with (st := stdLongYear)
    (suffix := "-01-02 15:04:05 -0700") in E as (f1 & v1 & M1 & E);
    [|reflexivity].
  apply parseLoop_step_char with (c := "-"%char) (st := stdZeroMonth)
    (suffix := "-02 15:04:05 -0700") in E as (f2 & v2 & M2 & E);
    [|reflexivity|reflexivity].
  apply parseLoop_step_char with (c := "-"%char) (st := stdZeroDay)
    (suffix := " 15:04:05 -0700") in E as (f3 & v3 & M3 & E);
    [|reflexivity|reflexivity].
  apply parseLoop_step_space with (st := stdHour)
    (suffix := ":04:05 -0700") in E as (f4 & v4 & M4 & E);
    [|reflexivity].
  apply parseLoop_step_char with (c := ":"%char) (st := stdZeroMinute)
    (suffix := ":05 -0700") in E as (f5 & v5 & M5 & E);
    [|reflexivity|reflexivity].
  apply parseLoop_step_char with (c := ":"%char) (st := stdZeroSecond)
    (suffix := " -0700") in E as (f6 & v6 & M6 & E);
    [|reflexivity|reflexivity].
  apply parseLoop_step_space with (st := stdNumTZ)
    (suffix := EmptyString) in E as (f7 & v7 & M7 & E);
    [|reflexivity].
  apply parseLoop_end in E. subst v7.
  unfold lenientLayout, matches.
  change [mDigit; mDigit; mDigit; mDigit; mChar "-"; mDigit; mDigit;
          mChar "-"; mDigit; mDigit; mSpaces;
          mDigit; mOptDigit; mChar ":"; mDigit; mDigit; mChar ":";
          mDigit; mDigit; mOptFraction; mSpaces;
          mSign; mDigit; mDigit; mDigit; mDigit]
    with (stdShape stdLongYear ++ (mChar "-" :: stdShape stdZeroMonth) ++
          (mChar "-" :: stdShape stdZeroDay) ++ (mSpaces :: stdShape stdHour) ++
          (mChar ":" :: stdShape stdZeroMinute) ++
          (mChar ":" :: stdShape stdZeroSecond) ++
          (mSpaces :: stdShape stdNumTZ))%list.
  rewrite mSeq_app, M1, mSeq_app, M2, mSeq_app, M3, mSeq_app, M4,
    mSeq_app, M5, mSeq_app, M6, M7. reflexivity.
Qed.

(** C8, as stated, fails: a value with a fractional second does not
    have the shape YYYY-MM-DD HH:MM:SS and zone, and neither does one
    with a one-digit hour, yet both are parsed without error. *)
Lemma C8_other_shapes_accepted :
  strictLayout "2023-01-02 03:04:05.5 -0700" = false /\
  NonIsoTime_UnmarshalJSON (sq "'2023-01-02 03:04:05.5 -0700'")
    = Ok (mkTime 1672653845 500000000 (-25200)) /\
  strictLayout "2023-01-02 3:04:05 -0700" = false /\
  NonIsoTime_UnmarshalJSON (sq "'2023-01-02 3:04:05 -0700'")
    = Ok (mkTime 1672653845 0 (-25200)).
Proof. vm_compute. repeat split; reflexivity. Qed.

(** C8 (amended).  [NonIsoTime.UnmarshalJSON] on the quoted input
    2023-01-02 03:04:05 -0700 yields the instant 2023-01-02T10:04:05Z
    (1672653845 seconds after the epoch) at offset -07:00; and every
    input that, once all its quote characters are removed, does not
    have the shape YYYY-MM-DD, spaces, H or HH, :MM:SS, an optional
    fraction (period or comma, and digits), spaces, and a signed
    four-digit zone, returns a parse error. *)
Theorem C8_non_iso_time :
  NonIsoTime_UnmarshalJSON (sq "'2023-01-02 03:04:05 -0700'")
    = Ok (mkTime 1672653845 0 (-7 * 3600)) /\
  forall p, lenientLayout (removeQuotes p) = false ->
            exists e, NonIsoTime_UnmarshalJSON p = Err e.
Proof.
  split; [vm_compute; reflexivity|].
  intros p H. unfold NonIsoTime_UnmarshalJSON.
  destruct (time_Parse nonIsoTimeFormat (removeQuotes p)) as [t|e] eqn:E.
  - apply time_Parse_nonIso_shape in E. congruence.
  - eauto.
Qed.

Lemma C8_non_iso_time_witness :
  exists e, NonIsoTime_UnmarshalJSON (sq "'2023-01-02T03:04:05Z'") = Err e.
Proof.
  apply (proj2 C8_non_iso_time). vm_compute. reflexivity.
Defined.

(** ** The request executor *)

Lemma callDo_eq (c : Client) (req : Request) (w : World) :
  callDo c req w =
  (snd (Do (httpClient c) (calls w) req),
   emit (EvDo req (authToken w) (now w)
              (Z.max 0 (fst (Do (httpClient c) (calls w) req)))
              (snd (Do (httpClient c) (calls w) req)))
        (mkWorld (now w + Z.max 0 (fst (Do (httpClient c) (calls w) req)))
                 (S (calls w)) (authToken w) (chans w) (trace w))).
Proof. unfold callDo. destruct (Do (httpClient c) (calls w) req). reflexivity. Qed.

Lemma httpDoLoop_S (c : Client) (fuel : nat) (req : Request) (start : Z)
      (w : World) :
  httpDoLoop c (S fuel) req start w =
  let res := snd (Do (httpClient c) (calls w) req) in
  let w1 := snd (callDo c req w) in
  if negb (isNetError res) then Some (res, w1)
  else if retryTimeout c <=? now w1 - start then Some (res, w1)
  else httpDoLoop c fuel req start
         (sleep (retryInterval c - (now w1 - now w)) w1).
Proof. simpl. rewrite callDo_eq. reflexivity. Qed.

(** [httpDo] follows the retry policy: the events it leaves are a
    schedule of the policy, and it touches neither the coordinator's
    token nor the reply channels. *)
Lemma httpDoLoop_schedule (c : Client) (req : Request) (start : Z) :
  forall (fuel : nat) (w : World) (res : result Response) (w' : World),
    httpDoLoop c fuel req start w = Some (res, w') ->
    exists evs,
      trace w' = (trace w ++ evs)%list /\
      retrySchedule c req (authToken w) start (now w) (calls w) evs res /\
      authToken w' = authToken w /\ chans w' = chans w.
Proof.
  induction fuel as [|fuel IH]; intros w res w' H; [discriminate|].
  rewrite httpDoLoop_S in H. cbv zeta in H. rewrite callDo_eq in H.
  cbn [snd] in H.
  set (dur := Z.max 0 (fst (Do (httpClient c) (calls w) req))) in *.
  set (r1 := snd (Do (httpClient c) (calls w) req)) in *.
  destruct (isNetError r1) eqn:Enet; cbn [negb] in H.
  - cbn [now emit] in H.
    destruct (retryTimeout c <=? now w + dur - start) eqn:Et.
    + injection H as <- <-. eexists. split; [reflexivity|].
      split; [|split; reflexivity].
      apply rs_last. right. apply Z.leb_le in Et. exact Et.
    + apply IH in H as (evs & Htr & Hs & Htok & Hch).
      apply Z.leb_gt in Et.
      cbn [sleep emit trace authToken now calls chans] in *.
      replace (now w + dur - now w) with dur in * by lia.
      eexists. split.
      { rewrite Htr. rewrite <- !app_assoc. reflexivity. }
      split; [|split; assumption].
      apply rs_retry; assumption.
  - injection H as <- <-. eexists. split; [reflexivity|].
    split; [|split; reflexivity].
    apply rs_last. left. exact Enet.
Qed.

Lemma httpDo_schedule (c : Client) (fuel : nat) (req : Request) (w : World)
      (res : result Response) (w' : World) :
  httpDo c fuel req w = Some (res, w') ->
  exists evs,
    trace w' = (trace w ++ EvHttpDo req :: evs)%list /\
    retrySchedule c req (authToken w) (now w) (now w) (calls w) evs res /\
    authToken w' = authToken w /\ chans w' = chans w.
Proof.
  unfold httpDo. intros H.
  apply httpDoLoop_schedule in H as (evs & Htr & Hs & Htok & Hch).
  cbn [emit trace authToken now calls chans] in *.
  exists evs. rewrite Htr, <- app_assoc. auto.
Qed.

(** What a schedule is made of. *)
Lemma retrySchedule_events (c : Client) (req : Request) (tok : string)
      (start t : Z) (n : nat) (evs : list Event) (res : result Response) :
  retrySchedule c req tok start t n evs res ->
  Forall (fun ev => (exists a k r, ev = EvDo req tok a k r) \/
                    (exists d, ev = EvSleep d)) evs.
Proof.
  induction 1.
  - constructor; [left; eauto | constructor].
  - constructor; [left; eauto|]. constructor; [right; eauto | assumption].
Qed.

(** The attempts of a schedule: at least one; the last one gives the
    result; with a transport error as result the timeout has elapsed. *)
Lemma retrySchedule_end (c : Client) (req : Request) (tok : string)
      (start t : Z) (n : nat) (evs : list Event) (res : result Response) :
  retrySchedule c req tok start t n evs res ->
  exists evs0 a k,
    evs = (evs0 ++ [EvDo req tok a k res])%list /\
    t <= a /\ 0 <= k /\
    (isNetError res = true -> retryTimeout c <= a + k - start).
Proof.
  induction 1 as [t n dur res Hend | t n evs final dur res Hnet Hlt Hrec IH].
  - exists [], t, dur. split; [reflexivity|].
    split; [lia|]. split; [subst dur; lia|].
    intros Hn. destruct Hend as [Hf|Hge]; [congruence | exact Hge].
  - destruct IH as (evs0 & a & k & -> & Hle & Hk & Hto).
    exists (EvDo req tok t dur res :: EvSleep (retryInterval c - dur) :: evs0), a, k.
    split; [reflexivity|]. split; [subst dur; lia|]. auto.
Qed.



Lemma httpDoLoop_returns (c : Client) (req : Request) (start : Z) :
  0 < retryInterval c ->
  forall (fuel : nat) (w : World),
    retryTimeout c - (now w - start) <= Z.of_nat fuel * retryInterval c ->
    exists res w', httpDoLoop c (S fuel) req start w = Some (res, w').
Proof.
  intros Hi. induction fuel as [|fuel IH]; intros w HR.
  - rewrite httpDoLoop_S. cbv zeta. rewrite callDo_eq. cbn [snd emit now].
    destruct (negb _); [eauto|].
    destruct (retryTimeout c <=? _) eqn:Et; [eauto|].
    apply Z.leb_gt in Et. lia.
  - rewrite httpDoLoop_S. cbv zeta. rewrite callDo_eq. cbn [snd emit now].
    destruct (negb _); [eauto|].
    destruct (retryTimeout c <=? _) eqn:Et; [eauto|].
    apply IH. cbn [sleep emit now]. lia.
Qed.

Lemma httpDoLoop_fuel_mono (c : Client) (req : Request) (start : Z) :
  forall (fuel : nat) (w : World) (r : result Response * World),
    httpDoLoop c fuel req start w = Some r ->
    forall fuel', (fuel <= fuel')%nat -> httpDoLoop c fuel' req start w = Some r.
Proof.
  induction fuel as [|fuel IH]; intros w r H fuel' Hle; [discriminate|].
  destruct fuel' as [|fuel']; [lia|].
  rewrite httpDoLoop_S in *. cbv zeta in *.
  destruct (negb _); [exact H|].
  destruct (retryTimeout c <=? _); [exact H|].
  apply IH with (fuel' := fuel') in H; [exact H | lia].
Qed.




(** ** Authentication *)

Lemma performLogin_eq (c : Client) (fuel : nat) (email password : string)
      (w : World) :
  performLogin c fuel email password w =
  match loginCall c fuel email password w with
  | None => None
  | Some (_, Some e, w1) => Some (EmptyString, Some e, w1)
  | Some (respData, None, w1) =>
    let data := default EmptyString respData in
    let '(resp, uerr) := json_Unmarshal_loginResponse data loginResponse0 in
    let w2 := match uerr with
              | Some e => jsonError "login/Basic" data e w1
              | None => w1
              end in
    if negb (String.eqb (Token resp) EmptyString)
    then Some (Token resp, None, w2)
    else Some (EmptyString,
               Some (default (ErrorsNew "No auth token returned from login API call")
                             uerr), w2)
  end.
Proof.
  unfold performLogin, apiPostJson, apiJson, loginCall.
  destruct (doHttpRequest _ _ _ _ _ _ _ _ _) as [[[respData [e|]] w1]|];
    try reflexivity.
  destruct (json_Unmarshal_loginResponse _ _) as [resp [e|]];
    destruct (negb _); reflexivity.
Qed.

(** [performLogin] reports success with a non-empty token only, and
    failure with the empty string only. *)
Lemma performLogin_token (c : Client) (fuel : nat) (email password : string)
      (w : World) (tok : string) (err : option error) (w' : World) :
  performLogin c fuel email password w = Some (tok, err, w') ->
  match err with
  | None => tok <> EmptyString
  | Some _ => tok = EmptyString
  end.
Proof.
  rewrite performLogin_eq.
  destruct (loginCall _ _ _ _ _) as [[[respData [e|]] w1]|]; try discriminate.
  - intros H; injection H as <- <- <-. reflexivity.
  - cbv zeta.
    destruct (json_Unmarshal_loginResponse _ _) as [resp uerr].
    destruct (String.eqb (Token resp) EmptyString) eqn:E; cbn [negb].
    + intros H; injection H as <- <- <-. reflexivity.
    + intros H; injection H as <- <- <-. apply String.eqb_neq. exact E.
Qed.



Lemma lastReply_app (ch : nat) (tr : list Event) (err : option error)
      (acc : option (option error)) :
  lastReply ch (tr ++ [EvReply ch err]) acc = Some err.
Proof.
  revert acc. induction tr as [|ev tr IH]; intros acc; simpl.
  - rewrite Nat.eqb_refl. reflexivity.
  - destruct ev; apply IH.
Qed.

(** C2, as stated, fails: a forced login that fails replaces the stored
    token (here [old]) with the empty string. *)
Lemma C2_failed_login_clears_token :
  let c := clientOf gateway401 0 0 in
  let msg := mkAuthMessage cmd_DO_LOGIN "user@example.com" "secret" EmptyString 0 in
  let w := setToken "old" world0 in
  authToken w = "old" /\
  exists e w',
    doAuthMsg c 1 msg w = Some w' /\
    last (trace w') = Some (EvReply 0 (Some e)) /\
    authToken w' = EmptyString /\
    authToken w' <> authToken w.
Proof.
  cbv zeta. split; [reflexivity|].
  eexists _, _. split; [vm_compute; reflexivity|].
  split; [vm_compute; reflexivity|].
  split; [vm_compute; reflexivity|].
  vm_compute. discriminate.
Qed.

(** C2 (amended).  When the login of a [cmd_DO_LOGIN] message, or of a
    [cmd_CHECK_LOGIN] message that finds the token empty, fails, the
    coordinator sends the login error on the message's reply channel as
    its last action, and the stored token is then empty: unchanged for
    [cmd_CHECK_LOGIN], cleared for [cmd_DO_LOGIN]. *)
Theorem C2_failed_login (c : Client) (fuel : nat) (msg : authMessage)
        (w : World) (tok : string) (e : error) (w1 : World) :
  action msg = cmd_DO_LOGIN \/
  (action msg = cmd_CHECK_LOGIN /\ authToken w = EmptyString) ->
  performLogin c fuel (email msg) (password msg) w = Some (tok, Some e, w1) ->
  exists w',
    doAuthMsg c fuel msg w = Some w' /\
    trace w' = (trace w1 ++ [EvReply (result_ch msg) (Some e)])%list /\
    authToken w' = EmptyString /\
    (action msg = cmd_CHECK_LOGIN -> authToken w' = authToken w).
Proof.
  intros Hact Hlogin.
  pose proof (performLogin_token _ _ _ _ _ _ _ _ Hlogin) as Htok.
  cbn in Htok. subst tok.
  unfold doAuthMsg.
  destruct Hact as [Ha | [Ha Hempty]]; rewrite Ha.
  - rewrite Hlogin. eexists. split; [reflexivity|].
    cbn [emit setToken trace authToken]. repeat split. discriminate.
  - rewrite Hempty. cbn [String.eqb]. rewrite Hlogin.
    eexists. split; [reflexivity|].
    cbn [emit setToken trace authToken]. repeat split.
Qed.

Lemma C2_failed_login_witness :
  let c := clientOf gateway401 0 0 in
  let msg := mkAuthMessage cmd_CHECK_LOGIN "user@example.com" "secret" EmptyString 0 in
  exists w', doAuthMsg c 1 msg world0 = Some w' /\
             authToken w' = EmptyString.
Proof.
  cbv zeta.
  edestruct (C2_failed_login (clientOf gateway401 0 0) 1
               (mkAuthMessage cmd_CHECK_LOGIN "user@example.com" "secret" EmptyString 0)
               world0) as (w' & H1 & _ & H3 & _).
  - right. split; reflexivity.
  - vm_compute. reflexivity.
  - exists w'. split; assumption.
Defined.

(** ** doHttpRequest *)

Lemma finishRequest_world (url : URL) (resp : Response) (w : World) :
  snd (finishRequest url resp w) = w.
Proof.
  unfold finishRequest. destruct (Body resp); [|reflexivity].
  destruct (isAuthStatus _); [reflexivity|].
  destruct (_ || _); reflexivity.
Qed.

Lemma delCookies_firstRequest (c : Client) (api method : string)
      (payload : option string) (ct tok : string) :
  delCookies (firstRequest c api method payload ct tok)
  = newRequest c api method payload ct.
Proof.
  unfold firstRequest, newRequest.
  destruct (negb _); destruct payload; reflexivity.
Qed.

(** [doHttpRequest] on a login path. *)
Lemma doHttpRequest_login_eq (c : Client) (fuel : nat)
      (G : World -> option (string * World))
      (D : World -> option (option error * World))
      (api method : string) (payload : option string) (ct : string) (w : World) :
  HasPrefix api "login/" = true ->
  doHttpRequest c fuel G D api method payload ct w =
  let url := mkURL "https" (gatewayAddress c) ("api/" ++ api) in
  match NewRequestErr (httpClient c) method url with
  | Some e => Some (None, Some e, w)
  | None =>
    match httpDo c fuel (newRequest c api method payload ct) w with
    | None => None
    | Some (Err e, w1) => Some (None, Some e, w1)
    | Some (Ok resp, w1) => Some (finishRequest url resp w1)
    end
  end.
Proof.
  intros Hp. unfold doHttpRequest, newRequest. rewrite Hp. reflexivity.
Qed.

(** [doHttpRequest] outside the login paths, from a client goroutine. *)
Lemma doHttpRequest_other_eq (c : Client) (fuel : nat)
      (api method : string) (payload : option string) (ct : string) (w : World) :
  HasPrefix api "login/" = false ->
  Client_doHttpRequest c fuel api method payload ct w =
  let url := mkURL "https" (gatewayAddress c) ("api/" ++ api) in
  match NewRequestErr (httpClient c) method url with
  | Some e => Some (None, Some e, w)
  | None =>
    match httpDo c fuel (firstRequest c api method payload ct (authToken w))
                 (emit (EvTokenRead (authToken w)) w) with
    | None => None
    | Some (Err e, w1) => Some (None, Some e, w1)
    | Some (Ok resp, w1) =>
      if isAuthStatus (StatusCode resp) then
        match DoLogin c fuel w1 with
        | None => None
        | Some (Some e, w2) => Some (None, Some e, w2)
        | Some (None, w2) =>
          match httpDo c fuel (retryRequest c api method payload ct (authToken w2))
                       (emit (EvTokenRead (authToken w2)) w2) with
          | None => None
          | Some (Err e, w4) => Some (None, Some e, w4)
          | Some (Ok resp2, w4) => Some (finishRequest url resp2 w4)
          end
        end
      else Some (finishRequest url resp w1)
    end
  end.
Proof.
  intros Hp. unfold Client_doHttpRequest, doHttpRequest, GetAuthToken.
  rewrite Hp. cbv zeta.
  destruct (NewRequestErr _ _ _); [reflexivity|].
  fold (newRequest c api method payload ct).
  fold (firstRequest c api method payload ct (authToken w)).
  destruct (httpDo _ _ _ _) as [[[resp|e] w1]|]; try reflexivity.
  destruct (isAuthStatus _); [|reflexivity].
  destruct (DoLogin c fuel w1) as [[[e|] w2]|]; try reflexivity.
  rewrite delCookies_firstRequest. reflexivity.
Qed.

(** *** Traces *)

Lemma Forall_schedule_weaken (c : Client) (req : Request) (tok : string)
      (start t : Z) (n : nat) (evs : list Event) (res : result Response)
      (P : Event -> Prop) :
  retrySchedule c req tok start t n evs res ->
  (forall a k r, P (EvDo req tok a k r)) -> (forall d, P (EvSleep d)) ->
  Forall P evs.
Proof.
  intros Hs HD HS. apply retrySchedule_events in Hs.
  eapply Forall_impl; [exact Hs|].
  intros ev [(a & k & r & ->)|(d & ->)]; auto.
Qed.

(** The login call of [performLogin] leaves login-call events only and
    does not touch the token or the channels. *)
Lemma loginCall_trace (c : Client) (fuel : nat) (email password : string)
      (w : World) (r : option string * option error) (w' : World) :
  loginCall c fuel email password w = Some (r, w') ->
  exists new, trace w' = (trace w ++ new)%list /\
              Forall loginCallEvent new /\
              authToken w' = authToken w /\ chans w' = chans w.
Proof.
  unfold loginCall. rewrite doHttpRequest_login_eq by reflexivity. cbv zeta.
  destruct (NewRequestErr _ _ _).
  { intros H; injection H as <- <-. exists []. rewrite app_nil_r. auto. }
  destruct (httpDo _ _ _ _) as [[res w1]|] eqn:E; [|discriminate].
  apply httpDo_schedule in E as (evs & Htr & Hs & Htok & Hch).
  assert (Hnew : Forall loginCallEvent
                   (EvHttpDo (newRequest c "login/Basic" "POST"
                      (Some (json_Marshal_loginData
                               (mkLoginData "customer" email password false)))
                      "application/json") :: evs)).
  { constructor; [split; reflexivity|].
    eapply Forall_schedule_weaken; [exact Hs| |]; intros; simpl; auto. }
  destruct res as [resp|e].
  - intros H.
    pose proof (finishRequest_world
                  (mkURL "https" (gatewayAddress c) ("api/" ++ "login/Basic"))
                  resp w1) as Hw.
    rewrite (surjective_pairing (finishRequest _ resp w1)) in H.
    injection H as <- <-. rewrite Hw. eauto.
  - intros H; injection H as <- <-. eauto.
Qed.

Lemma performLogin_trace (c : Client) (fuel : nat) (email password : string)
      (w : World) (tok : string) (err : option error) (w' : World) :
  performLogin c fuel email password w = Some (tok, err, w') ->
  exists new, trace w' = (trace w ++ new)%list /\
              Forall loginCallEvent new /\
              authToken w' = authToken w /\ chans w' = chans w.
Proof.
  rewrite performLogin_eq.
  destruct (loginCall _ _ _ _ _) as [[[respData oe] w1]|] eqn:E; [|discriminate].
  apply loginCall_trace in E as (new & Htr & Hall & Htok & Hch).
  destruct oe as [e|].
  - intros H; injection H as <- <- <-. eauto.
  - cbv zeta. destruct (json_Unmarshal_loginResponse _ _) as [resp uerr].
    assert (Hw2 : forall w2,
               w2 = match uerr with
                    | Some e => jsonError "login/Basic"
                                  (default EmptyString respData) e w1
                    | None => w1
                    end ->
               exists new, trace w2 = (trace w ++ new)%list /\
                           Forall loginCallEvent new /\
                           authToken w2 = authToken w /\ chans w2 = chans w).
    { intros w2 ->. destruct uerr as [e|]; [|eauto].
      unfold jsonError. cbn [emit trace authToken chans].
      exists (new ++ [EvErrFunc "login/Basic" (default EmptyString respData) e])%list.
      rewrite Htr, app_assoc. split; [reflexivity|].
      split; [|auto]. apply Forall_app. split; [assumption|].
      constructor; [exact I | constructor]. }
    destruct (negb _); intros H; injection H as <- <- <-;
      apply Hw2; reflexivity.
Qed.

(** [DoLogin]: one message to the coordinator, the events of the login
    call, and the reply; after a successful login the token is not
    empty. *)
Lemma DoLogin_trace (c : Client) (fuel : nat) (w : World)
      (err : option error) (w' : World) :
  DoLogin c fuel w = Some (err, w') ->
  exists new,
    trace w' =
    (trace w ++
     EvAuthMsg (mkAuthMessage cmd_DO_LOGIN (gatewayLoginEmail c)
                              (gatewayLoginPassword c) EmptyString (chans w))
     :: new ++ [EvReply (chans w) err])%list /\
    Forall loginCallEvent new /\
    match err with
    | None => authToken w' <> EmptyString
    | Some _ => authToken w' = EmptyString
    end.
Proof.
  unfold DoLogin, makeChan, roundTrip, doAuthMsg. cbn [action email password result_ch].
  destruct (performLogin _ _ _ _ _) as [[[tok perr] w1]|] eqn:E; [|discriminate].
  pose proof (performLogin_token _ _ _ _ _ _ _ _ E) as Htok.
  apply performLogin_trace in E as (new & Htr & Hall & _ & _).
  cbn [emit setToken trace authToken chans] in *.
  rewrite lastReply_app. intros H; injection H as <- <-.
  exists new. cbn [emit setToken trace authToken].
  rewrite Htr, <- !app_assoc.
  split; [reflexivity|]. split; [assumption|].
  destruct perr; assumption.
Qed.

Lemma requestsIssued_app (a b : list Event) :
  requestsIssued (a ++ b) = (requestsIssued a ++ requestsIssued b)%list.
Proof. apply flat_map_app. Qed.


Lemma authMsgs_app (a b : list Event) :
  authMsgs (a ++ b) = (authMsgs a ++ authMsgs b)%list.
Proof. apply flat_map_app. Qed.













Lemma last_snoc_cons {A} (x : A) (l : list A) (y : A) :
  last (x :: l ++ [y]) = Some y.
Proof.
  change (x :: l ++ [y])%list with ((x :: l) ++ [y])%list. apply last_snoc.
Qed.


(** ** A shared client *)







(** With no other goroutine the shared client is the client of a lone
    caller. *)
Lemma Shared_alone (c : Client) (fuel : nat) (api method : string)
      (payload : option string) (ct : string) (w : World) :
  Shared_doHttpRequest c fuel alone api method payload ct w
  = Client_doHttpRequest c fuel api method payload ct w.
Proof. reflexivity. Qed.








(** ** The coordinator's worker *)

(** C9, as stated, fails: a mutation and a read that both arrive after
    the first select has found nothing, and before the second select
    runs, are both ready at the second select, which may serve the read
    (with the token as it was) while the mutation is still pending. *)
Lemma C9_read_served_while_mutation_pending :
  let c := clientOf gateway401 0 0 in
  let msg := mkAuthMessage cmd_SET_TOKEN EmptyString EmptyString "new" 0 in
  exists m1 m2,
    msteps c 1 mgr0 [LDefault; LArriveSend msg; LArriveRecv] m1 /\
    senders m1 = [msg] /\ receivers m1 = 1%nat /\
    mstep c 1 m1 (LToken EmptyString) m2 /\
    senders m2 = [msg].
Proof.
  cbv zeta.
  eexists (mkMgr AtSecondSelect world0 [_] 1), _.
  split.
  { eapply msteps_cons; [apply step_first_default|].
    eapply msteps_cons; [apply (step_arrive_send _ _ AtSecondSelect world0 [] 0);
                         discriminate|].
    eapply msteps_cons; [apply step_arrive_recv; discriminate|].
    apply msteps_nil. }
  split; [reflexivity|]. split; [reflexivity|].
  split; [apply (step_second_token _ _ world0)|reflexivity].
Qed.

(** C9 (amended).  The worker gives mutation messages priority at the
    first select of each iteration: there it never serves a token read;
    when a mutation is pending there, its next step serves the oldest
    pending mutation; and it goes on to the second select, where reads
    are served, only when no mutation is pending at the first.  At the
    second select a read and a mutation that are both ready are served
    in either order. *)
Theorem C9_priority_at_first_select (c : Client) (fuel : nat)
        (m : Mgr) (l : Label) (m' : Mgr) :
  mstep c fuel m l m' ->
  (forall tok, l = LToken tok ->
     pc m <> AtFirstSelect /\ tok = authToken (world m)) /\
  (pc m = AtFirstSelect -> forall msg ss, senders m = msg :: ss ->
     isArrival l \/
     (l = LAuth msg /\ senders m' = ss /\ pc m' = AtFirstSelect /\
      doAuthMsg c fuel msg (emit (EvAuthMsg msg) (world m)) = Some (world m'))) /\
  (pc m' = AtSecondSelect -> ~ isArrival l ->
     l = LDefault /\ pc m = AtFirstSelect /\ senders m = []) /\
  (pc m = AtSecondSelect -> receivers m <> 0%nat -> senders m <> [] ->
     (exists m1, mstep c fuel m (LToken (authToken (world m))) m1) /\
     (forall msg ss w1, senders m = msg :: ss ->
        doAuthMsg c fuel msg (emit (EvAuthMsg msg) (world m)) = Some w1 ->
        exists m2, mstep c fuel m (LAuth msg) m2)).
Proof.
  intros H. split; [|split; [|split]].
  - intros tok ->. inversion H; subst; cbn; split; auto; discriminate.
  - intros Hpc msg ss Hs. inversion H; subst; cbn in *; try discriminate;
      try (left; exact I).
    injection Hs as -> ->. right. auto.
  - intros Hpc Hna. inversion H; subst; cbn in *; try discriminate;
      try (exfalso; apply Hna; exact I); auto.
  - intros Hpc Hr Hs. destruct m as [p w ss n]. cbn in *. subst p.
    destruct n as [|n]; [congruence|]. split.
    + eexists. apply step_second_token.
    + intros msg ss' w1 -> Hd. eexists. apply step_second_auth. exact Hd.
Qed.

(** With a mutation and a read pending at the first select, the
    worker's step serves the mutation. *)
Lemma C9_priority_at_first_select_witness :
  let c := clientOf gateway401 0 0 in
  let msg := mkAuthMessage cmd_SET_TOKEN EmptyString EmptyString "new" 0 in
  exists m',
    mstep c 1 (mkMgr AtFirstSelect world0 [msg] 1) (LAuth msg) m' /\
    senders m' = [] /\ pc m' = AtFirstSelect /\ authToken (world m') = "new".
Proof.
  cbv zeta.
  set (c := clientOf gateway401 0 0).
  set (msg := mkAuthMessage cmd_SET_TOKEN EmptyString EmptyString "new" 0).
  assert (H : mstep c 1 (mkMgr AtFirstSelect world0 [msg] 1) (LAuth msg)
                    (mkMgr AtFirstSelect
                           (setToken "new" (emit (EvAuthMsg msg) world0)) [] 1)).
  { apply step_first_auth. reflexivity. }
  eexists. split; [exact H|].
  destruct (C9_priority_at_first_select c 1 _ _ _ H) as (_ & Hfirst & _).
  destruct (Hfirst eq_refl msg [] eq_refl) as [[]|(_ & Hs & Hpc & _)].
  split; [exact Hs|]. split; [exact Hpc|]. reflexivity.
Defined.

(** ** float64 on small integers *)

Lemma floorLog2_exact (q d : Z) :
  0 < q -> 0 < d -> floorLog2 (q * d) d = Z.log2 q.
Proof.
  intros Hq Hd. unfold floorLog2.
  assert (Hn : 0 < q * d) by nia.
  pose proof (Z.log2_mul_below q d Hq Hd) as Hlo.
  pose proof (Z.log2_mul_above q d ltac:(lia) ltac:(lia)) as Hhi.
  pose proof (Z.log2_nonneg q) as Hq0.
  set (k := Z.log2 (q * d) - Z.log2 d) in *.
  assert (Hk : 0 <= k) by lia.
  unfold scale2. destruct (0 <=? k) eqn:E; [|apply Z.leb_gt in E; lia].
  assert (Hp : 0 < 2 ^ k) by (apply Z.pow_pos_nonneg; lia).
  destruct (d * 2 ^ k <=? q * d) eqn:E2.
  - apply Z.leb_le in E2.
    assert (H2 : 2 ^ k <= q) by nia.
    apply Z.log2_le_pow2 in H2; lia.
  - apply Z.leb_gt in E2.
    assert (H2 : q < 2 ^ k) by nia.
    apply Z.log2_lt_pow2 in H2; lia.
Qed.

Lemma exact_mantissa (q : Z) :
  0 < q < 2 ^ 53 ->
  2 ^ 52 <= q * 2 ^ (52 - Z.log2 q) < 2 ^ 53 /\ 0 <= Z.log2 q <= 52.
Proof.
  intros [Hq Hlt].
  pose proof (Z.log2_spec q Hq) as [Hlo Hhi].
  pose proof (Z.log2_nonneg q) as H0.
  assert (Hl : Z.log2 q < 53) by (apply Z.log2_lt_pow2; lia).
  assert (Hsplit : 2 ^ 52 = 2 ^ Z.log2 q * 2 ^ (52 - Z.log2 q)).
  { rewrite <- Z.pow_add_r by lia. f_equal. lia. }
  assert (Hsplit2 : 2 ^ 53 = 2 ^ Z.succ (Z.log2 q) * 2 ^ (52 - Z.log2 q)).
  { rewrite <- Z.pow_add_r by lia. f_equal. lia. }
  assert (Hp : 0 < 2 ^ (52 - Z.log2 q)) by (apply Z.pow_pos_nonneg; lia).
  rewrite Hsplit at 1. rewrite Hsplit2. split; [nia | lia].
Qed.

(** Rounding a quotient that is an integer below 2^53 gives that
    integer. *)
Lemma roundFloat_exact (q d : Z) :
  0 < q < 2 ^ 53 -> 0 < d -> roundFloat false (q * d) d = exactFloat q.
Proof.
  intros Hq Hd. unfold roundFloat, exactFloat.
  destruct (q * d <=? 0) eqn:E; [apply Z.leb_le in E; nia|].
  rewrite floorLog2_exact by lia.
  destruct (exact_mantissa q Hq) as [Hm Hl].
  rewrite Z.max_l by lia.
  unfold scale2.
  set (e := Z.log2 q - 52) in *.
  assert (Hp : 0 < 2 ^ (52 - Z.log2 q)) by (apply Z.pow_pos_nonneg; lia).
  destruct (0 <=? e) eqn:Ee.
  - apply Z.leb_le in Ee. assert (He : e = 0) by lia.
    replace (52 - Z.log2 q) with 0 in * by lia. rewrite He.
    change (2 ^ 0) with 1 in *. rewrite !Z.mul_1_r in *.
    rewrite Z.div_mul by lia. rewrite Z.mod_mul by lia.
    change (2 * 0) with 0.
    destruct (d <? 0) eqn:E1; [apply Z.ltb_lt in E1; lia|].
    destruct (0 =? d) eqn:E2; [apply Z.eqb_eq in E2; lia|].
    cbn [orb andb].
    destruct (q =? 2 ^ 53) eqn:E3; [apply Z.eqb_eq in E3; lia|].
    destruct (q =? 0) eqn:E4; [apply Z.eqb_eq in E4; lia|].
    reflexivity.
  - apply Z.leb_gt in Ee.
    replace (- e) with (52 - Z.log2 q) by lia.
    replace (q * d * 2 ^ (52 - Z.log2 q))
      with (q * 2 ^ (52 - Z.log2 q) * d) by ring.
    rewrite Z.div_mul by lia. rewrite Z.mod_mul by lia.
    change (2 * 0) with 0.
    destruct (d <? 0) eqn:E1; [apply Z.ltb_lt in E1; lia|].
    destruct (0 =? d) eqn:E2; [apply Z.eqb_eq in E2; lia|].
    cbn [orb andb].
    destruct (_ =? 2 ^ 53) eqn:E3; [apply Z.eqb_eq in E3; lia|].
    destruct (_ =? 0) eqn:E4; [apply Z.eqb_eq in E4; lia|].
    destruct (971 <? e) eqn:E5; [apply Z.ltb_lt in E5; lia|].
    reflexivity.
Qed.

Lemma float64_of_Z_exact (q : Z) :
  0 < q < 2 ^ 53 -> float64_of_Z q = exactFloat q.
Proof.
  intros Hq. unfold float64_of_Z.
  destruct (q <? 0) eqn:E; [apply Z.ltb_lt in E; lia|].
  rewrite <- (Z.mul_1_r q) at 1. apply roundFloat_exact; lia.
Qed.

Lemma exactFloat_value (q : Z) :
  0 < q < 2 ^ 53 ->
  q * 2 ^ (52 - Z.log2 q) * 1 = q * 2 ^ (- (Z.log2 q - 52)) /\
  uint64_of_float64 (exactFloat q) = q.
Proof.
  intros Hq. destruct (exact_mantissa q Hq) as [Hm Hl].
  replace (- (Z.log2 q - 52)) with (52 - Z.log2 q) by lia.
  split; [ring|].
  unfold uint64_of_float64, exactFloat, scale2.
  assert (Hp : 0 < 2 ^ (52 - Z.log2 q)) by (apply Z.pow_pos_nonneg; lia).
  destruct (0 <=? - (Z.log2 q - 52)) eqn:E; [|apply Z.leb_gt in E; lia].
  replace (- (Z.log2 q - 52)) with (52 - Z.log2 q) by lia.
  rewrite Z.mul_1_l. apply Z.div_mul. lia.
Qed.

Lemma float64_mul_exact (a b : Z) :
  0 < a -> 0 < b -> a * b < 2 ^ 53 ->
  float64_mul (exactFloat a) (exactFloat b) = exactFloat (a * b).
Proof.
  intros Ha Hb Hab.
  assert (Ha' : 0 < a < 2 ^ 53) by nia.
  assert (Hb' : 0 < b < 2 ^ 53) by nia.
  destruct (exact_mantissa a Ha') as [_ Hla].
  destruct (exact_mantissa b Hb') as [_ Hlb].
  remember (exactFloat (a * b)) as R eqn:HR.
  unfold float64_mul, exactFloat. cbn [xorb].
  set (ea := Z.log2 a - 52). set (eb := Z.log2 b - 52).
  unfold scale2.
  destruct (0 <=? - (ea + eb)) eqn:E; [|apply Z.leb_gt in E; lia].
  replace (a * 2 ^ (52 - Z.log2 a) * (b * 2 ^ (52 - Z.log2 b)))
    with (a * b * (1 * 2 ^ (- (ea + eb)))).
  - subst R. apply roundFloat_exact; [nia|].
    assert (0 < 2 ^ (- (ea + eb))) by (apply Z.pow_pos_nonneg; lia). lia.
  - replace (- (ea + eb)) with ((52 - Z.log2 a) + (52 - Z.log2 b)) by lia.
    rewrite Z.pow_add_r by lia. ring.
Qed.

Lemma float64_div_exact (q b : Z) :
  0 < q -> 0 < b -> q * b < 2 ^ 53 ->
  float64_div (exactFloat (q * b)) (exactFloat b) = exactFloat q.
Proof.
  intros Hq Hb Hqb.
  assert (Hn' : 0 < q * b < 2 ^ 53) by nia.
  assert (Hb' : 0 < b < 2 ^ 53) by nia.
  assert (Hq' : 0 < q < 2 ^ 53) by nia.
  destruct (exact_mantissa _ Hn') as [_ Hln].
  destruct (exact_mantissa b Hb') as [_ Hlb].
  remember (exactFloat q) as R eqn:HR.
  unfold float64_div, exactFloat. cbn [xorb].
  set (en := Z.log2 (q * b) - 52). set (eb := Z.log2 b - 52).
  set (pn := 2 ^ (52 - Z.log2 (q * b))). set (pb := 2 ^ (52 - Z.log2 b)).
  assert (Hpn : 0 < pn) by (apply Z.pow_pos_nonneg; lia).
  assert (Hpb : 0 < pb) by (apply Z.pow_pos_nonneg; lia).
  unfold scale2.
  destruct (0 <=? - (en - eb)) eqn:E.
  - apply Z.leb_le in E.
    (* pn = pb * 2^(eb - en) *)
    assert (Hpp : pn = pb * 2 ^ (- (en - eb))).
    { subst pn pb. rewrite <- Z.pow_add_r by lia. f_equal. lia. }
    replace (q * b * pn) with (q * (b * pb * 2 ^ (- (en - eb))))
      by (rewrite Hpp; ring).
    subst R. apply roundFloat_exact; [assumption|].
    assert (0 < 2 ^ (- (en - eb))) by (apply Z.pow_pos_nonneg; lia). nia.
  - apply Z.leb_gt in E.
    assert (Hpp : pb = pn * 2 ^ (- - (en - eb))).
    { subst pn pb. rewrite <- Z.pow_add_r by lia. f_equal. lia. }
    replace (q * b * pn * 2 ^ (- - (en - eb))) with (q * (b * pb))
      by (rewrite Hpp; ring).
    subst R. apply roundFloat_exact; [assumption | nia].
Qed.

(** ** Decimal digits *)

Lemma digit_cases (d : Z) :
  0 <= d <= 9 ->
  d = 0 \/ d = 1 \/ d = 2 \/ d = 3 \/ d = 4 \/ d = 5 \/ d = 6 \/ d = 7 \/
  d = 8 \/ d = 9.
Proof. lia. Qed.

Lemma digitChar_props (d : Z) :
  0 <= d <= 9 ->
  isDigit (digitChar d) = true /\ digitVal (digitChar d) = d /\
  htmlSafe (digitChar d) = true /\ Ascii.eqb (digitChar d) "." = false.
Proof.
  intros H. apply digit_cases in H.
  repeat (destruct H as [->|H]; [vm_compute; auto|]). subst. vm_compute; auto.
Qed.

Lemma mod10_digit (v : Z) : 0 <= v mod 10 <= 9.
Proof. pose proof (Z.mod_pos_bound v 10 ltac:(lia)). lia. Qed.

Lemma two63_value : two63 = 9223372036854775808.
Proof. reflexivity. Qed.

Lemma two64_value : two64 = 18446744073709551616.
Proof. reflexivity. Qed.

Lemma fmtDigits_S (fuel : nat) (v : Z) (acc : string) :
  fmtDigits (S fuel) v acc =
  if 0 <? v then fmtDigits fuel (v / 10) (String (digitChar (v mod 10)) acc)
  else acc.
Proof. reflexivity. Qed.

Lemma fmtDigits_zero (fuel : nat) (acc : string) : fmtDigits fuel 0 acc = acc.
Proof. destruct fuel; reflexivity. Qed.

(** Reading back the digits that were written. *)
Lemma leadingInt_fmtDigits :
  forall (fuel : nat) (v : Z) (acc : string),
    0 <= v <= two63 -> v < 10 ^ Z.of_nat fuel ->
    leadingInt (fmtDigits fuel v acc) 0 = leadingInt acc v.
Proof.
  induction fuel as [|fuel IH]; intros v acc Hv Hlt.
  - change (10 ^ Z.of_nat 0) with 1 in Hlt.
    replace v with 0 by lia. reflexivity.
  - rewrite fmtDigits_S. destruct (0 <? v) eqn:E.
    + apply Z.ltb_lt in E.
      rewrite two63_value in Hv.
      assert (Hdiv : 0 <= v / 10 <= 922337203685477580).
      { Z.to_euclidean_division_equations. lia. }
      rewrite IH.
      * destruct (digitChar_props (v mod 10) (mod10_digit v)) as (Hd & Hval & _).
        cbn [leadingInt]. rewrite Hd, Hval.
        change (two63 / 10) with 922337203685477580.
        destruct (922337203685477580 <? v / 10) eqn:E1;
          [apply Z.ltb_lt in E1; lia|].
        replace (v / 10 * 10 + v mod 10) with v
          by (Z.to_euclidean_division_equations; lia).
        rewrite two63_value.
        destruct (9223372036854775808 <? v) eqn:E2;
          [apply Z.ltb_lt in E2; lia|].
        reflexivity.
      * rewrite two63_value. lia.
      * rewrite Nat2Z.inj_succ, Z.pow_succ_r in Hlt by lia.
        apply Z.div_lt_upper_bound; lia.
    + apply Z.ltb_ge in E. replace v with 0 by lia. reflexivity.
Qed.

Lemma leadingInt_stop (s : string) (x : Z) :
  startsNumber s = false -> leadingInt s x = Some (x, s).
Proof.
  destruct s as [|c r]; [discriminate|]. cbn [startsNumber leadingInt].
  intros H. apply orb_false_elim in H as [_ H]. rewrite H. reflexivity.
Qed.

Lemma leadingInt_empty (x : Z) : leadingInt EmptyString x = Some (x, EmptyString).
Proof. reflexivity. Qed.

Lemma fmtDigits_length :
  forall (fuel : nat) (v : Z) (acc : string),
    (String.length acc <= String.length (fmtDigits fuel v acc))%nat.
Proof.
  induction fuel as [|fuel IH]; intros v acc; [reflexivity|].
  rewrite fmtDigits_S. destruct (0 <? v); [|reflexivity].
  etransitivity; [|apply IH]. cbn [String.length]. lia.
Qed.

Lemma fmtDigits_head :
  forall (fuel : nat) (v : Z) (c : ascii) (acc : string),
    isDigit c = true ->
    exists c' r, fmtDigits fuel v (String c acc) = String c' r /\
                 isDigit c' = true.
Proof.
  induction fuel as [|fuel IH]; intros v c acc Hc.
  - exists c, acc. auto.
  - rewrite fmtDigits_S. destruct (0 <? v).
    + apply IH. apply digitChar_props, mod10_digit.
    + exists c, acc. auto.
Qed.

(** [fmtInt] writes at least one character, and a digit first. *)
Lemma fmtInt_head (buf : string) (v : Z) :
  0 <= v ->
  exists c r, fmtInt buf v = String c r /\ isDigit c = true /\
              (String.length buf < String.length (String c r))%nat.
Proof.
  intros Hv. unfold fmtInt. destruct (v =? 0) eqn:E.
  - exists "0"%char, buf. repeat split. cbn [String.length]. lia.
  - apply Z.eqb_neq in E.
    change 20%nat with (S 19). rewrite fmtDigits_S.
    destruct (0 <? v) eqn:E2.
    + destruct (fmtDigits_head 19 (v / 10) (digitChar (v mod 10)) buf)
        as (c & r & Heq & Hc);
        [apply digitChar_props, mod10_digit|].
      exists c, r. split; [exact Heq|]. split; [exact Hc|].
      rewrite <- Heq.
      pose proof (fmtDigits_length 19 (v / 10) (String (digitChar (v mod 10)) buf)).
      cbn [String.length] in *. lia.
    + apply Z.ltb_ge in E2. lia.
Qed.

Lemma leadingInt_fmtInt (buf : string) (v : Z) :
  0 <= v <= two63 -> leadingInt (fmtInt buf v) 0 = leadingInt buf v.
Proof.
  intros Hv. unfold fmtInt. destruct (v =? 0) eqn:E.
  - apply Z.eqb_eq in E. subst v. reflexivity.
  - apply leadingInt_fmtDigits; [exact Hv|].
    rewrite two63_value in Hv. change (10 ^ Z.of_nat 20) with 100000000000000000000.
    lia.
Qed.

(** ** Fractions *)

Lemma fracDigits_length :
  forall (p : nat) (v : Z) (acc : string),
    String.length (fracDigits p v acc) = (p + String.length acc)%nat.
Proof.
  induction p as [|p IH]; intros v acc; [reflexivity|].
  cbn [fracDigits]. rewrite IH. cbn [String.length]. lia.
Qed.

Lemma fmtFrac_true :
  forall (p : nat) (buf : string) (v : Z),
    fmtFrac p buf v true
    = (String "." (fracDigits p v buf), v / 10 ^ Z.of_nat p).
Proof.
  induction p as [|p IH]; intros buf v.
  - cbn [fmtFrac fracDigits]. change (10 ^ Z.of_nat 0) with 1.
    rewrite Z.div_1_r. reflexivity.
  - cbn [fmtFrac fracDigits orb]. rewrite IH. f_equal.
    rewrite Nat2Z.inj_succ, Z.pow_succ_r by lia.
    rewrite Z.div_div by lia. reflexivity.
Qed.

(** [fmtFrac] writes nothing for a zero fraction, and otherwise the
    fraction's digits up to the last one that is not zero. *)
Lemma fmtFrac_false :
  forall (p : nat) (buf : string) (v : Z),
    0 <= v ->
    (v mod 10 ^ Z.of_nat p = 0 /\
     fmtFrac p buf v false = (buf, v / 10 ^ Z.of_nat p)) \/
    (exists tz k : nat,
       p = (tz + k)%nat /\ (0 < k)%nat /\
       v mod 10 ^ Z.of_nat tz = 0 /\
       (v / 10 ^ Z.of_nat tz) mod 10 <> 0 /\
       fmtFrac p buf v false
       = (String "." (fracDigits k (v / 10 ^ Z.of_nat tz) buf),
          v / 10 ^ Z.of_nat p)).
Proof.
  induction p as [|p IH]; intros buf v Hv.
  - left. change (10 ^ Z.of_nat 0) with 1. rewrite Z.mod_1_r, Z.div_1_r.
    split; reflexivity.
  - cbn [fmtFrac orb].
    assert (Hpow : 10 ^ Z.of_nat (S p) = 10 * 10 ^ Z.of_nat p)
      by (rewrite Nat2Z.inj_succ, Z.pow_succ_r by lia; reflexivity).
    assert (Hpp : 0 < 10 ^ Z.of_nat p) by (apply Z.pow_pos_nonneg; lia).
    destruct (v mod 10 =? 0) eqn:E; cbn [negb].
    + apply Z.eqb_eq in E.
      destruct (IH buf (v / 10) ltac:(apply Z.div_pos; lia))
        as [[Hz Heq] | (tz & k & Hp & Hk & Hz & Hnz & Heq)].
      * left. rewrite Heq, Hpow, Z.div_div by lia. split; [|reflexivity].
        rewrite Z.rem_mul_r by lia. rewrite E, Hz. reflexivity.
      * right. exists (S tz), k. split; [lia|]. split; [exact Hk|].
        assert (Hpt : 0 < 10 ^ Z.of_nat tz) by (apply Z.pow_pos_nonneg; lia).
        assert (Hpowt : 10 ^ Z.of_nat (S tz) = 10 * 10 ^ Z.of_nat tz)
          by (rewrite Nat2Z.inj_succ, Z.pow_succ_r by lia; reflexivity).
        split.
        { rewrite Hpowt, Z.rem_mul_r by lia. rewrite E, Hz. reflexivity. }
        split.
        { rewrite Hpowt, <- Z.div_div by lia. exact Hnz. }
        rewrite Heq, Hpow, Hpowt, !Z.div_div by lia. reflexivity.
    + right. exists 0%nat, (S p). split; [reflexivity|]. split; [lia|].
      change (10 ^ Z.of_nat 0) with 1. rewrite Z.mod_1_r, Z.div_1_r.
      split; [reflexivity|]. split; [apply Z.eqb_neq; exact E|].
      rewrite fmtFrac_true. rewrite Hpow.
      rewrite Z.div_div by lia. reflexivity.
Qed.

Lemma ten_pow_bound (k : nat) :
  (k <= 15)%nat -> 0 < 10 ^ Z.of_nat k <= 1000000000000000.
Proof.
  intros H. split; [apply Z.pow_pos_nonneg; lia|].
  change 1000000000000000 with (10 ^ 15).
  apply Z.pow_le_mono_r; lia.
Qed.

(** Reading back the fraction digits that were written: the digits as
    an integer, with the power of ten that scales them held exactly. *)
Lemma leadingFraction_fracDigits :
  forall (k : nat) (v : Z) (acc : string),
    (k <= 15)%nat -> 0 <= v ->
    leadingFraction (fracDigits k v acc) 0 (exactFloat 1) false
    = leadingFraction acc (v mod 10 ^ Z.of_nat k)
                      (exactFloat (10 ^ Z.of_nat k)) false.
Proof.
  induction k as [|k IH]; intros v acc Hk Hv.
  - cbn [fracDigits]. change (10 ^ Z.of_nat 0) with 1. rewrite Z.mod_1_r.
    reflexivity.
  - cbn [fracDigits]. rewrite IH by (try lia; apply Z.div_pos; lia).
    destruct (digitChar_props (v mod 10) (mod10_digit v)) as (Hd & Hval & _).
    cbn [leadingFraction]. rewrite Hd, Hval.
    pose proof (ten_pow_bound k ltac:(lia)) as Hb.
    pose proof (Z.mod_pos_bound (v / 10) (10 ^ Z.of_nat k) ltac:(lia)) as Hm.
    change ((two63 - 1) / 10) with 922337203685477580.
    destruct (922337203685477580 <? _) eqn:E1; [apply Z.ltb_lt in E1; lia|].
    rewrite two63_value.
    pose proof (mod10_digit v) as Hdig.
    destruct (9223372036854775808 <? _) eqn:E2; [apply Z.ltb_lt in E2; lia|].
    assert (Hpow : 10 ^ Z.of_nat (S k) = 10 * 10 ^ Z.of_nat k)
      by (rewrite Nat2Z.inj_succ, Z.pow_succ_r by lia; reflexivity).
    f_equal.
    + rewrite Hpow, Z.rem_mul_r by lia. lia.
    + rewrite float64_of_Z_exact by (change (2 ^ 53) with 9007199254740992; lia).
      rewrite float64_mul_exact; try lia.
      * rewrite Hpow. f_equal. ring.
      * pose proof (ten_pow_bound (S k) Hk) as Hb2. rewrite Hpow in Hb2.
        change (2 ^ 53) with 9007199254740992. lia.
Qed.

(** ** One number-unit group of a duration *)

Lemma noDigits_head (u : string) :
  u <> EmptyString -> noDigits u = true ->
  exists c r, u = String c r /\ isDigit c = false /\
              Ascii.eqb c "." = false /\ noDigits r = true.
Proof.
  destruct u as [|c r]; [congruence|]. intros _. cbn [noDigits].
  intros H. apply andb_prop in H as [H1 H2].
  apply negb_true_iff, orb_false_elim in H1 as [Hp Hd].
  exists c, r. auto.
Qed.

Lemma spanUnit_app (u rest : string) :
  noDigits u = true -> startsNumber rest = true ->
  spanUnit (u ++ rest) = (u, rest).
Proof.
  intros Hu Hr. induction u as [|c u IH].
  - change (EmptyString ++ rest)%string with rest.
    destruct rest as [|c r]; [reflexivity|].
    cbn [spanUnit]. cbn [startsNumber] in Hr. rewrite Hr. reflexivity.
  - cbn [noDigits] in Hu. apply andb_prop in Hu as [H1 H2].
    apply negb_true_iff in H1.
    change (String c u ++ rest)%string with (String c (u ++ rest)%string).
    cbn [spanUnit]. rewrite H1, (IH H2). reflexivity.
Qed.

Lemma leadingInt_nondigit (c : ascii) (r : string) (x : Z) :
  isDigit c = false -> leadingInt (String c r) x = Some (x, String c r).
Proof. intros H. cbn [leadingInt]. rewrite H. reflexivity. Qed.

Lemma leadingFraction_nondigit (c : ascii) (r : string) (x : Z)
      (scale : float64) (o : bool) :
  isDigit c = false ->
  leadingFraction (String c r) x scale o = (x, scale, String c r).
Proof. intros H. cbn [leadingFraction]. rewrite H. reflexivity. Qed.

Lemma parseDurationLoop_S (fuel : nat) (c : ascii) (r : string) (d : Z) :
  isDigit c = true ->
  parseDurationLoop (S fuel) (String c r) d =
  match leadingInt (String c r) 0 with
  | None => None
  | Some (v, s1) =>
    let pre := negb (Nat.eqb (String.length (String c r)) (String.length s1)) in
    let '(f, scale, s2, post) := consumeFraction s1 in
    if negb pre && negb post then None
    else
      let '(u, s3) := spanUnit s2 in
      match u with
      | EmptyString => None
      | _ =>
        match unitMap u with
        | None => None
        | Some unit =>
          if two63 / unit <? v then None
          else
            let v1 := v * unit in
            let v2 :=
              if 0 <? f
              then (v1 + uint64_of_float64
                           (float64_mul (float64_of_Z f)
                              (float64_div (float64_of_Z unit) scale)))
                   mod two64
              else v1 in
            if (0 <? f) && (two63 <? v2) then None
            else
              let d' := (d + v2) mod two64 in
              if two63 <? d' then None
              else parseDurationLoop fuel s3 d'
        end
      end
  end.
Proof.
  intros Hc. cbn [parseDurationLoop]. rewrite Hc.
  destruct (Ascii.eqb c "."); reflexivity.
Qed.

(** A group without fraction, as [Duration.String] writes it, is read
    back as its value. *)
Lemma parse_group_int (fuel : nat) (v : Z) (ustr : string) (unit : Z)
      (rest : string) (d : Z) :
  0 <= v -> ustr <> EmptyString -> noDigits ustr = true ->
  startsNumber rest = true -> unitMap ustr = Some unit -> 0 < unit ->
  0 <= d -> d + v * unit <= two63 ->
  parseDurationLoop (S fuel) (fmtInt (ustr ++ rest) v) d
  = parseDurationLoop fuel rest (d + v * unit).
Proof.
  intros Hv Hne Hnd Hrest Hunit Hu Hd Hsum.
  destruct (fmtInt_head (ustr ++ rest) v Hv) as (c & r & Heq & Hc & Hlen).
  destruct (noDigits_head ustr Hne Hnd) as (c0 & u' & -> & Hc0 & Hdot & _).
  assert (Hv63 : v <= two63) by nia.
  rewrite Heq, parseDurationLoop_S by exact Hc. rewrite <- Heq.
  rewrite leadingInt_fmtInt by lia.
  change (String c0 u' ++ rest)%string with (String c0 (u' ++ rest)%string) in *.
  rewrite leadingInt_nondigit by exact Hc0.
  cbv zeta. unfold consumeFraction. rewrite Hdot.
  rewrite Heq.
  replace (Nat.eqb (String.length (String c r))
                   (String.length (String c0 (u' ++ rest))))
    with false by (symmetry; apply Nat.eqb_neq; lia).
  cbn [negb andb].
  change (String c0 (u' ++ rest)%string) with (String c0 u' ++ rest)%string.
  rewrite spanUnit_app by assumption.
  rewrite Hunit.
  assert (Hq : v <= two63 / unit) by (apply Z.div_le_lower_bound; nia).
  destruct (two63 / unit <? v) eqn:E1; [apply Z.ltb_lt in E1; lia|].
  change (0 <? 0) with false. cbn [andb].
  rewrite two63_value, two64_value in *.
  rewrite Z.mod_small by nia.
  destruct (9223372036854775808 <? d + v * unit) eqn:E2;
    [apply Z.ltb_lt in E2; lia|].
  reflexivity.
Qed.

(** A group with a fraction, for a unit that is a power of ten no
    greater than 10^9, is read back as value and fraction exactly. *)
Lemma parse_group_frac (fuel : nat) (v : Z) (tz k : nat) (w : Z)
      (ustr : string) (rest : string) (d : Z) :
  0 <= v -> ustr <> EmptyString -> noDigits ustr = true ->
  startsNumber rest = true ->
  unitMap ustr = Some (10 ^ Z.of_nat (tz + k)) ->
  (tz + k <= 9)%nat -> (0 < k)%nat ->
  0 <= w -> 0 < w mod 10 ^ Z.of_nat k ->
  0 <= d ->
  d + v * 10 ^ Z.of_nat (tz + k)
    + (w mod 10 ^ Z.of_nat k) * 10 ^ Z.of_nat tz <= two63 ->
  parseDurationLoop (S fuel)
    (fmtInt (String "." (fracDigits k w (ustr ++ rest))) v) d
  = parseDurationLoop fuel rest
      (d + v * 10 ^ Z.of_nat (tz + k)
       + (w mod 10 ^ Z.of_nat k) * 10 ^ Z.of_nat tz).
Proof.
  intros Hv Hne Hnd Hrest Hunit Hp Hk Hw Hfr Hd Hsum.
  set (fr := w mod 10 ^ Z.of_nat k) in *.
  set (buf := String "." (fracDigits k w (ustr ++ rest))).
  destruct (fmtInt_head buf v Hv) as (c & r & Heq & Hc & Hlen).
  destruct (noDigits_head ustr Hne Hnd) as (c0 & u' & -> & Hc0 & Hdot & _).
  pose proof (ten_pow_bound k ltac:(lia)) as Hbk.
  pose proof (ten_pow_bound tz ltac:(lia)) as Hbt.
  assert (Hunitv : 10 ^ Z.of_nat (tz + k) = 10 ^ Z.of_nat tz * 10 ^ Z.of_nat k)
    by (rewrite Nat2Z.inj_add, Z.pow_add_r by lia; reflexivity).
  assert (Hunitb : 0 < 10 ^ Z.of_nat (tz + k) <= 1000000000).
  { split; [apply Z.pow_pos_nonneg; lia|].
    change 1000000000 with (10 ^ 9). apply Z.pow_le_mono_r; lia. }
  assert (Hfrb : fr < 10 ^ Z.of_nat k)
    by (subst fr; apply Z.mod_pos_bound; lia).
  assert (Hfrt : fr * 10 ^ Z.of_nat tz < 10 ^ Z.of_nat (tz + k))
    by (rewrite Hunitv; nia).
  assert (Hvu : 0 <= v * 10 ^ Z.of_nat (tz + k)) by nia.
  rewrite two63_value in Hsum.
  rewrite Heq, parseDurationLoop_S by exact Hc. rewrite <- Heq.
  rewrite leadingInt_fmtInt by (rewrite two63_value; nia).
  unfold buf at 1. rewrite leadingInt_nondigit by reflexivity.
  cbv zeta. unfold consumeFraction. fold buf.
  change (Ascii.eqb "." ".") with true. cbv iota.
  rewrite float64_of_Z_exact by (change (2 ^ 53) with 9007199254740992; lia).
  rewrite leadingFraction_fracDigits by lia. fold fr.
  change (String c0 u' ++ rest)%string with (String c0 (u' ++ rest)%string).
  rewrite leadingFraction_nondigit by exact Hc0.
  rewrite fracDigits_length.
  replace (Nat.eqb (k + String.length (String c0 (u' ++ rest)))
                   (String.length (String c0 (u' ++ rest))))
    with false by (symmetry; apply Nat.eqb_neq; lia).
  cbn [negb andb]. rewrite andb_false_r.
  change (String c0 (u' ++ rest)%string) with (String c0 u' ++ rest)%string.
  rewrite spanUnit_app by assumption.
  rewrite Hunit.
  assert (Hq : v <= two63 / 10 ^ Z.of_nat (tz + k))
    by (apply Z.div_le_lower_bound; rewrite ?two63_value; nia).
  destruct (two63 / _ <? v) eqn:E1; [apply Z.ltb_lt in E1; lia|].
  destruct (0 <? fr) eqn:E0; [|apply Z.ltb_ge in E0; lia].
  assert (Hfl : uint64_of_float64
                  (float64_mul (float64_of_Z fr)
                     (float64_div (float64_of_Z (10 ^ Z.of_nat (tz + k)))
                                  (exactFloat (10 ^ Z.of_nat k))))
                = fr * 10 ^ Z.of_nat tz).
  { rewrite (float64_of_Z_exact fr)
      by (change (2 ^ 53) with 9007199254740992; lia).
    rewrite (float64_of_Z_exact (10 ^ Z.of_nat (tz + k)))
      by (change (2 ^ 53) with 9007199254740992; lia).
    rewrite Hunitv.
    rewrite float64_div_exact
      by (try lia; rewrite <- Hunitv; change (2 ^ 53) with 9007199254740992; lia).
    rewrite float64_mul_exact
      by (try lia; change (2 ^ 53) with 9007199254740992; lia).
    apply exactFloat_value. change (2 ^ 53) with 9007199254740992. nia. }
  rewrite !Hfl. rewrite two63_value, two64_value.
  rewrite (Z.mod_small (v * _ + _)) by nia.
  replace (9223372036854775808 <?
           v * 10 ^ Z.of_nat (tz + k) + fr * 10 ^ Z.of_nat tz)
    with false by (symmetry; apply Z.ltb_ge; lia).
  cbn [andb]. rewrite Z.add_assoc, Z.mod_small by nia.
  replace (9223372036854775808 <?
           d + v * 10 ^ Z.of_nat (tz + k) + fr * 10 ^ Z.of_nat tz)
    with false by (symmetry; apply Z.ltb_ge; lia).
  reflexivity.
Qed.

(** ** [Duration.String] read back by [time.ParseDuration] *)

Lemma fmtFrac_snd (p : nat) (buf : string) (v : Z) (pr : bool) :
  snd (fmtFrac p buf v pr) = v / 10 ^ Z.of_nat p.
Proof.
  revert buf v pr. induction p as [|p IH]; intros buf v pr.
  - cbn [fmtFrac snd]. change (10 ^ Z.of_nat 0) with 1.
    rewrite Z.div_1_r. reflexivity.
  - cbn [fmtFrac]. rewrite IH.
    rewrite Nat2Z.inj_succ, Z.pow_succ_r by lia.
    rewrite Z.div_div by lia. reflexivity.
Qed.

Lemma parseDurationLoop_end (fuel : nat) (d : Z) :
  parseDurationLoop (S fuel) EmptyString d = Some d.
Proof. reflexivity. Qed.

Lemma append_empty_r (s : string) : (s ++ EmptyString)%string = s.
Proof.
  induction s as [|c s IH]; [reflexivity|].
  change (String c s ++ EmptyString)%string with (String c (s ++ EmptyString)%string).
  rewrite IH. reflexivity.
Qed.

(** The last group of a duration, with the fraction [fmtFrac] writes
    for a unit of 10^p nanoseconds. *)
Lemma parse_last_group (fuel : nat) (p : nat) (ustr : string) (u vint d : Z) :
  (p <= 9)%nat -> unitMap ustr = Some (10 ^ Z.of_nat p) ->
  ustr <> EmptyString -> noDigits ustr = true ->
  0 <= u -> 0 <= vint -> 0 <= d ->
  d + vint * 10 ^ Z.of_nat p + u mod 10 ^ Z.of_nat p <= two63 ->
  parseDurationLoop (S (S fuel)) (fmtInt (fst (fmtFrac p ustr u false)) vint) d
  = Some (d + vint * 10 ^ Z.of_nat p + u mod 10 ^ Z.of_nat p).
Proof.
  intros Hp Hunit Hne Hnd Hu Hv Hd Hsum.
  assert (Hpp : 0 < 10 ^ Z.of_nat p) by (apply Z.pow_pos_nonneg; lia).
  destruct (fmtFrac_false p ustr u Hu)
    as [[Hz Heq] | (tz & k & Hpk & Hk & Hz & Hnz & Heq)]; rewrite Heq; cbn [fst].
  - rewrite <- (append_empty_r ustr) at 1.
    rewrite parse_group_int with (unit := 10 ^ Z.of_nat p);
      try assumption; try reflexivity; try lia.
    rewrite Hz, Z.add_0_r. apply parseDurationLoop_end.
  - subst p.
    assert (Hpt : 0 < 10 ^ Z.of_nat tz) by (apply Z.pow_pos_nonneg; lia).
    assert (Hpk : 0 < 10 ^ Z.of_nat k) by (apply Z.pow_pos_nonneg; lia).
    assert (Hsplit : 10 ^ Z.of_nat (tz + k) = 10 ^ Z.of_nat tz * 10 ^ Z.of_nat k)
      by (rewrite Nat2Z.inj_add, Z.pow_add_r by lia; reflexivity).
    set (w := u / 10 ^ Z.of_nat tz) in *.
    assert (Huw : u = 10 ^ Z.of_nat tz * w).
    { subst w. pose proof (Z.div_mod u (10 ^ Z.of_nat tz) ltac:(lia)). lia. }
    assert (Hmod : u mod 10 ^ Z.of_nat (tz + k)
                   = (w mod 10 ^ Z.of_nat k) * 10 ^ Z.of_nat tz).
    { rewrite Hsplit, Huw at 1. rewrite Z.mul_mod_distr_l by lia. ring. }
    assert (Hw0 : 0 <= w) by (subst w; apply Z.div_pos; lia).
    assert (Hfr : 0 < w mod 10 ^ Z.of_nat k).
    { pose proof (Z.mod_pos_bound w (10 ^ Z.of_nat k) ltac:(lia)) as Hb.
      destruct (Z.eq_dec (w mod 10 ^ Z.of_nat k) 0) as [E|E]; [|lia].
      exfalso. apply Hnz.
      destruct k as [|k]; [lia|].
      rewrite Nat2Z.inj_succ, Z.pow_succ_r in E by lia.
      rewrite Z.rem_mul_r in E by lia.
      pose proof (Z.mod_pos_bound w 10 ltac:(lia)).
      pose proof (Z.mod_pos_bound (w / 10) (10 ^ Z.of_nat k)
                    ltac:(apply Z.pow_pos_nonneg; lia)).
      nia. }
    rewrite <- (append_empty_r ustr) at 1.
    rewrite parse_group_frac with (tz := tz); try assumption; try lia;
      [rewrite Hmod; apply parseDurationLoop_end | reflexivity].
Qed.

(** *** [ParseDuration] reads back what [Duration.format] writes *)

Lemma fmtInt_startsNumber (buf : string) (v : Z) :
  0 <= v -> startsNumber (fmtInt buf v) = true.
Proof.
  intros Hv. destruct (fmtInt_head buf v Hv) as (c & r & E & Hc & _).
  rewrite E. cbn [startsNumber]. rewrite Hc. apply orb_true_r.
Qed.

Lemma fmtInt_longer (buf : string) (v : Z) :
  0 <= v -> (String.length buf < String.length (fmtInt buf v))%nat.
Proof.
  intros Hv. destruct (fmtInt_head buf v Hv) as (c & r & E & _ & Hl).
  rewrite E. exact Hl.
Qed.

Lemma fmtFrac_pair (p : nat) (buf : string) (v : Z) :
  fmtFrac p buf v false = (fst (fmtFrac p buf v false), v / 10 ^ Z.of_nat p).
Proof.
  rewrite <- (fmtFrac_snd p buf v false).
  destruct (fmtFrac p buf v false); reflexivity.
Qed.

Lemma parse_single (fuel : nat) (p : nat) (ustr : string) (u : Z) :
  (p <= 9)%nat -> unitMap ustr = Some (10 ^ Z.of_nat p) ->
  ustr <> EmptyString -> noDigits ustr = true ->
  0 <= u <= two63 ->
  parseDurationLoop (S (S fuel))
    (let '(w, u1) := fmtFrac p ustr u false in fmtInt w u1) 0 = Some u.
Proof.
  intros Hp Hunit Hne Hnd Hu.
  assert (Hpp : 0 < 10 ^ Z.of_nat p) by (apply Z.pow_pos_nonneg; lia).
  pose proof (Z.div_mod u (10 ^ Z.of_nat p) ltac:(lia)) as Hdm.
  pose proof (Z.mod_pos_bound u (10 ^ Z.of_nat p) Hpp) as Hmb.
  assert (Hq : 0 <= u / 10 ^ Z.of_nat p) by (apply Z.div_pos; lia).
  rewrite fmtFrac_pair.
  rewrite parse_last_group; try assumption; try lia.
  f_equal. lia.
Qed.

Lemma durationBody_seconds (u : Z) :
  Second <= u ->
  durationBody u =
  let w1 := fmtInt (fst (fmtFrac 9 "s" u false)) ((u / Second) mod 60) in
  let u2 := u / Second / 60 in
  if 0 <? u2 then
    let w2 := fmtInt ("m" ++ w1) (u2 mod 60) in
    let u3 := u2 / 60 in
    if 0 <? u3 then fmtInt ("h" ++ w2) u3 else w2
  else w1.
Proof.
  intros Hu. unfold durationBody.
  replace (u <? Second) with false by (symmetry; apply Z.ltb_ge; lia).
  rewrite fmtFrac_pair. reflexivity.
Qed.

Lemma parse_durationBody (u : Z) (fuel : nat) :
  0 < u <= two63 ->
  (String.length (durationBody u) <= fuel)%nat ->
  parseDurationLoop (S fuel) (durationBody u) 0 = Some u.
Proof.
  intros Hu.
  destruct (Z.ltb_spec u Second) as [Hlt | Hge].
  - (* below one second: a single group *)
    assert (Hlen : (1 <= String.length (durationBody u))%nat).
    { unfold durationBody.
      replace (u <? Second) with true by (symmetry; apply Z.ltb_lt; lia).
      replace (u =? 0) with false by (symmetry; apply Z.eqb_neq; lia).
      destruct (u <? Microsecond); [|destruct (u <? Millisecond)];
        rewrite fmtFrac_pair;
        match goal with
        | |- context [fmtInt ?b ?v] =>
            pose proof (fmtInt_longer b v ltac:(apply Z.div_pos;
              [lia | apply Z.pow_pos_nonneg; lia]))
        end; lia. }
    intros Hf. destruct fuel as [|fuel]; [lia|].
    unfold durationBody.
    replace (u <? Second) with true by (symmetry; apply Z.ltb_lt; lia).
    replace (u =? 0) with false by (symmetry; apply Z.eqb_neq; lia).
    destruct (u <? Microsecond); [|destruct (u <? Millisecond)];
      apply parse_single; try reflexivity; try discriminate; lia.
  - (* seconds, minutes and hours *)
    rewrite durationBody_seconds by assumption.
    assert (HS : Second = 1000000000) by reflexivity.
    assert (HM : Minute = 60000000000) by reflexivity.
    assert (HH : Hour = 3600000000000) by reflexivity.
    assert (H9 : 10 ^ Z.of_nat 9 = Second) by reflexivity.
    set (u1 := u / Second).
    pose proof (Z.div_mod u Second ltac:(lia)) as Hdm1.
    pose proof (Z.mod_pos_bound u Second ltac:(lia)) as Hmb1.
    pose proof (Z.div_mod u1 60 ltac:(lia)) as Hdm2.
    pose proof (Z.mod_pos_bound u1 60 ltac:(lia)) as Hmb2.
    pose proof (Z.div_mod (u1 / 60) 60 ltac:(lia)) as Hdm3.
    pose proof (Z.mod_pos_bound (u1 / 60) 60 ltac:(lia)) as Hmb3.
    assert (Hu1 : 0 <= u1) by (apply Z.div_pos; lia).
    assert (Hu2 : 0 <= u1 / 60) by (apply Z.div_pos; lia).
    assert (Hu3 : 0 <= u1 / 60 / 60) by (apply Z.div_pos; lia).
    fold u1 in Hdm1.
    set (w1 := fmtInt (fst (fmtFrac 9 "s" u false)) (u1 mod 60)).
    assert (Hw1 : startsNumber w1 = true) by (apply fmtInt_startsNumber; lia).
    assert (Hl1 : (1 <= String.length w1)%nat).
    { pose proof (fmtInt_longer (fst (fmtFrac 9 "s" u false)) (u1 mod 60)
                    ltac:(lia)). subst w1. lia. }
    cbv zeta.
    destruct (Z.ltb_spec 0 (u1 / 60)) as [Hm | Hm].
    + set (w2 := fmtInt ("m" ++ w1) (u1 / 60 mod 60)).
      assert (Hw2 : startsNumber w2 = true) by (apply fmtInt_startsNumber; lia).
      assert (Hl2 : (3 <= String.length w2)%nat).
      { pose proof (fmtInt_longer ("m" ++ w1) (u1 / 60 mod 60) ltac:(lia)) as L.
        change (String.length ("m" ++ w1)) with (S (String.length w1)) in L.
        subst w2. lia. }
      destruct (Z.ltb_spec 0 (u1 / 60 / 60)) as [Hh | Hh].
      * intros Hf.
        pose proof (fmtInt_longer ("h" ++ w2) (u1 / 60 / 60) ltac:(lia)) as L.
        change (String.length ("h" ++ w2)) with (S (String.length w2)) in L.
        destruct fuel as [|[|[|fuel]]]; try lia.
        rewrite parse_group_int with (unit := Hour);
          try assumption; try reflexivity; try discriminate; try lia.
        subst w2.
        rewrite parse_group_int with (unit := Minute);
          try assumption; try reflexivity; try discriminate; try lia.
        subst w1.
        rewrite parse_last_group;
          try assumption; try reflexivity; try discriminate;
          try (rewrite ?H9; lia).
        f_equal. rewrite H9. lia.
      * intros Hf. destruct fuel as [|[|fuel]]; try lia.
        subst w2.
        rewrite parse_group_int with (unit := Minute);
          try assumption; try reflexivity; try discriminate; try lia.
        subst w1.
        rewrite parse_last_group;
          try assumption; try reflexivity; try discriminate;
          try (rewrite ?H9; lia).
        f_equal. rewrite H9. lia.
    + intros Hf. destruct fuel as [|fuel]; try lia.
      subst w1.
      rewrite parse_last_group;
        try assumption; try reflexivity; try discriminate;
        try (rewrite ?H9; lia).
      f_equal. rewrite H9. lia.
Qed.

(** *** [time.ParseDuration] after [Duration.String] *)

Lemma parseDurationLoop_range :
  forall (fuel : nat) (s : string) (d r : Z),
    0 <= d <= two63 ->
    parseDurationLoop fuel s d = Some r -> 0 <= r <= two63.
Proof.
  induction fuel as [|fuel IH]; intros s d r Hd H; [discriminate|].
  cbn [parseDurationLoop] in H.
  destruct s as [|c s']; [injection H as <-; exact Hd|].
  destruct (negb (Ascii.eqb c "." || isDigit c)); [discriminate|].
  destruct (leadingInt (String c s') 0) as [[v s1]|]; [|discriminate].
  cbv zeta in H.
  destruct (consumeFraction s1) as [[[f scale] s2] post].
  destruct (negb _ && negb post); [discriminate|].
  destruct (spanUnit s2) as [u s3].
  destruct u as [|uc ur]; [discriminate|].
  destruct (unitMap (String uc ur)) as [unit|]; [|discriminate].
  destruct (two63 / unit <? v); [discriminate|].
  match type of H with
  | (if ?b then _ else _) = _ => destruct b; [discriminate|]
  end.
  match type of H with
  | (if two63 <? ?x then _ else _) = _ =>
      destruct (Z.ltb_spec two63 x) as [|Hle]; [discriminate|];
      apply IH in H; [exact H|];
      split; [apply Z.mod_pos_bound; reflexivity | exact Hle]
  end.
Qed.

Lemma time_ParseDuration_range (s : string) (d : Z) :
  time_ParseDuration s = Ok d -> - two63 <= d <= two63 - 1.
Proof.
  unfold time_ParseDuration.
  assert (H63 : 0 < two63) by reflexivity.
  destruct (match s with
            | String c r =>
                if Ascii.eqb c "-" then (true, r)
                else if Ascii.eqb c "+" then (false, r) else (false, s)
            | EmptyString => (false, s)
            end) as [neg s1].
  destruct (String.eqb s1 "0"); [intros [= <-]; lia|].
  destruct (String.eqb s1 EmptyString); [discriminate|].
  destruct (parseDurationLoop (S (String.length s1)) s1 0) as [r|] eqn:E;
    [|discriminate].
  apply parseDurationLoop_range in E; [|lia].
  destruct neg; [intros [= <-]; lia|].
  destruct (Z.ltb_spec (two63 - 1) r); [discriminate|].
  intros [= <-]; lia.
Qed.

Lemma time_ParseDuration_body (u : Z) :
  0 < u <= two63 ->
  time_ParseDuration (durationBody u)
  = (if two63 - 1 <? u then Err (DurationError "invalid duration") else Ok u) /\
  time_ParseDuration (String "-" (durationBody u)) = Ok (- u).
Proof.
  intros Hu.
  pose proof (parse_durationBody u (String.length (durationBody u)) Hu
                (Nat.le_refl _)) as H.
  destruct (durationBody u) as [|c r] eqn:E.
  { cbn in H. injection H as H. lia. }
  assert (Hc : Ascii.eqb c "." || isDigit c = true).
  { cbn [parseDurationLoop] in H.
    destruct (Ascii.eqb c "." || isDigit c); [reflexivity|discriminate]. }
  assert (Hm : Ascii.eqb c "-" = false).
  { destruct (Ascii.eqb_spec c "-") as [->|]; [discriminate|reflexivity]. }
  assert (Hp : Ascii.eqb c "+" = false).
  { destruct (Ascii.eqb_spec c "+") as [->|]; [discriminate|reflexivity]. }
  assert (H0 : String.eqb (String c r) "0" = false).
  { destruct (String.eqb_spec (String c r) "0") as [E0|]; [|reflexivity].
    injection E0 as -> ->. vm_compute in H. discriminate. }
  split.
  - unfold time_ParseDuration. rewrite Hm, Hp, H0.
    change (String.eqb (String c r) EmptyString) with false.
    cbv iota beta. rewrite H. reflexivity.
  - unfold time_ParseDuration.
    change (Ascii.eqb "-" "-") with true. cbv iota beta.
    rewrite H0.
    change (String.eqb (String c r) EmptyString) with false.
    cbv iota beta. rewrite H. reflexivity.
Qed.

Lemma time_ParseDuration_String (d : Z) :
  - two63 <= d <= two63 - 1 ->
  time_ParseDuration (Duration_String d) = Ok d.
Proof.
  intros Hd. unfold Duration_String.
  destruct (Z.ltb_spec d 0) as [Hneg | Hpos].
  - destruct (time_ParseDuration_body (Z.abs d) ltac:(lia)) as [_ H].
    rewrite H. f_equal. lia.
  - destruct (Z.eq_dec d 0) as [-> | Hnz]; [reflexivity|].
    destruct (time_ParseDuration_body (Z.abs d) ltac:(lia)) as [H _].
    rewrite H.
    replace (two63 - 1 <? Z.abs d) with false
      by (symmetry; apply Z.ltb_ge; lia).
    f_equal. lia.
Qed.

(** *** [json.Marshal] copies the text of a duration as it is *)

Lemma copiedVerbatim_empty : copiedVerbatim EmptyString.
Proof. split; [intros [|fuel] _; reflexivity | reflexivity]. Qed.

Lemma htmlSafe_ascii (c : ascii) :
  htmlSafe c = true -> (code c <? 128) = true /\ Ascii.eqb c dquote = false.
Proof.
  unfold htmlSafe. intros H.
  apply andb_prop in H as [H Hn]. apply andb_prop in H as [_ H].
  split; [exact H|].
  destruct (Ascii.eqb_spec c dquote) as [->|]; [discriminate|reflexivity].
Qed.

Lemma copiedVerbatim_cons (c : ascii) (s : string) :
  htmlSafe c = true -> copiedVerbatim s -> copiedVerbatim (String c s).
Proof.
  intros Hc [Hs Hq]. destruct (htmlSafe_ascii c Hc) as [H128 Hdq]. split.
  - intros [|fuel] Hf; cbn [String.length] in Hf; [lia|].
    cbn [appendStringBody]. rewrite H128, Hc, Hs by lia. reflexivity.
  - cbn [removeQuotes]. rewrite Hdq, Hq. reflexivity.
Qed.

Lemma copiedVerbatim_micro : copiedVerbatim (microSign ++ "s").
Proof.
  split; [|reflexivity].
  intros fuel Hf.
  change (String.length (microSign ++ "s")) with 3%nat in Hf.
  destruct fuel as [|[|[|fuel]]]; try lia. reflexivity.
Qed.

Lemma copiedVerbatim_fmtDigits :
  forall (fuel : nat) (v : Z) (acc : string),
    copiedVerbatim acc -> copiedVerbatim (fmtDigits fuel v acc).
Proof.
  induction fuel as [|fuel IH]; intros v acc H; [exact H|].
  rewrite fmtDigits_S. destruct (0 <? v); [|exact H].
  apply IH, copiedVerbatim_cons; [|exact H].
  apply digitChar_props, mod10_digit.
Qed.

Lemma copiedVerbatim_fmtInt (buf : string) (v : Z) :
  copiedVerbatim buf -> copiedVerbatim (fmtInt buf v).
Proof.
  intros H. unfold fmtInt. destruct (v =? 0).
  - apply copiedVerbatim_cons; [reflexivity | exact H].
  - apply copiedVerbatim_fmtDigits, H.
Qed.

Lemma copiedVerbatim_fmtFrac :
  forall (p : nat) (buf : string) (v : Z) (pr : bool),
    copiedVerbatim buf -> copiedVerbatim (fst (fmtFrac p buf v pr)).
Proof.
  induction p as [|p IH]; intros buf v pr H; cbn [fmtFrac].
  - destruct pr; cbn [fst]; [|exact H].
    apply copiedVerbatim_cons; [reflexivity | exact H].
  - apply IH. destruct (pr || negb (v mod 10 =? 0)); [|exact H].
    apply copiedVerbatim_cons; [|exact H].
    apply digitChar_props, mod10_digit.
Qed.

Lemma copiedVerbatim_group (p : nat) (buf : string) (u : Z) :
  copiedVerbatim buf ->
  copiedVerbatim (let '(w, u1) := fmtFrac p buf u false in fmtInt w u1).
Proof.
  intros H. rewrite fmtFrac_pair.
  apply copiedVerbatim_fmtInt, copiedVerbatim_fmtFrac, H.
Qed.

Lemma copiedVerbatim_durationBody (u : Z) : copiedVerbatim (durationBody u).
Proof.
  assert (Hs : copiedVerbatim "s")
    by (apply copiedVerbatim_cons; [reflexivity | apply copiedVerbatim_empty]).
  unfold durationBody.
  destruct (u <? Second).
  - destruct (u =? 0).
    { apply copiedVerbatim_cons; [reflexivity | exact Hs]. }
    destruct (u <? Microsecond); [|destruct (u <? Millisecond)];
      apply copiedVerbatim_group.
    + apply copiedVerbatim_cons; [reflexivity | exact Hs].
    + apply copiedVerbatim_micro.
    + apply copiedVerbatim_cons; [reflexivity | exact Hs].
  - rewrite fmtFrac_pair.
    assert (H1 : copiedVerbatim
                   (fmtInt (fst (fmtFrac 9 "s" u false))
                      ((u / 10 ^ Z.of_nat 9) mod 60)))
      by (apply copiedVerbatim_fmtInt, copiedVerbatim_fmtFrac, Hs).
    cbv zeta.
    destruct (0 <? u / 10 ^ Z.of_nat 9 / 60); [|exact H1].
    assert (H2 : copiedVerbatim
                   (fmtInt
                      (String "m" (fmtInt (fst (fmtFrac 9 "s" u false))
                                     ((u / 10 ^ Z.of_nat 9) mod 60)))
                      ((u / 10 ^ Z.of_nat 9 / 60) mod 60)))
      by (apply copiedVerbatim_fmtInt, copiedVerbatim_cons;
          [reflexivity | exact H1]).
    destruct (0 <? u / 10 ^ Z.of_nat 9 / 60 / 60); [|exact H2].
    apply copiedVerbatim_fmtInt, copiedVerbatim_cons; [reflexivity | exact H2].
Qed.

Lemma copiedVerbatim_Duration_String (d : Z) :
  copiedVerbatim (Duration_String d).
Proof.
  unfold Duration_String. destruct (d <? 0).
  - apply copiedVerbatim_cons;
      [reflexivity | apply copiedVerbatim_durationBody].
  - apply copiedVerbatim_durationBody.
Qed.

Lemma removeQuotes_app (s t : string) :
  removeQuotes (s ++ t) = (removeQuotes s ++ removeQuotes t)%string.
Proof.
  induction s as [|c s IH].
  - reflexivity.
  - change (String c s ++ t)%string with (String c (s ++ t)).
    cbn [removeQuotes]. rewrite IH.
    destruct (Ascii.eqb c dquote); reflexivity.
Qed.

Lemma removeQuotes_Marshal (s : string) :
  copiedVerbatim s -> removeQuotes (json_Marshal_string s) = s.
Proof.
  intros [Hs Hq]. unfold json_Marshal_string.
  rewrite Hs by lia.
  cbn [removeQuotes]. change (Ascii.eqb dquote dquote) with true. cbv iota.
  rewrite removeQuotes_app, Hq.
  change (removeQuotes (str1 dquote)) with EmptyString.
  apply append_empty_r.
Qed.

(** C7: a duration that [Duration.UnmarshalJSON] accepts survives the
    round trip: for every input [p] that is decoded to a duration [d]
    (the input ["1h23m45.67s"] in its quotes is one), the text that
    [Duration.MarshalJSON] writes for [d] is decoded to [d] again. *)
Theorem C7_duration_round_trip (p : string) (d : Z) :
  Duration_UnmarshalJSON p = Ok d ->
  Duration_UnmarshalJSON (Duration_MarshalJSON d) = Ok d.
Proof.
  unfold Duration_UnmarshalJSON, Duration_MarshalJSON. intros H.
  rewrite removeQuotes_Marshal by apply copiedVerbatim_Duration_String.
  apply time_ParseDuration_String.
  exact (time_ParseDuration_range _ _ H).
Qed.

Lemma C7_duration_round_trip_witness :
  Duration_UnmarshalJSON (sq "'1h23m45.67s'") = Ok 5025670000000 /\
  Duration_MarshalJSON 5025670000000 = sq "'1h23m45.67s'" /\
  Duration_UnmarshalJSON (Duration_MarshalJSON 5025670000000)
  = Ok 5025670000000.
Proof.
  split; [vm_compute; reflexivity|].
  split; [vm_compute; reflexivity|].
  apply (C7_duration_round_trip (sq "'1h23m45.67s'") 5025670000000).
  vm_compute; reflexivity.
Defined.

(** * Further properties of the decoders (types.go) *)

(** Every [int64] duration survives [Duration.MarshalJSON] followed by
    [Duration.UnmarshalJSON]: the text written for [d] is read back as
    [d], the smallest and the largest duration included. *)
Theorem Duration_marshal_then_unmarshal (d : Z) :
  - two63 <= d <= two63 - 1 ->
  Duration_UnmarshalJSON (Duration_MarshalJSON d) = Ok d.
Proof.
  intros Hd. unfold Duration_UnmarshalJSON, Duration_MarshalJSON.
  rewrite removeQuotes_Marshal by apply copiedVerbatim_Duration_String.
  apply time_ParseDuration_String, Hd.
Qed.

Lemma Duration_marshal_then_unmarshal_witness :
  Duration_MarshalJSON (- two63) = sq "'-2562047h47m16.854775808s'" /\
  Duration_UnmarshalJSON (Duration_MarshalJSON (- two63)) = Ok (- two63).
Proof.
  split; [vm_compute; reflexivity|].
  apply (Duration_marshal_then_unmarshal (- two63)).
  unfold two63. lia.
Defined.

(** [DecodedAlert.UnmarshalJSON] and its receiver.  Whatever map the
    receiver holds, an input has one of three outcomes: an error, with
    the receiver left as it was; no error and the receiver left as it
    was (the empty string, or null); or no error and a new map that
    replaces the receiver's, with nothing of the old map kept. *)
Theorem DecodedAlert_outcomes (fmt_q : string -> string) (data : string) :
  (exists e, forall v, DecodedAlert_UnmarshalJSON fmt_q v data = (v, Some e)) \/
  (forall v, DecodedAlert_UnmarshalJSON fmt_q v data = (v, None)) \/
  (exists m, forall v, DecodedAlert_UnmarshalJSON fmt_q v data = (Some m, None)).
Proof.
  unfold DecodedAlert_UnmarshalJSON.
  destruct (json_Unmarshal_string data EmptyString) as [s [e|]].
  { left. eexists. intros v. reflexivity. }
  destruct (String.eqb s EmptyString).
  { right. left. intros v. reflexivity. }
  destruct (json_Unmarshal_entries s (Some [])) as [es [e|]].
  { left. eexists. intros v. reflexivity. }
  right. right. eexists. intros v. reflexivity.
Qed.

(** The loop body of [DecodedAlert.UnmarshalJSON] writes the key of its
    entry and no other. *)
Lemma alertEntry_other (fmt_q : string -> string) (m : gmap string string)
      (e : entry) (k : string) :
  k <> Name e -> alertEntry fmt_q m e !! k = m !! k.
Proof.
  intros Hk. unfold alertEntry.
  destruct (Units e);
    try (rewrite lookup_insert_ne by congruence; reflexivity).
  destruct (negb _ && negb _);
    rewrite ?lookup_insert_ne by congruence; reflexivity.
Qed.

Lemma fold_alertEntry_snoc (fmt_q : string -> string) (es : list entry)
      (e : entry) (m : gmap string string) :
  fold_left (alertEntry fmt_q) (es ++ [e]) m
  = alertEntry fmt_q (fold_left (alertEntry fmt_q) es m) e.
Proof. rewrite fold_left_app. reflexivity. Qed.

Lemma fold_alertEntry_keys (fmt_q : string -> string) (es : list entry)
      (k : string) :
  is_Some (fold_left (alertEntry fmt_q) es ∅ !! k) <-> In k (map Name es).
Proof.
  induction es as [|e es IH] using rev_ind.
  - cbn. rewrite lookup_empty. split; [intros [x Hx]; discriminate | tauto].
  - rewrite fold_alertEntry_snoc, map_app, in_app_iff. cbn [map In].
    destruct (String.eqb_spec k (Name e)) as [-> | Hne].
    + rewrite alertEntry_lookup. split; [auto | eauto].
    + rewrite alertEntry_other by assumption. rewrite IH.
      split; [tauto | intros [H | [H | []]]; [exact H | congruence]].
Qed.

Lemma fold_alertEntry_last (fmt_q : string -> string) (es : list entry)
      (k : string) (e : entry) :
  last (List.filter (fun x => String.eqb (Name x) k) es) = Some e ->
  fold_left (alertEntry fmt_q) es ∅ !! k = alertEntry fmt_q ∅ e !! k.
Proof.
  induction es as [|x es IH] using rev_ind; [discriminate|].
  rewrite List.filter_app, fold_alertEntry_snoc. cbn [List.filter].
  destruct (String.eqb_spec (Name x) k) as [Hx | Hx].
  - rewrite last_snoc. intros [= ->]. subst k.
    rewrite !alertEntry_lookup. reflexivity.
  - rewrite app_nil_r. intros H.
    rewrite alertEntry_other by congruence. apply IH, H.
Qed.

(** The map [DecodedAlert.UnmarshalJSON] builds from a list of entries:
    its keys are the names of the entries; an entry decides the text at
    its name alone, whatever the other entries are, and where several
    entries share a name the last one wins.  The text is the value (a
    string as it is, a number as [FormatFloat] writes it), followed by
    a space and the units when the units are a non-empty string and
    the value's text is not empty. *)
Theorem DecodedAlert_entries (fmt_q : string -> string)
        (v : option (gmap string string)) (data s : string)
        (es : list entry) :
  parseJSON data = Some (JString s) -> s <> EmptyString ->
  json_Unmarshal_entries s (Some []) = (Some es, None) ->
  exists m,
    DecodedAlert_UnmarshalJSON fmt_q v data = (Some m, None) /\
    (forall k, is_Some (m !! k) <-> In k (map Name es)) /\
    (forall k e,
       last (List.filter (fun x => String.eqb (Name x) k) es) = Some e ->
       m !! k =
       Some (match Units e with
             | VString u =>
               if negb (String.eqb (valueText fmt_q e) EmptyString) &&
                  negb (String.eqb u EmptyString)
               then (valueText fmt_q e ++ " " ++ u)%string
               else valueText fmt_q e
             | _ => valueText fmt_q e
             end)).
Proof.
  intros Hp Hs He.
  rewrite (DecodedAlert_inner fmt_q v data s Hp Hs), He.
  exists (fold_left (alertEntry fmt_q) es ∅). split; [reflexivity|]. split.
  - intros k. apply fold_alertEntry_keys.
  - intros k e Hl.
    assert (Hk : Name e = k).
    { assert (Hin : In e (List.filter (fun x => String.eqb (Name x) k) es)).
      { destruct (List.filter _ es) as [|a l] using rev_ind; [discriminate|].
        rewrite last_snoc in Hl. injection Hl as ->.
        apply in_or_app. right. left. reflexivity. }
      apply List.filter_In in Hin as [_ Hin]. apply String.eqb_eq, Hin. }
    rewrite (fold_alertEntry_last fmt_q es k e Hl). subst k.
    apply alertEntry_lookup.
Qed.

Lemma DecodedAlert_entries_witness :
  exists m,
    DecodedAlert_UnmarshalJSON (fun b => b) None
      (json_Marshal_string
         (sq "[{'name':'a','value':'1','units':'Hz'},{'name':'b','value':'x','units':'V'},{'name':'a','value':'y','units':''}]"))
    = (Some m, None) /\
    m !! "a" = Some "y" /\ m !! "b" = Some "x V" /\ m !! "c" = None.
Proof.
  destruct (DecodedAlert_entries (fun b => b) None
              (json_Marshal_string
                 (sq "[{'name':'a','value':'1','units':'Hz'},{'name':'b','value':'x','units':'V'},{'name':'a','value':'y','units':''}]"))
              (sq "[{'name':'a','value':'1','units':'Hz'},{'name':'b','value':'x','units':'V'},{'name':'a','value':'y','units':''}]")
              [mkEntry "a" (VString "1") (VString "Hz");
               mkEntry "b" (VString "x") (VString "V");
               mkEntry "a" (VString "y") (VString EmptyString)])
    as (m & Hm & Hkeys & Hlast).
  - vm_compute; reflexivity.
  - discriminate.
  - vm_compute; reflexivity.
  - exists m. split; [exact Hm|]. split; [|split].
    + apply (Hlast "a" (mkEntry "a" (VString "y") (VString EmptyString))).
      reflexivity.
    + apply (Hlast "b" (mkEntry "b" (VString "x") (VString "V"))). reflexivity.
    + destruct (m !! "c") eqn:E; [|reflexivity].
      exfalso. destruct (proj1 (Hkeys "c") (ex_intro _ _ E)) as [H|[H|[H|[]]]];
        discriminate.
Defined.

(** * Further properties of the client (client.go) *)

(** ** [httpDo]: how many attempts, and how long *)

Lemma now_callDo (c : Client) (req : Request) (w : World) :
  now (snd (callDo c req w))
  = now w + Z.max 0 (fst (Do (httpClient c) (calls w) req)) /\
  calls (snd (callDo c req w)) = S (calls w).
Proof. rewrite callDo_eq. split; reflexivity. Qed.

Lemma now_sleep (d : Z) (w : World) :
  now (sleep d w) = now w + Z.max 0 d /\ calls (sleep d w) = calls w.
Proof. split; reflexivity. Qed.

Lemma httpDoLoop_attempts (c : Client) (req : Request) (start : Z) :
  forall (fuel : nat) (w : World) (res : result Response) (w' : World),
    httpDoLoop c fuel req start w = Some (res, w') ->
    calls w' = S (calls w) \/
    ((S (calls w) < calls w')%nat /\
     (Z.of_nat (calls w') - Z.of_nat (calls w) - 2) * retryInterval c
     + (now w - start) < retryTimeout c).
Proof.
  induction fuel as [|fuel IH]; intros w res w' H; [discriminate|].
  rewrite httpDoLoop_S in H. cbv zeta in H.
  destruct (now_callDo c req w) as [Hn Hc].
  set (w1 := snd (callDo c req w)) in *.
  set (dur := Z.max 0 (fst (Do (httpClient c) (calls w) req))) in *.
  assert (Hdur : 0 <= dur) by (subst dur; lia).
  destruct (negb (isNetError _)).
  { injection H as _ <-. left. exact Hc. }
  destruct (Z.leb_spec (retryTimeout c) (now w1 - start)) as [Hto | Hto].
  { injection H as _ <-. left. exact Hc. }
  apply IH in H.
  destruct (now_sleep (retryInterval c - (now w1 - now w)) w1) as [Hn2 Hc2].
  set (w2 := sleep (retryInterval c - (now w1 - now w)) w1) in *.
  right. destruct H as [H | [Hlt H]].
  - split; [lia|].
    replace (Z.of_nat (calls w') - Z.of_nat (calls w) - 2) with 0 by lia.
    lia.
  - split; [lia|].
    replace (Z.of_nat (calls w') - Z.of_nat (calls w) - 2)
      with ((Z.of_nat (calls w') - Z.of_nat (calls w2) - 2) + 1) by lia.
    assert (0 <= Z.of_nat (calls w') - Z.of_nat (calls w2) - 2) by lia.
    nia.
Qed.

(** The number of attempts of one [httpDo] call is bounded by the retry
    settings: there is at least one attempt; when there are [n >= 2]
    attempts, [n - 2] intervals fit below the timeout; so with a
    positive interval there are at most [2 + timeout / interval]
    attempts. *)
Theorem httpDo_attempts_bounded (c : Client) (fuel : nat) (req : Request)
        (w : World) (res : result Response) (w' : World) :
  httpDo c fuel req w = Some (res, w') ->
  let n := Z.of_nat (calls w' - calls w) in
  1 <= n /\
  (2 <= n -> (n - 2) * retryInterval c < retryTimeout c) /\
  (0 < retryInterval c ->
   n <= 2 + Z.max 0 (retryTimeout c) / retryInterval c).
Proof.
  unfold httpDo. intros H. apply httpDoLoop_attempts in H.
  change (calls (emit (EvHttpDo req) w)) with (calls w) in H.
  change (now (emit (EvHttpDo req) w)) with (now w) in H.
  cbv zeta.
  assert (Hcore : 1 <= Z.of_nat (calls w' - calls w) /\
                  (2 <= Z.of_nat (calls w' - calls w) ->
                   (Z.of_nat (calls w' - calls w) - 2) * retryInterval c
                   < retryTimeout c)).
  { destruct H as [H | [Hlt H]].
    - rewrite H. split; [lia|]. lia.
    - split; [lia|]. intros _.
      replace (Z.of_nat (calls w' - calls w))
        with (Z.of_nat (calls w') - Z.of_nat (calls w)) by lia.
      lia. }
  destruct Hcore as [H1 H2]. split; [exact H1|]. split; [exact H2|].
  intros Hi.
  destruct (Z_lt_le_dec (Z.of_nat (calls w' - calls w)) 2) as [Hs | Hs].
  - assert (0 <= Z.max 0 (retryTimeout c) / retryInterval c)
      by (apply Z.div_pos; lia).
    lia.
  - specialize (H2 Hs).
    assert (Z.of_nat (calls w' - calls w) - 2
            <= Z.max 0 (retryTimeout c) / retryInterval c).
    { apply Z.div_le_lower_bound; [exact Hi|]. nia. }
    lia.
Qed.

Lemma httpDo_attempts_bounded_witness :
  exists res w',
    httpDo (clientOf networkDown 10 25) 9 statusRequest world0 = Some (res, w') /\
    calls w' = 3%nat /\
    Z.of_nat (calls w' - calls world0) <= 2 + Z.max 0 25 / 10.
Proof.
  eexists _, _. split; [vm_compute; reflexivity|].
  split; [reflexivity|].
  pose proof (httpDo_attempts_bounded
                (clientOf networkDown 10 25) 9 statusRequest world0) as H.
  specialize (H _ _ ltac:(vm_compute; reflexivity)).
  destruct H as (_ & _ & H). apply H. cbn. lia.
Defined.

Lemma httpDoLoop_elapsed (c : Client) (req : Request) (start D : Z) :
  (forall n r, fst (Do (httpClient c) n r) <= D) ->
  forall (fuel : nat) (w : World) (res : result Response) (w' : World),
    httpDoLoop c fuel req start w = Some (res, w') ->
    now w <= now w' /\
    (now w' <= now w + Z.max 0 D \/
     now w' - start
     < retryTimeout c + Z.max 0 (retryInterval c) + Z.max 0 D).
Proof.
  intros HD.
  induction fuel as [|fuel IH]; intros w res w' H; [discriminate|].
  rewrite httpDoLoop_S in H. cbv zeta in H.
  destruct (now_callDo c req w) as [Hn _].
  pose proof (HD (calls w) req) as Hd.
  set (w1 := snd (callDo c req w)) in *.
  destruct (negb (isNetError _)).
  { injection H as _ <-. lia. }
  destruct (Z.leb_spec (retryTimeout c) (now w1 - start)) as [Hto | Hto].
  { injection H as _ <-. lia. }
  apply IH in H.
  destruct (now_sleep (retryInterval c - (now w1 - now w)) w1) as [Hn2 _].
  set (w2 := sleep (retryInterval c - (now w1 - now w)) w1) in *.
  lia.
Qed.

Lemma httpDo_returns (c : Client) (req : Request) (w : World) :
  0 < retryInterval c ->
  exists fuel0,
    forall fuel, (fuel0 <= fuel)%nat ->
    exists res w', httpDo c fuel req w = Some (res, w').
Proof.
  intros Hi.
  exists (S (Z.to_nat (retryTimeout c / retryInterval c + 1))).
  intros fuel Hle. unfold httpDo.
  destruct (httpDoLoop_returns c req (now w) Hi
              (Z.to_nat (retryTimeout c / retryInterval c + 1))
              (emit (EvHttpDo req) w)) as (res & w' & H).
  - cbn [emit now].
    pose proof (Z.mul_succ_div_gt (retryTimeout c) (retryInterval c) Hi).
    destruct (Z_le_gt_dec 0 (retryTimeout c / retryInterval c + 1)).
    + rewrite Z2Nat.id by assumption. nia.
    + replace (Z.to_nat _) with 0%nat by lia. nia.
  - exists res, w'. eapply httpDoLoop_fuel_mono; eauto.
Qed.

(** How long one [httpDo] call takes.  With a positive retry interval
    the call returns: its loop ends after finitely many attempts.  When
    no attempt takes longer than [D], it returns no later than the
    timeout, one interval and one attempt after it began, and the clock
    it reads never runs backwards. *)
Theorem httpDo_elapsed_bounded (c : Client) (req : Request) (w : World)
        (D : Z) :
  0 < retryInterval c ->
  (forall n r, fst (Do (httpClient c) n r) <= D) ->
  exists fuel0,
    forall fuel, (fuel0 <= fuel)%nat ->
    exists res w',
      httpDo c fuel req w = Some (res, w') /\
      (0 <= now w' - now w
       <= Z.max 0 (retryTimeout c + retryInterval c) + Z.max 0 D).
Proof.
  intros Hi HD.
  destruct (httpDo_returns c req w Hi) as (fuel0 & Hret).
  exists fuel0. intros fuel Hle.
  destruct (Hret fuel Hle) as (res & w' & H).
  exists res, w'. split; [exact H|].
  unfold httpDo in H.
  apply (httpDoLoop_elapsed c req (now w) D HD) in H.
  change (now (emit (EvHttpDo req) w)) with (now w) in H. lia.
Qed.

(** On a network that is down, with 10 ns between attempts and 25 ns in
    all, a call with fuel for the attempts it needs returns after
    25 ns. *)
Lemma httpDo_elapsed_bounded_witness :
  exists fuel0,
    forall fuel, (fuel0 <= fuel)%nat ->
    exists res w',
      httpDo (clientOf networkDown 10 25) fuel statusRequest world0
        = Some (res, w') /\
      (0 <= now w' - now world0 <= Z.max 0 (25 + 10) + Z.max 0 5).
Proof.
  apply (httpDo_elapsed_bounded (clientOf networkDown 10 25) statusRequest
           world0 5).
  - cbn. lia.
  - intros n r. cbn. lia.
Defined.

(** ** [doHttpRequest]: what a call returns, and what it sends *)

Lemma finishRequest_cases (url : URL) (resp : Response) (w : World)
      (body : option string) (err : option error) (w' : World) :
  finishRequest url resp w = (body, err, w') ->
  w' = w /\
  match body with
  | Some b =>
    Body resp = Ok b /\ isAuthStatus (StatusCode resp) = false /\
    err = if (StatusCode resp <? 200) || (300 <=? StatusCode resp)
          then Some (ApiError url (StatusCode resp) b) else None
  | None => err <> None
  end.
Proof.
  unfold finishRequest.
  destruct (Body resp) as [b|e]; [|intros [= <- <- <-]; split; [reflexivity|discriminate]].
  destruct (isAuthStatus (StatusCode resp));
    [intros [= <- <- <-]; split; [reflexivity|discriminate]|].
  destruct ((StatusCode resp <? 200) || (300 <=? StatusCode resp));
    intros [= <- <- <-]; repeat split; reflexivity.
Qed.

Lemma httpDo_last (c : Client) (fuel : nat) (req : Request) (w : World)
      (res : result Response) (w' : World) :
  httpDo c fuel req w = Some (res, w') ->
  exists a k, last (trace w') = Some (EvDo req (authToken w) a k res).
Proof.
  intros H. apply httpDo_schedule in H as (evs & Ht & Hs & _ & _).
  apply retrySchedule_end in Hs as (evs0 & a & k & -> & _).
  exists a, k. rewrite Ht.
  change (EvHttpDo req :: evs0 ++ [EvDo req (authToken w) a k res])%list
    with ((EvHttpDo req :: evs0) ++ [EvDo req (authToken w) a k res])%list.
  rewrite app_assoc. apply last_snoc.
Qed.

Lemma delCookies_retryRequest (c : Client) (api method : string)
      (payload : option string) (ct tok : string) :
  delCookies (retryRequest c api method payload ct tok)
  = newRequest c api method payload ct.
Proof. unfold retryRequest, newRequest. destruct payload; reflexivity. Qed.

Lemma delCookies_newRequest (c : Client) (api method : string)
      (payload : option string) (ct : string) :
  delCookies (newRequest c api method payload ct)
  = newRequest c api method payload ct.
Proof. unfold newRequest. destruct payload; reflexivity. Qed.

(** Every result of [doHttpRequest] is an error without a body, or what
    the tail of the function makes of the response to its last request,
    which is the request of the call but for its cookie. *)
Lemma doHttpRequest_final (c : Client) (fuel : nat) (api method : string)
      (payload : option string) (ct : string) (w : World)
      (body : option string) (err : option error) (w' : World) :
  Client_doHttpRequest c fuel api method payload ct w = Some (body, err, w') ->
  (body = None /\ err <> None) \/
  exists req w0 resp,
    httpDo c fuel req w0 = Some (Ok resp, w') /\
    delCookies req = newRequest c api method payload ct /\
    finishRequest (mkURL "https" (gatewayAddress c) ("api/" ++ api)) resp w'
    = (body, err, w').
Proof.
  intros H.
  assert (Hfin : forall url resp w1,
             finishRequest url resp w1 = (body, err, w') ->
             finishRequest url resp w' = (body, err, w')).
  { intros url resp w1 E.
    destruct (finishRequest_cases _ _ _ _ _ _ E) as [-> _]. exact E. }
  assert (Hw : forall url resp w1,
             finishRequest url resp w1 = (body, err, w') -> w1 = w').
  { intros url resp w1 E.
    destruct (finishRequest_cases _ _ _ _ _ _ E) as [-> _]. reflexivity. }
  destruct (HasPrefix api "login/") eqn:Hp.
  - unfold Client_doHttpRequest in H.
    rewrite doHttpRequest_login_eq in H by exact Hp. cbv zeta in H.
    destruct (NewRequestErr _ _ _);
      [injection H as <- <- <-; left; split; [reflexivity|discriminate]|].
    destruct (httpDo c fuel _ w) as [[[resp|e] w1]|] eqn:E; [| |discriminate].
    + injection H as H. right.
      pose proof (Hw _ _ _ H) as ->.
      eexists _, _, _. split; [exact E|]. split; [|exact H].
      apply delCookies_newRequest.
    + injection H as <- <- <-. left. split; [reflexivity|discriminate].
  - rewrite doHttpRequest_other_eq in H by exact Hp. cbv zeta in H.
    destruct (NewRequestErr _ _ _);
      [injection H as <- <- <-; left; split; [reflexivity|discriminate]|].
    destruct (httpDo c fuel _ (emit _ w)) as [[[resp|e] w1]|] eqn:E;
      [| |discriminate].
    + destruct (isAuthStatus (StatusCode resp)).
      * destruct (DoLogin c fuel w1) as [[[e|] w2]|]; [| |discriminate].
        { injection H as <- <- <-. left. split; [reflexivity|discriminate]. }
        destruct (httpDo c fuel _ (emit _ w2)) as [[[resp2|e] w4]|] eqn:E2;
          [| |discriminate].
        { injection H as H. right.
          pose proof (Hw _ _ _ H) as ->.
          eexists _, _, _. split; [exact E2|]. split; [|exact H].
          apply delCookies_retryRequest. }
        { injection H as <- <- <-. left. split; [reflexivity|discriminate]. }
      * injection H as H. right.
        pose proof (Hw _ _ _ H) as ->.
        eexists _, _, _. split; [exact E|]. split; [|exact H].
        apply delCookies_firstRequest.
    + injection H as <- <- <-. left. split; [reflexivity|discriminate].
Qed.

(** What [doHttpRequest] returns.  A nil error comes with a body.  A
    body is returned only when the last request of the call was
    answered, the answer was not 401 or 403 and its body was read: the
    body returned is that body, the error is nil for a status from 200
    to 299 and otherwise an [ApiError] with the status and the same
    body.  That last request is the request of the call: its method,
    URL, content type and payload, whatever its cookie. *)
Theorem doHttpRequest_outcome (c : Client) (fuel : nat) (api method : string)
        (payload : option string) (ct : string) (w : World)
        (body : option string) (err : option error) (w' : World) :
  Client_doHttpRequest c fuel api method payload ct w = Some (body, err, w') ->
  (err = None -> body <> None) /\
  (forall b, body = Some b ->
     exists req tok a k resp,
       last (trace w') = Some (EvDo req tok a k (Ok resp)) /\
       delCookies req = newRequest c api method payload ct /\
       Body resp = Ok b /\
       isAuthStatus (StatusCode resp) = false /\
       err = if (StatusCode resp <? 200) || (300 <=? StatusCode resp)
             then Some (ApiError (mkURL "https" (gatewayAddress c) ("api/" ++ api))
                                 (StatusCode resp) b)
             else None).
Proof.
  intros H. apply doHttpRequest_final in H.
  destruct H as [[-> He] | (req & w0 & resp & Hd & Hreq & Hf)].
  { split; [intros ->; contradiction | intros b; discriminate]. }
  apply finishRequest_cases in Hf as [_ Hf].
  destruct body as [b|].
  - destruct Hf as (Hb & Ha & ->). split; [discriminate|].
    intros b' [= <-].
    destruct (httpDo_last _ _ _ _ _ _ Hd) as (a & k & Hl).
    exists req, (authToken w0), a, k, resp. auto.
  - split; [intros ->; contradiction | intros b; discriminate].
Qed.

Lemma doHttpRequest_outcome_witness :
  exists body err w',
    Client_doHttpRequest (clientOf gatewayToken 0 0) 1 "status" "GET" None
                         EmptyString world0 = Some (body, err, w') /\
    body = Some "{}" /\ err = None /\
    (err = None -> body <> None).
Proof.
  eexists _, _, _. split; [vm_compute; reflexivity|].
  split; [reflexivity|]. split; [reflexivity|].
  pose proof (doHttpRequest_outcome (clientOf gatewayToken 0 0) 1 "status"
                "GET" None EmptyString world0) as H.
  specialize (H _ _ _ ltac:(vm_compute; reflexivity)).
  exact (proj1 H).
Defined.

(** ** The requests of a call *)

Lemma requestsIssued_cons (ev : Event) (l : list Event) :
  requestsIssued (ev :: l)
  = (match ev with EvHttpDo r => [r] | _ => [] end ++ requestsIssued l)%list.
Proof. reflexivity. Qed.

Lemma authMsgs_cons (ev : Event) (l : list Event) :
  authMsgs (ev :: l)
  = (match ev with EvAuthMsg m => [m] | _ => [] end ++ authMsgs l)%list.
Proof. reflexivity. Qed.

Lemma requestsIssued_nil : requestsIssued [] = [].
Proof. reflexivity. Qed.

Lemma authMsgs_nil : authMsgs [] = [].
Proof. reflexivity. Qed.

Ltac observe :=
  repeat (rewrite requestsIssued_app || rewrite authMsgs_app ||
          rewrite requestsIssued_cons || rewrite authMsgs_cons ||
          rewrite requestsIssued_nil || rewrite authMsgs_nil);
  cbn [app].

Lemma schedule_requests (c : Client) (req : Request) (tok : string)
      (start t : Z) (n : nat) (evs : list Event) (res : result Response) :
  retrySchedule c req tok start t n evs res ->
  requestsIssued evs = [] /\ authMsgs evs = [].
Proof.
  intros H. apply retrySchedule_events in H.
  induction H as [|ev evs Hev _ [IH1 IH2]]; [split; reflexivity|].
  unfold requestsIssued, authMsgs in *.
  destruct Hev as [(a & k & r & ->) | (d & ->)]; cbn [flat_map app]; auto.
Qed.

Lemma httpDo_requests (c : Client) (fuel : nat) (req : Request) (w : World)
      (res : result Response) (w' : World) :
  httpDo c fuel req w = Some (res, w') ->
  exists evs,
    trace w' = (trace w ++ evs)%list /\
    requestsIssued evs = [req] /\ authMsgs evs = [] /\
    authToken w' = authToken w /\ chans w' = chans w.
Proof.
  intros H. apply httpDo_schedule in H as (evs & Ht & Hs & Ha & Hc).
  apply schedule_requests in Hs as [Hr Hm].
  exists (EvHttpDo req :: evs). split; [exact Ht|].
  observe. rewrite Hr, Hm. auto.
Qed.

Lemma loginCall_requests (c : Client) (fuel : nat) (email password : string)
      (w : World) (r : option string * option error) (w' : World) :
  loginCall c fuel email password w = Some (r, w') ->
  exists new,
    trace w' = (trace w ++ new)%list /\ authMsgs new = [] /\
    requestsIssued new `prefix_of`
      [newRequest c "login/Basic" "POST"
         (Some (json_Marshal_loginData (mkLoginData "customer" email password false)))
         "application/json"] /\
    (snd r = None -> requestsIssued new <> []) /\
    authToken w' = authToken w /\ chans w' = chans w.
Proof.
  unfold loginCall. rewrite doHttpRequest_login_eq by reflexivity.
  cbv zeta. intros H.
  destruct (NewRequestErr _ _ _).
  { injection H as <- <-. exists []. rewrite app_nil_r.
    repeat split; try reflexivity; [apply prefix_nil | discriminate]. }
  destruct (httpDo c fuel _ w) as [[res w1]|] eqn:E; [|destruct r; discriminate].
  apply httpDo_requests in E as (evs & Ht & Hr & Hm & Ha & Hc).
  assert (w' = w1) as ->.
  { destruct res as [resp|e]; [|injection H as _ <-; reflexivity].
    injection H as H.
    pose proof (finishRequest_world
                  (mkURL "https" (gatewayAddress c) ("api/" ++ "login/Basic"))
                  resp w1) as Hw.
    rewrite H in Hw. exact Hw. }
  exists evs. rewrite Hr. repeat split; auto; discriminate.
Qed.

Lemma performLogin_requests (c : Client) (fuel : nat) (email password : string)
      (w : World) (tok : string) (err : option error) (w' : World) :
  performLogin c fuel email password w = Some (tok, err, w') ->
  exists new,
    trace w' = (trace w ++ new)%list /\ authMsgs new = [] /\
    requestsIssued new `prefix_of`
      [newRequest c "login/Basic" "POST"
         (Some (json_Marshal_loginData (mkLoginData "customer" email password false)))
         "application/json"] /\
    (err = None -> requestsIssued new <> []) /\
    chans w' = chans w.
Proof.
  rewrite performLogin_eq. intros H.
  destruct (loginCall c fuel email password w) as [[[respData herr] w1]|] eqn:E;
    [|discriminate].
  apply loginCall_requests in E as (new & Ht & Hm & Hr & Hne & _ & Hc).
  cbn [snd] in Hne.
  destruct herr as [e|].
  { injection H as _ <- <-. exists new. repeat split; auto; discriminate. }
  specialize (Hne eq_refl).
  cbv zeta in H.
  destruct (json_Unmarshal_loginResponse _ _) as [resp [ue|]].
  - exists (new ++ [EvErrFunc "login/Basic" (default EmptyString respData) ue])%list.
    assert (w' = jsonError "login/Basic" (default EmptyString respData) ue w1)
      as -> by (destruct (negb _); injection H as _ _ <-; reflexivity).
    cbn [jsonError emit trace chans]. rewrite Ht, <- app_assoc.
    observe. rewrite Hm, !app_nil_r. auto.
  - exists new.
    assert (w' = w1) as -> by (destruct (negb _); injection H as _ _ <-; reflexivity).
    auto.
Qed.

Lemma DoLogin_requests (c : Client) (fuel : nat) (w : World)
      (err : option error) (w' : World) :
  DoLogin c fuel w = Some (err, w') ->
  exists new,
    trace w' = (trace w ++ new)%list /\
    authMsgs new = [mkAuthMessage cmd_DO_LOGIN (gatewayLoginEmail c)
                      (gatewayLoginPassword c) EmptyString (chans w)] /\
    requestsIssued new `prefix_of` [loginRequest c] /\
    (err = None -> requestsIssued new = [loginRequest c]).
Proof.
  unfold DoLogin, makeChan, roundTrip. cbn [doAuthMsg action email password result_ch].
  intros H.
  destruct (performLogin c fuel _ _ _) as [[[tok perr] w1]|] eqn:E; [|discriminate].
  apply performLogin_requests in E as (new & Ht & Hm & Hr & Hne & _).
  cbn [emit trace] in Ht.
  cbn [emit setToken trace] in H. rewrite lastReply_app in H.
  injection H as <- <-. cbn [emit setToken trace].
  exists (EvAuthMsg (mkAuthMessage cmd_DO_LOGIN (gatewayLoginEmail c)
                       (gatewayLoginPassword c) EmptyString (chans w))
          :: new ++ [EvReply (chans w) perr])%list.
  split.
  { rewrite Ht, <- !app_assoc. reflexivity. }
  assert (Hreq : requestsIssued
                   (EvAuthMsg (mkAuthMessage cmd_DO_LOGIN (gatewayLoginEmail c)
                                 (gatewayLoginPassword c) EmptyString (chans w))
                    :: new ++ [EvReply (chans w) perr])
                 = requestsIssued new).
  { observe. apply app_nil_r. }
  split.
  - observe. rewrite Hm. reflexivity.
  - rewrite Hreq. split; [exact Hr|]. intros Hn. specialize (Hne Hn).
    destruct Hr as [k Hk].
    destruct (requestsIssued new) as [|x l]; [contradiction|].
    injection Hk as <- Hk. destruct l; [reflexivity | discriminate].
Qed.

(** The requests one call of [doHttpRequest] sends, in order, are an
    initial part of a fixed list.  On a login path: the request of the
    call, without cookie.  On any other path: the request of the call
    with the current token, the login request, and the request of the
    call again with a token read after the login; and at most one
    message, a [cmd_DO_LOGIN], goes to the coordinator.  So no call
    sends more than three requests or logs in twice. *)
Theorem doHttpRequest_requests (c : Client) (fuel : nat) (api method : string)
        (payload : option string) (ct : string) (w : World)
        (body : option string) (err : option error) (w' : World) :
  Client_doHttpRequest c fuel api method payload ct w = Some (body, err, w') ->
  exists new,
    trace w' = (trace w ++ new)%list /\
    if HasPrefix api "login/" then
      requestsIssued new `prefix_of` [newRequest c api method payload ct] /\
      authMsgs new = []
    else
      exists tok2,
        requestsIssued new `prefix_of`
          [firstRequest c api method payload ct (authToken w);
           loginRequest c;
           retryRequest c api method payload ct tok2] /\
        authMsgs new `prefix_of`
          [mkAuthMessage cmd_DO_LOGIN (gatewayLoginEmail c)
             (gatewayLoginPassword c) EmptyString (chans w)].
Proof.
  intros H.
  destruct (HasPrefix api "login/") eqn:Hp.
  - unfold Client_doHttpRequest in H.
    rewrite doHttpRequest_login_eq in H by exact Hp. cbv zeta in H.
    destruct (NewRequestErr _ _ _).
    { injection H as _ _ <-. exists []. rewrite app_nil_r.
      repeat split; try reflexivity. apply prefix_nil. }
    destruct (httpDo c fuel _ w) as [[res w1]|] eqn:E; [|discriminate].
    apply httpDo_requests in E as (evs & Ht & Hr & Hm & _).
    assert (w' = w1) as ->.
    { destruct res as [resp|e]; [|injection H as _ _ <-; reflexivity].
      injection H as H.
      destruct (finishRequest_cases _ _ _ _ _ _ H) as [-> _]. reflexivity. }
    exists evs. rewrite Hr. auto.
  - rewrite doHttpRequest_other_eq in H by exact Hp. cbv zeta in H.
    destruct (NewRequestErr _ _ _).
    { injection H as _ _ <-. exists []. rewrite app_nil_r.
      split; [reflexivity|]. exists EmptyString.
      split; apply prefix_nil. }
    destruct (httpDo c fuel _ (emit _ w)) as [[res w1]|] eqn:E; [|discriminate].
    apply httpDo_requests in E as (evs & Ht & Hr & Hm & Ha & Hc).
    cbn [emit trace authToken chans] in Ht, Ha, Hc.
    assert (Hone : w' = w1 ->
                   exists new, trace w' = (trace w ++ new)%list /\
                     exists tok2,
                       requestsIssued new `prefix_of`
                         [firstRequest c api method payload ct (authToken w);
                          loginRequest c;
                          retryRequest c api method payload ct tok2] /\
                       authMsgs new `prefix_of`
                         [mkAuthMessage cmd_DO_LOGIN (gatewayLoginEmail c)
                            (gatewayLoginPassword c) EmptyString (chans w)]).
    { intros ->. exists (EvTokenRead (authToken w) :: evs).
      split; [rewrite Ht, <- app_assoc; reflexivity|].
      exists EmptyString. observe. rewrite Hr, Hm.
      split; [eexists; reflexivity | apply prefix_nil]. }
    destruct res as [resp|e]; [|injection H as _ _ <-; apply Hone; reflexivity].
    destruct (isAuthStatus (StatusCode resp)).
    2:{ injection H as H.
        destruct (finishRequest_cases _ _ _ _ _ _ H) as [-> _].
        apply Hone; reflexivity. }
    clear Hone.
    destruct (DoLogin c fuel w1) as [[lerr w2]|] eqn:EL; [|discriminate].
    apply DoLogin_requests in EL as (lnew & Htl & Hml & Hrl & Hok).
    rewrite Hc in Hml.
    destruct lerr as [e|].
    { injection H as _ _ <-.
      exists (EvTokenRead (authToken w) :: evs ++ lnew)%list.
      split; [rewrite Htl, Ht, <- !app_assoc; reflexivity|].
      exists EmptyString. observe. rewrite Hr, Hm, Hml. cbn [app]. split.
      - apply prefix_cons. destruct Hrl as [k Hk].
        destruct (requestsIssued lnew) as [|x l]; [apply prefix_nil|].
        injection Hk as <- Hk. apply prefix_cons.
        destruct l; [apply prefix_nil | discriminate].
      - reflexivity. }
    destruct (httpDo c fuel _ (emit _ w2)) as [[res2 w4]|] eqn:E2; [|discriminate].
    apply httpDo_requests in E2 as (evs2 & Ht2 & Hr2 & Hm2 & _).
    cbn [emit trace] in Ht2.
    assert (w' = w4) as ->.
    { destruct res2 as [resp2|e]; [|injection H as _ _ <-; reflexivity].
      injection H as H.
      destruct (finishRequest_cases _ _ _ _ _ _ H) as [-> _]. reflexivity. }
    exists (EvTokenRead (authToken w) :: evs ++ lnew
            ++ EvTokenRead (authToken w2) :: evs2)%list.
    split; [rewrite Ht2, Htl, Ht, <- !app_assoc; reflexivity|].
    exists (authToken w2). observe.
    rewrite Hr, Hm, Hml, Hr2, Hm2, (Hok eq_refl). cbn [app].
    split; reflexivity.
Qed.

Lemma doHttpRequest_requests_witness :
  exists body err w' new,
    Client_doHttpRequest (clientOf gatewayForbidden 0 0) 1 "status" "GET" None
                         EmptyString world0 = Some (body, err, w') /\
    trace w' = (trace world0 ++ new)%list /\
    (length (requestsIssued new) <= 3)%nat /\
    (length (authMsgs new) <= 1)%nat.
Proof.
  pose proof (doHttpRequest_requests (clientOf gatewayForbidden 0 0) 1
                "status" "GET" None EmptyString world0) as H.
  specialize (H _ _ _ ltac:(vm_compute; reflexivity)).
  change (HasPrefix "status" "login/") with false in H. cbv iota in H.
  destruct H as (new & Ht & tok2 & [k Hk] & [k' Hk']).
  eexists _, _, _, new. split; [vm_compute; reflexivity|].
  split; [exact Ht|].
  apply (f_equal (@length _)) in Hk, Hk'.
  rewrite length_app in Hk, Hk'. cbn [length] in Hk, Hk'. lia.
Defined.

(** A call outside the login paths whose first request is not answered
    401 or 403 (another status, or an error of the transport) ends
    with that request: it is the only request sent, nothing is sent to
    the coordinator, and the token stays as it was. *)
Theorem doHttpRequest_without_login (c : Client) (fuel : nat)
        (api method : string) (payload : option string) (ct : string)
        (w : World) (res1 : result Response) (w1 : World) :
  HasPrefix api "login/" = false ->
  NewRequestErr (httpClient c) method
                (mkURL "https" (gatewayAddress c) ("api/" ++ api)) = None ->
  httpDo c fuel (firstRequest c api method payload ct (authToken w))
         (emit (EvTokenRead (authToken w)) w) = Some (res1, w1) ->
  (forall resp, res1 = Ok resp -> isAuthStatus (StatusCode resp) = false) ->
  exists body err new,
    Client_doHttpRequest c fuel api method payload ct w = Some (body, err, w1) /\
    trace w1 = (trace w ++ new)%list /\
    requestsIssued new = [firstRequest c api method payload ct (authToken w)] /\
    authMsgs new = [] /\
    authToken w1 = authToken w.
Proof.
  intros Hp Hn Hd Hs.
  rewrite doHttpRequest_other_eq by exact Hp. cbv zeta. rewrite Hn, Hd.
  pose proof Hd as Hd'.
  apply httpDo_requests in Hd' as (evs & Ht & Hr & Hm & Ha & _).
  cbn [emit trace authToken] in Ht, Ha.
  assert (Hobs : trace w1 = (trace w ++ EvTokenRead (authToken w) :: evs)%list /\
                 requestsIssued (EvTokenRead (authToken w) :: evs)
                 = [firstRequest c api method payload ct (authToken w)] /\
                 authMsgs (EvTokenRead (authToken w) :: evs) = [] /\
                 authToken w1 = authToken w).
  { split; [rewrite Ht, <- app_assoc; reflexivity|].
    observe. rewrite Hr, Hm. auto. }
  destruct res1 as [resp|e].
  - rewrite (Hs resp eq_refl).
    destruct (finishRequest _ resp w1) as [[body err] w'] eqn:Hf.
    destruct (finishRequest_cases _ _ _ _ _ _ Hf) as [-> _].
    eexists body, err, _. split; [reflexivity | exact Hobs].
  - eexists None, (Some e), _. split; [reflexivity | exact Hobs].
Qed.

Lemma doHttpRequest_without_login_witness :
  let c := clientOf gatewayToken 0 0 in
  let w := setToken "abc" world0 in
  exists body err w1 new,
    Client_doHttpRequest c 1 "status" "GET" None EmptyString w
      = Some (body, err, w1) /\
    trace w1 = (trace w ++ new)%list /\
    requestsIssued new = [firstRequest c "status" "GET" None EmptyString "abc"] /\
    authMsgs new = [] /\ authToken w1 = "abc".
Proof.
  cbv zeta.
  destruct (doHttpRequest_without_login (clientOf gatewayToken 0 0) 1
              "status" "GET" None EmptyString (setToken "abc" world0)
              (jsonResponse 200 "{}")
              (snd (default (Err (ErrorsNew EmptyString), world0)
                      (httpDo (clientOf gatewayToken 0 0) 1
                         (firstRequest (clientOf gatewayToken 0 0) "status"
                            "GET" None EmptyString "abc")
                         (emit (EvTokenRead "abc") (setToken "abc" world0))))))
    as (body & err & new & H).
  - reflexivity.
  - reflexivity.
  - vm_compute; reflexivity.
  - intros resp [= <-]. reflexivity.
  - eexists body, err, _, new. exact H.
Defined.

(** ** [apiGetJson] and [apiPostJson] *)

Lemma apiJson_outcome {R : Type} (c : Client) (fuel : nat)
      (api method : string) (payload : option string) (ct : string)
      (unmarshal : string -> R -> R * option error) (r0 r : R)
      (err : option error) (w w' : World) :
  apiJson c fuel GetAuthToken (DoLogin c fuel) api method payload ct
          unmarshal r0 w = Some (r, err, w') ->
  match err with
  | None =>
    exists req tok a k resp b,
      last (trace w') = Some (EvDo req tok a k (Ok resp)) /\
      delCookies req = newRequest c api method payload ct /\
      200 <= StatusCode resp < 300 /\
      Body resp = Ok b /\ unmarshal b r0 = (r, None)
  | Some e =>
    r = r0 \/
    exists b, unmarshal b r0 = (r, Some e) /\
              last (trace w') = Some (EvErrFunc api b e)
  end.
Proof.
  unfold apiJson.
  change (doHttpRequest c fuel GetAuthToken (DoLogin c fuel))
    with (Client_doHttpRequest c fuel).
  destruct (Client_doHttpRequest c fuel api method payload ct w)
    as [[[body herr] w1]|] eqn:E; [|discriminate].
  destruct herr as [e|].
  { intros [= <- <- <-]. left. reflexivity. }
  apply doHttpRequest_final in E.
  destruct E as [[_ He] | (req & w0 & resp & Hd & Hreq & Hf)]; [contradiction|].
  apply finishRequest_cases in Hf as [_ Hf].
  destruct body as [b|]; [|contradiction].
  destruct Hf as (Hb & Ha & Hst). cbv zeta.
  change (default EmptyString (Some b)) with b.
  destruct (unmarshal b r0) as [r1 [ue|]] eqn:Eu; cbv beta iota.
  - intros [= <- <- <-]. right. exists b. split; [exact Eu|].
    unfold jsonError, emit. cbn [trace]. apply last_snoc.
  - intros [= <- <- <-].
    destruct (httpDo_last _ _ _ _ _ _ Hd) as (a & k & Hl).
    exists req, (authToken w0), a, k, resp, b.
    split; [exact Hl|]. split; [exact Hreq|]. split; [|auto].
    destruct (Z.ltb_spec (StatusCode resp) 200);
      destruct (Z.leb_spec 300 (StatusCode resp));
      cbn in Hst; try discriminate. lia.
Qed.

(** What [apiGetJson] and [apiPostJson] return.  A nil error means that
    the last request (a GET without payload, or a POST of the payload
    as [application/json]) was answered with a status from 200 to 299
    and that the result is the decoding of the body of that answer,
    which raised no error.  With an error, either the result variable
    is untouched, or the error is the decoder's, the result is what the
    decoder left, and the error callback was called last, with the API
    name, the body and the error. *)
Theorem apiJson_results {R : Type} (c : Client) (fuel : nat) (api : string)
        (unmarshal : string -> R -> R * option error) (r0 r : R)
        (err : option error) (w w' : World) :
  (Client_apiGetJson c fuel api unmarshal r0 w = Some (r, err, w') ->
   match err with
   | None =>
     exists req tok a k resp b,
       last (trace w') = Some (EvDo req tok a k (Ok resp)) /\
       delCookies req = newRequest c api "GET" None EmptyString /\
       200 <= StatusCode resp < 300 /\
       Body resp = Ok b /\ unmarshal b r0 = (r, None)
   | Some e =>
     r = r0 \/
     exists b, unmarshal b r0 = (r, Some e) /\
               last (trace w') = Some (EvErrFunc api b e)
   end) /\
  (forall payloadData,
     Client_apiPostJson c fuel api payloadData unmarshal r0 w = Some (r, err, w') ->
     match err with
     | None =>
       exists req tok a k resp b,
         last (trace w') = Some (EvDo req tok a k (Ok resp)) /\
         delCookies req
         = newRequest c api "POST" (Some payloadData) "application/json" /\
         200 <= StatusCode resp < 300 /\
         Body resp = Ok b /\ unmarshal b r0 = (r, None)
     | Some e =>
       r = r0 \/
       exists b, unmarshal b r0 = (r, Some e) /\
                 last (trace w') = Some (EvErrFunc api b e)
     end).
Proof.
  split; [|intros payloadData]; apply apiJson_outcome.
Qed.

Lemma apiJson_results_witness :
  exists r w' req tok a k resp,
    Client_apiGetJson (clientOf gatewayToken 0 0) 1 "status"
      json_Unmarshal_loginResponse loginResponse0 (setToken "abc" world0)
    = Some (r, None, w') /\
    last (trace w') = Some (EvDo req tok a k (Ok resp)) /\
    Method req = "GET" /\ ReqBody req = None /\
    200 <= StatusCode resp < 300.
Proof.
  pose proof (proj1 (apiJson_results (clientOf gatewayToken 0 0) 1 "status"
                       json_Unmarshal_loginResponse loginResponse0
                       loginResponse0 None (setToken "abc" world0)
                       (snd (default (loginResponse0, None, world0)
                               (Client_apiGetJson (clientOf gatewayToken 0 0) 1
                                  "status" json_Unmarshal_loginResponse
                                  loginResponse0 (setToken "abc" world0))))))
    as H.
  specialize (H ltac:(vm_compute; reflexivity)).
  destruct H as (req & tok & a & k & resp & b & Hl & Hreq & Hs & _).
  eexists _, _, req, tok, a, k, resp.
  split; [vm_compute; reflexivity|].
  split; [exact Hl|].
  apply (f_equal Method) in Hreq as Hm.
  apply (f_equal ReqBody) in Hreq as Hb.
  repeat split; try assumption; apply Hs.
Defined.

(** * Further properties of the login functions (auth.go) *)

(** [checkLogin] with a token in store does nothing but exchange one
    message with the coordinator: it returns nil, no request is sent,
    no time passes and the token stays as it was. *)
Theorem checkLogin_with_token (c : Client) (fuel : nat) (w : World) :
  authToken w <> EmptyString ->
  exists w',
    checkLogin c fuel w = Some (None, w') /\
    trace w' =
    (trace w ++
     [EvAuthMsg (mkAuthMessage cmd_CHECK_LOGIN (gatewayLoginEmail c)
                   (gatewayLoginPassword c) EmptyString (chans w));
      EvReply (chans w) None])%list /\
    authToken w' = authToken w /\ calls w' = calls w /\ now w' = now w.
Proof.
  intros Ht. unfold checkLogin, makeChan, roundTrip, doAuthMsg.
  cbn [action result_ch emit authToken].
  apply String.eqb_neq in Ht. rewrite Ht.
  cbn [emit trace]. rewrite lastReply_app.
  eexists. split; [reflexivity|]. unfold emit. cbn [trace authToken calls now].
  rewrite <- app_assoc. auto.
Qed.

Lemma checkLogin_with_token_witness :
  exists w',
    checkLogin (clientOf networkDown 0 0) 0 (setToken "abc" world0)
    = Some (None, w') /\
    authToken w' = "abc" /\ calls w' = 0%nat.
Proof.
  destruct (checkLogin_with_token (clientOf networkDown 0 0) 0
              (setToken "abc" world0)) as (w' & H & _ & Ha & Hc & _).
  - discriminate.
  - exists w'. auto.
Defined.

(** [DoLogin] returns nil exactly when it leaves a token in store.  It
    hands one [cmd_DO_LOGIN] message to the coordinator on a reply
    channel of its own and returns what is sent back on it; the only
    request it may cause is the login request with the client's
    credentials, and that request is sent whenever it returns nil. *)
Theorem DoLogin_result (c : Client) (fuel : nat) (w : World)
        (err : option error) (w' : World) :
  DoLogin c fuel w = Some (err, w') ->
  (err = None <-> authToken w' <> EmptyString) /\
  exists new,
    trace w' = (trace w ++ new)%list /\
    authMsgs new = [mkAuthMessage cmd_DO_LOGIN (gatewayLoginEmail c)
                      (gatewayLoginPassword c) EmptyString (chans w)] /\
    last new = Some (EvReply (chans w) err) /\
    requestsIssued new `prefix_of` [loginRequest c] /\
    (err = None -> requestsIssued new = [loginRequest c]).
Proof.
  intros H. split.
  - apply DoLogin_trace in H as (new & _ & _ & Ht).
    destruct err as [e|]; split; intros; congruence.
  - pose proof (DoLogin_trace _ _ _ _ _ H) as (new1 & Ht1 & _ & _).
    apply DoLogin_requests in H as (new & Ht & Hm & Hr & Hok).
    exists new. repeat split; try assumption.
    rewrite Ht in Ht1. apply app_inv_head in Ht1. rewrite Ht1.
    apply last_snoc_cons.
Qed.

Lemma DoLogin_result_witness :
  exists w',
    DoLogin (clientOf gatewayToken 0 0) 1 world0 = Some (None, w') /\
    authToken w' = "abc" /\
    requestsIssued (trace w') = [loginRequest (clientOf gatewayToken 0 0)] /\
    authToken w' <> EmptyString.
Proof.
  eexists. split; [vm_compute; reflexivity|].
  split; [reflexivity|]. split; [vm_compute; reflexivity|].
  pose proof (DoLogin_result (clientOf gatewayToken 0 0) 1 world0) as H.
  specialize (H _ _ ltac:(vm_compute; reflexivity)).
  exact (proj1 (proj1 H) eq_refl).
Defined.

(** * The coordinator's worker: what reads return *)

Lemma mstep_world (c : Client) (fuel : nat) (m : Mgr) (l : Label) (m' : Mgr) :
  mstep c fuel m l m' ->
  match l with
  | LAuth msg =>
    doAuthMsg c fuel msg (emit (EvAuthMsg msg) (world m)) = Some (world m')
  | LToken tok =>
    tok = authToken (world m) /\ authToken (world m') = authToken (world m)
  | _ => world m' = world m
  end.
Proof. intros H. destruct H; cbn; auto. Qed.

Lemma msteps_reads (c : Client) (fuel : nat) (m : Mgr) (ls : list Label)
      (m' : Mgr) :
  msteps c fuel m ls m' ->
  (forall msg, ~ In (LAuth msg) ls) ->
  authToken (world m') = authToken (world m) /\
  forall tok, In (LToken tok) ls -> tok = authToken (world m).
Proof.
  induction 1 as [m | m1 l m2 ls m3 Hs Hss IH]; intros Hno.
  - split; [reflexivity | intros tok []].
  - assert (Hno' : forall msg, ~ In (LAuth msg) ls)
      by (intros msg Hin; apply (Hno msg); right; exact Hin).
    destruct (IH Hno') as [IHa IHt].
    apply mstep_world in Hs.
    assert (Ha : authToken (world m2) = authToken (world m1)).
    { destruct l; try (rewrite Hs; reflexivity).
      - exfalso. apply (Hno msg). left. reflexivity.
      - apply Hs. }
    split; [congruence|].
    intros tok [-> | Hin].
    + apply Hs.
    + rewrite <- Ha. apply IHt, Hin.
Qed.

(** Once the worker has processed a [cmd_SET_TOKEN] message, every read
    of [token_ch] it serves returns the token of that message, until it
    processes another message; arrivals of senders and readers, and
    the worker's own moves between its two selects, change nothing. *)
Theorem authManager_reads_after_set (c : Client) (fuel : nat)
        (m0 : Mgr) (msg : authMessage) (m : Mgr) (ls : list Label) (m' : Mgr) :
  mstep c fuel m0 (LAuth msg) m ->
  action msg = cmd_SET_TOKEN ->
  msteps c fuel m ls m' ->
  (forall msg', ~ In (LAuth msg') ls) ->
  authToken (world m') = token msg /\
  forall tok, In (LToken tok) ls -> tok = token msg.
Proof.
  intros Hs Ha Hss Hno.
  apply mstep_world in Hs. unfold doAuthMsg in Hs. rewrite Ha in Hs.
  injection Hs as Hs.
  assert (Ht : authToken (world m) = token msg) by (rewrite <- Hs; reflexivity).
  destruct (msteps_reads _ _ _ _ _ Hss Hno) as [H1 H2].
  rewrite Ht in H1, H2. auto.
Qed.

Lemma authManager_reads_after_set_witness :
  exists m m',
    mstep (clientOf networkDown 0 0) 0
          (mkMgr AtFirstSelect world0 [setTokenMessage "new"] 0)
          (LAuth (setTokenMessage "new")) m /\
    msteps (clientOf networkDown 0 0) 0 m [LDefault; LArriveRecv; LToken "new"] m' /\
    authToken (world m') = "new".
Proof.
  assert (H1 : mstep (clientOf networkDown 0 0) 0
                 (mkMgr AtFirstSelect world0 [setTokenMessage "new"] 0)
                 (LAuth (setTokenMessage "new"))
                 (mkMgr AtFirstSelect
                    (setToken "new" (emit (EvAuthMsg (setTokenMessage "new")) world0))
                    [] 0))
    by (apply step_first_auth; reflexivity).
  assert (H2 : msteps (clientOf networkDown 0 0) 0
                 (mkMgr AtFirstSelect
                    (setToken "new" (emit (EvAuthMsg (setTokenMessage "new")) world0))
                    [] 0)
                 [LDefault; LArriveRecv; LToken "new"]
                 (mkMgr AtFirstSelect
                    (emit (EvTokenRead "new")
                       (setToken "new"
                          (emit (EvAuthMsg (setTokenMessage "new")) world0)))
                    [] 0)).
  { eapply msteps_cons; [apply step_first_default|].
    eapply msteps_cons; [apply step_arrive_recv; discriminate|].
    eapply msteps_cons;
      [apply (step_second_token _ _
                (setToken "new" (emit (EvAuthMsg (setTokenMessage "new")) world0))
                [] 0)|].
    apply msteps_nil. }
  eexists _, _. split; [exact H1|]. split; [exact H2|].
  refine (proj1 (authManager_reads_after_set _ _ _ _ _ _ _ H1 eq_refl H2 _)).
  intros msg' [H|[H|[H|[]]]]; discriminate.
Defined.

(** * What the package writes is JSON that reads back *)

Lemma string_append_assoc (a b c : string) :
  ((a ++ b) ++ c)%string = (a ++ (b ++ c))%string.
Proof.
  induction a as [|x a IH]; [reflexivity|].
  change (String x a ++ b)%string with (String x (a ++ b)).
  change (String x (a ++ b) ++ c)%string with (String x ((a ++ b) ++ c)).
  rewrite IH. reflexivity.
Qed.

Lemma string_length_append (a b : string) :
  String.length (a ++ b) = (String.length a + String.length b)%nat.
Proof.
  induction a as [|x a IH]; [reflexivity|].
  change (String x a ++ b)%string with (String x (a ++ b)).
  cbn [String.length]. rewrite IH. reflexivity.
Qed.

Lemma htmlSafe_props (c : ascii) :
  htmlSafe c = true ->
  Ascii.eqb c dquote = false /\ Ascii.eqb c backslash = false /\
  (code c <? 32) = false /\ (code c <? 128) = true.
Proof.
  destruct c as [[] [] [] [] [] [] [] []]; intros H;
    try discriminate H; repeat split; reflexivity.
Qed.

(** The scanner on a byte that the encoder copies. *)
Lemma scanString_plain (c : ascii) (fuel : nat) (r : string) :
  htmlSafe c = true ->
  scanString (S fuel) (String c r) = consResult (str1 c) (scanString fuel r).
Proof.
  intros H. destruct (htmlSafe_props c H) as (H1 & H2 & H3 & H4).
  cbn [scanString]. rewrite H1, H3, H2, H4. reflexivity.
Qed.

(** The scanner on the escape the encoder writes for an ASCII byte. *)
Lemma scanString_escape (c : ascii) (fuel : nat) (r : string) :
  (code c <? 128) = true -> htmlSafe c = false ->
  scanString (S fuel) (escapeByte c ++ r)
  = consResult (str1 c) (scanString fuel r).
Proof.
  destruct c as [[] [] [] [] [] [] [] []]; intros H1 H2;
    try discriminate H1; try discriminate H2; reflexivity.
Qed.

Lemma consResult_Some (c : ascii) (s rest : string) :
  consResult (str1 c) (Some (s, rest)) = Some (String c s, rest).
Proof. reflexivity. Qed.

(** Strings of ASCII bytes. *)
Lemma appendStringBody_cons (fuel : nat) (c : ascii) (s : string) :
  (code c <? 128) = true ->
  appendStringBody (S fuel) (String c s)
  = if htmlSafe c then String c (appendStringBody fuel s)
    else (escapeByte c ++ appendStringBody fuel s)%string.
Proof. intros H. cbn [appendStringBody]. rewrite H. reflexivity. Qed.

Lemma escapeByte_length (c : ascii) : (1 <= String.length (escapeByte c))%nat.
Proof.
  unfold escapeByte.
  repeat match goal with |- context [if ?b then _ else _] => destruct b end;
    cbn; lia.
Qed.

Lemma appendStringBody_length :
  forall (s : string) (f1 : nat),
    isASCII s = true -> (String.length s <= f1)%nat ->
    (String.length s <= String.length (appendStringBody f1 s))%nat.
Proof.
  induction s as [|c s IH]; intros f1 Ha Hf; [cbn; lia|].
  cbn [isASCII] in Ha. apply andb_prop in Ha as [Hc Ha].
  destruct f1 as [|f1]; [cbn in Hf; lia|].
  cbn [String.length] in Hf.
  rewrite appendStringBody_cons by exact Hc.
  specialize (IH f1 Ha ltac:(lia)).
  destruct (htmlSafe c).
  - cbn [String.length]. lia.
  - rewrite string_length_append. pose proof (escapeByte_length c).
    cbn [String.length]. lia.
Qed.

(** The scanner reads back what the encoder wrote for an ASCII
    string. *)
Lemma scanString_marshal :
  forall (s : string) (f1 fuel : nat) (rest : string),
    isASCII s = true ->
    (String.length s <= f1)%nat -> (String.length s <= fuel)%nat ->
    scanString (S fuel) (appendStringBody f1 s ++ String dquote rest)
    = Some (s, rest).
Proof.
  induction s as [|c s IH]; intros f1 fuel rest Ha Hf1 Hf.
  - destruct f1; reflexivity.
  - cbn [isASCII] in Ha. apply andb_prop in Ha as [Hc Ha].
    cbn [String.length] in Hf1, Hf.
    destruct f1 as [|f1]; [lia|]. destruct fuel as [|fuel]; [lia|].
    rewrite appendStringBody_cons by exact Hc.
    destruct (htmlSafe c) eqn:Hs.
    + change (String c (appendStringBody f1 s) ++ String dquote rest)%string
        with (String c (appendStringBody f1 s ++ String dquote rest)).
      rewrite scanString_plain by exact Hs.
      rewrite IH by (assumption || lia). reflexivity.
    + rewrite string_append_assoc.
      rewrite scanString_escape by assumption.
      rewrite IH by (assumption || lia). reflexivity.
Qed.

Lemma parseValue_string (s : string) (fuel : nat) (depth : Z) (rest : string) :
  isASCII s = true ->
  parseValue (S fuel) depth (json_Marshal_string s ++ rest)
  = Some (JString s, rest).
Proof.
  intros Ha. unfold json_Marshal_string.
  change (String dquote (appendStringBody (String.length s) s ++ str1 dquote)
          ++ rest)%string
    with (String dquote ((appendStringBody (String.length s) s ++ str1 dquote)
                         ++ rest)).
  rewrite string_append_assoc.
  change (str1 dquote ++ rest)%string with (String dquote rest).
  cbn [parseValue].
  change (Ascii.eqb dquote "{") with false.
  change (Ascii.eqb dquote "[") with false.
  change (Ascii.eqb dquote dquote) with true. cbv iota.
  rewrite scanString_marshal; [reflexivity | exact Ha | lia |].
  rewrite string_length_append.
  pose proof (appendStringBody_length s (String.length s) Ha ltac:(lia)).
  lia.
Qed.

(** The texts of durations: built from the empty string and the unit
    of microseconds by putting bytes that the encoder copies in
    front. *)
Section DurationText.

Variable P : string -> Prop.
Hypothesis P_nil : P EmptyString.
Hypothesis P_micro : P (microSign ++ "s").
Hypothesis P_cons : forall c s, htmlSafe c = true -> P s -> P (String c s).

Lemma durationText_fmtDigits :
  forall (fuel : nat) (v : Z) (acc : string), P acc -> P (fmtDigits fuel v acc).
Proof.
  induction fuel as [|fuel IH]; intros v acc H; [exact H|].
  rewrite fmtDigits_S. destruct (0 <? v); [|exact H].
  apply IH, P_cons; [|exact H]. apply digitChar_props, mod10_digit.
Qed.

Lemma durationText_fmtInt (buf : string) (v : Z) : P buf -> P (fmtInt buf v).
Proof.
  intros H. unfold fmtInt. destruct (v =? 0).
  - apply P_cons; [reflexivity | exact H].
  - apply durationText_fmtDigits, H.
Qed.

Lemma durationText_fmtFrac :
  forall (p : nat) (buf : string) (v : Z) (pr : bool),
    P buf -> P (fst (fmtFrac p buf v pr)).
Proof.
  induction p as [|p IH]; intros buf v pr H; cbn [fmtFrac].
  - destruct pr; cbn [fst]; [|exact H]. apply P_cons; [reflexivity | exact H].
  - apply IH. destruct (pr || negb (v mod 10 =? 0)); [|exact H].
    apply P_cons; [|exact H]. apply digitChar_props, mod10_digit.
Qed.

Lemma durationText_group (p : nat) (buf : string) (u : Z) :
  P buf -> P (let '(w, u1) := fmtFrac p buf u false in fmtInt w u1).
Proof.
  intros H. rewrite fmtFrac_pair.
  apply durationText_fmtInt, durationText_fmtFrac, H.
Qed.

Lemma durationText_body (u : Z) : P (durationBody u).
Proof.
  assert (Hs : P "s") by (apply P_cons; [reflexivity | exact P_nil]).
  unfold durationBody.
  destruct (u <? Second).
  - destruct (u =? 0).
    { apply P_cons; [reflexivity | exact Hs]. }
    destruct (u <? Microsecond); [|destruct (u <? Millisecond)];
      apply durationText_group.
    + apply P_cons; [reflexivity | exact Hs].
    + exact P_micro.
    + apply P_cons; [reflexivity | exact Hs].
  - rewrite fmtFrac_pair. cbv zeta.
    repeat match goal with
           | |- P "s" => exact Hs
           | |- P (if ?b then _ else _) => destruct b
           | |- P (fmtInt _ _) => apply durationText_fmtInt
           | |- P (String _ _) => apply P_cons; [reflexivity|]
           | |- P (fst (fmtFrac _ _ _ _)) => apply durationText_fmtFrac
           end.
Qed.

Lemma durationText_String (d : Z) : P (Duration_String d).
Proof.
  unfold Duration_String. destruct (d <? 0).
  - apply P_cons; [reflexivity | apply durationText_body].
  - apply durationText_body.
Qed.

End DurationText.

Lemma scanString_Duration_String (d : Z) :
  forall (fuel : nat) (rest : string),
    (String.length (Duration_String d) <= fuel)%nat ->
    scanString (S fuel) (Duration_String d ++ String dquote rest)
    = Some (Duration_String d, rest).
Proof.
  apply durationText_String with
    (P := fun s => forall fuel rest, (String.length s <= fuel)%nat ->
                   scanString (S fuel) (s ++ String dquote rest) = Some (s, rest)).
  - intros fuel rest _. reflexivity.
  - intros fuel rest Hf.
    change (String.length (microSign ++ "s")) with 3%nat in Hf.
    destruct fuel as [|[|[|fuel]]]; try lia. reflexivity.
  - intros c s Hc IH fuel rest Hf. cbn [String.length] in Hf.
    destruct fuel as [|fuel]; [lia|].
    change (String c s ++ String dquote rest)%string
      with (String c (s ++ String dquote rest)).
    rewrite scanString_plain by exact Hc.
    rewrite IH by lia. reflexivity.
Qed.

(** What [Duration.MarshalJSON] writes is one JSON string, whose
    content is the text of [Duration.String]: no byte of it is escaped
    (the micro sign of microseconds is written as it is), so the
    output is that text between two quotes. *)
Theorem Duration_MarshalJSON_is_json (d : Z) :
  Duration_MarshalJSON d = String dquote (Duration_String d ++ str1 dquote) /\
  parseJSON (Duration_MarshalJSON d) = Some (JString (Duration_String d)).
Proof.
  assert (E : Duration_MarshalJSON d
              = String dquote (Duration_String d ++ str1 dquote)).
  { unfold Duration_MarshalJSON, json_Marshal_string.
    destruct (copiedVerbatim_Duration_String d) as [H _].
    rewrite H by lia. reflexivity. }
  split; [exact E|]. rewrite E. unfold parseJSON.
  change (skipSpace (String dquote (Duration_String d ++ str1 dquote)))
    with (String dquote (Duration_String d ++ str1 dquote)).
  replace (2 * String.length (String dquote (Duration_String d ++ str1 dquote)) + 2)%nat
    with (S (2 * String.length (String dquote (Duration_String d ++ str1 dquote)) + 1))%nat
    by lia.
  cbn [parseValue].
  change (Ascii.eqb dquote "{") with false.
  change (Ascii.eqb dquote "[") with false.
  change (Ascii.eqb dquote dquote) with true. cbv iota.
  change (str1 dquote) with (String dquote EmptyString).
  rewrite scanString_Duration_String; [reflexivity|].
  rewrite string_length_append. lia.
Qed.

(** ** The login payload *)

Lemma marshal_head (s rest : string) :
  (json_Marshal_string s ++ rest)%string
  = String dquote (appendStringBody (String.length s) s ++ String dquote rest).
Proof.
  unfold json_Marshal_string.
  change (String dquote (appendStringBody (String.length s) s ++ str1 dquote)
          ++ rest)%string
    with (String dquote ((appendStringBody (String.length s) s ++ str1 dquote)
                         ++ rest)).
  rewrite string_append_assoc. reflexivity.
Qed.

Lemma skipSpace_marshal (s rest : string) :
  skipSpace (json_Marshal_string s ++ rest) = (json_Marshal_string s ++ rest)%string.
Proof. rewrite marshal_head. reflexivity. Qed.

Lemma scanString_key (s rest : string) :
  isASCII s = true ->
  scanString
    (S (String.length (appendStringBody (String.length s) s ++ String dquote rest)))
    (appendStringBody (String.length s) s ++ String dquote rest)
  = Some (s, rest).
Proof.
  intros Ha. apply scanString_marshal; [exact Ha | lia |].
  rewrite string_length_append.
  pose proof (appendStringBody_length s (String.length s) Ha ltac:(lia)). lia.
Qed.

(** One member of an object whose value is a string, as the encoder
    writes it. *)
Lemma parseMembers_string_member (k v : string) (fuel : nat) (depth : Z)
      (rest : string) :
  isASCII k = true -> isASCII v = true ->
  parseMembers (S (S fuel)) depth
    (json_Marshal_string k ++ ":" ++ json_Marshal_string v ++ rest)
  = match skipSpace rest with
    | String "," r2 =>
      match parseMembers (S fuel) depth (skipSpace r2) with
      | Some (ms, rest') => Some ((k, JString v) :: ms, rest')
      | None => None
      end
    | String "}" r2 => Some ([(k, JString v)], r2)
    | _ => None
    end.
Proof.
  intros Hk Hv. rewrite marshal_head.
  cbn [parseMembers]. change (Ascii.eqb dquote dquote) with true. cbv iota.
  rewrite scanString_key by exact Hk.
  change (skipSpace (":" ++ json_Marshal_string v ++ rest))
    with (String ":" (json_Marshal_string v ++ rest)).
  cbv iota. rewrite skipSpace_marshal.
  rewrite parseValue_string by exact Hv. reflexivity.
Qed.

(** One member whose value is a boolean. *)
Lemma parseMembers_bool_member (k : string) (b : bool) (fuel : nat) (depth : Z)
      (rest : string) :
  isASCII k = true ->
  parseMembers (S (S fuel)) depth
    (json_Marshal_string k ++ ":" ++ (if b then "true" else "false") ++ rest)
  = match skipSpace rest with
    | String "," r2 =>
      match parseMembers (S fuel) depth (skipSpace r2) with
      | Some (ms, rest') => Some ((k, JBool b) :: ms, rest')
      | None => None
      end
    | String "}" r2 => Some ([(k, JBool b)], r2)
    | _ => None
    end.
Proof.
  intros Hk. rewrite marshal_head.
  cbn [parseMembers]. change (Ascii.eqb dquote dquote) with true. cbv iota.
  rewrite scanString_key by exact Hk.
  destruct b.
  - change (skipSpace (":" ++ "true" ++ rest))
      with (String ":" ("true" ++ rest)).
    cbv iota.
    change (parseValue (S fuel) depth (skipSpace ("true" ++ rest)))
      with (option_map (fun r => (JBool true, r))
              (stripPrefix "true" ("true" ++ rest))).
    replace (stripPrefix "true" ("true" ++ rest)) with (Some rest); [reflexivity|].
    unfold stripPrefix.
    change (String.prefix "true" ("true" ++ rest)) with (String.prefix "" rest).
    destruct rest; reflexivity.
  - change (skipSpace (":" ++ "false" ++ rest))
      with (String ":" ("false" ++ rest)).
    cbv iota.
    change (parseValue (S fuel) depth (skipSpace ("false" ++ rest)))
      with (option_map (fun r => (JBool false, r))
              (stripPrefix "false" ("false" ++ rest))).
    replace (stripPrefix "false" ("false" ++ rest)) with (Some rest); [reflexivity|].
    unfold stripPrefix.
    change (String.prefix "false" ("false" ++ rest)) with (String.prefix "" rest).
    destruct rest; reflexivity.
Qed.

(** The payload [performLogin] posts is a JSON object that reads back
    as the four fields of [loginData], in order, with the user name,
    the e-mail address and the password unchanged, whatever ASCII bytes
    they hold: quotes, backslashes and control bytes are escaped so
    that they decode to themselves. *)
Theorem loginData_payload (ld : loginData) :
  isASCII (Username ld) = true -> isASCII (Email ld) = true ->
  isASCII (Password ld) = true ->
  parseJSON (json_Marshal_loginData ld)
  = Some (JObject [("username", JString (Username ld));
                   ("email", JString (Email ld));
                   ("password", JString (Password ld));
                   ("force_sm_off", JBool (ForceSmOff ld))]).
Proof.
  intros Hu He Hp. unfold parseJSON, json_Marshal_loginData.
  set (tail4 := ("," ++ json_Marshal_string "force_sm_off" ++ ":"
                 ++ (if ForceSmOff ld then "true" else "false") ++ "}")%string).
  set (tail3 := ("," ++ json_Marshal_string "password" ++ ":"
                 ++ json_Marshal_string (Password ld) ++ tail4)%string).
  set (tail2 := ("," ++ json_Marshal_string "email" ++ ":"
                 ++ json_Marshal_string (Email ld) ++ tail3)%string).
  set (body := (json_Marshal_string "username" ++ ":"
                ++ json_Marshal_string (Username ld) ++ tail2)%string).
  change ("{" ++ body)%string with (String "{" body).
  change (skipSpace (String "{" body)) with (String "{" body).
  assert (Hlen : exists n, (2 * String.length (String "{" body) + 2
                            = S (S (S (S (S (S n))))))%nat).
  { subst body. rewrite marshal_head. cbn [String.length].
    match goal with
    | |- context [String.length ?x] => exists (2 * String.length x)%nat
    end. lia. }
  destruct Hlen as [n ->].
  assert (Hbody : parseMembers (S (S (S (S (S n))))) (0 + 1) body
                  = Some ([("username", JString (Username ld));
                           ("email", JString (Email ld));
                           ("password", JString (Password ld));
                           ("force_sm_off", JBool (ForceSmOff ld))],
                          EmptyString)).
  { subst body. rewrite parseMembers_string_member by (reflexivity || assumption).
    subst tail2.
    change (skipSpace ("," ++ ?x)) with (String "," x). cbv iota.
    rewrite skipSpace_marshal.
    rewrite parseMembers_string_member by (reflexivity || assumption).
    subst tail3.
    change (skipSpace ("," ++ ?x)) with (String "," x). cbv iota.
    rewrite skipSpace_marshal.
    rewrite parseMembers_string_member by (reflexivity || assumption).
    subst tail4.
    change (skipSpace ("," ++ ?x)) with (String "," x). cbv iota.
    rewrite skipSpace_marshal.
    rewrite parseMembers_bool_member by reflexivity.
    reflexivity. }
  cbn [parseValue].
  change (Ascii.eqb "{" "{") with true. cbv iota.
  change (maxNestingDepth <? 0 + 1) with false. cbv iota.
  assert (Hsk : skipSpace body = body) by (subst body; apply skipSpace_marshal).
  rewrite Hsk.
  assert (Hhd : exists r, body = String dquote r)
    by (subst body; rewrite marshal_head; eexists; reflexivity).
  destruct Hhd as [r Hr]. unfold dquote in Hr. rewrite Hr at 1. cbv iota.
  rewrite <- Hr, Hbody. reflexivity.
Qed.

Lemma loginData_payload_witness :
  parseJSON (json_Marshal_loginData
               (mkLoginData "customer" "user@example.com"
                            (sq "p'ss<w>\ord") false))
  = Some (JObject [("username", JString "customer");
                   ("email", JString "user@example.com");
                   ("password", JString (sq "p'ss<w>\ord"));
                   ("force_sm_off", JBool false)]).
Proof.
  apply (loginData_payload
           (mkLoginData "customer" "user@example.com" (sq "p'ss<w>\ord") false));
    reflexivity.
Defined.

(** * A caller on a shared client: [GetSitemaster] *)









(** * [NonIsoTime]: timestamps in the layout's own shape *)

Lemma digit_facts (c : ascii) :
  isDigit c = true -> Ascii.eqb c dquote = false /\ 0 <= digitVal c <= 9.
Proof.
  destruct c as [[] [] [] [] [] [] [] []]; intros H; try discriminate H;
    (split; [reflexivity | cbv; split; discriminate]).
Qed.

Lemma getnum_two (a b : ascii) (rest : string) (fixed : bool) :
  isDigit a = true -> isDigit b = true ->
  getnum (String a (String b rest)) fixed
  = Some (digitVal a * 10 + digitVal b, rest).
Proof. intros Ha Hb. unfold getnum. rewrite Ha, Hb. reflexivity. Qed.

Lemma cutspace_digit (c : ascii) (r : string) :
  isDigit c = true -> cutspace (String c r) = String c r.
Proof.
  destruct c as [[] [] [] [] [] [] [] []]; intros H; try discriminate H;
    reflexivity.
Qed.

Lemma cutspace_space (r : string) : cutspace (String " " r) = cutspace r.
Proof. reflexivity. Qed.

Lemma cutspace_empty : cutspace EmptyString = EmptyString.
Proof. reflexivity. Qed.

Lemma removeQuotes_plain (c : ascii) (r : string) :
  Ascii.eqb c dquote = false ->
  removeQuotes (String c r) = String c (removeQuotes r).
Proof. intros H. cbn [removeQuotes]. rewrite H. reflexivity. Qed.

Lemma removeQuotes_digit (c : ascii) (r : string) :
  isDigit c = true -> removeQuotes (String c r) = String c (removeQuotes r).
Proof. intros H. apply removeQuotes_plain, (digit_facts c H). Qed.

Lemma removeQuotes_quote (r : string) :
  removeQuotes (String dquote r) = removeQuotes r.
Proof. reflexivity. Qed.

Ltac eval_eqb :=
  repeat match goal with
         | |- context [Ascii.eqb ?a ?b] =>
             first [ is_var a; fail 1 | is_var b; fail 1
                   | let v := eval vm_compute in (Ascii.eqb a b) in
                     change (Ascii.eqb a b) with v ]
         end; cbv iota beta.

Ltac layout_step :=
  rewrite parseLoop_S;
  match goal with
  | |- context [nextStdChunk ?l] =>
      let v := eval vm_compute in (nextStdChunk l) in
      change (nextStdChunk l) with v
  end; cbv iota beta; cbn [skip String.length]; eval_eqb;
  repeat (rewrite cutspace_space || rewrite cutspace_empty ||
          rewrite cutspace_digit by assumption);
  cbn [skip String.length]; eval_eqb.

Ltac proj_fields :=
  unfold fields0;
  cbn [f_year f_month f_day f_hour f_min f_sec f_nsec f_zoneOffset].

Ltac cond_false :=
  match goal with
  | |- context [if ?b then _ else _] =>
      replace b with false
        by (symmetry; rewrite ?orb_false_iff, ?Z.ltb_ge, ?Z.leb_gt; lia)
  end; cbv iota.

Lemma time_Parse_strict (y1 y2 y3 y4 mo1 mo2 d1 d2 h1 h2 mi1 mi2 s1 s2 z1 z2 z3 z4 : ascii)
      (neg : bool) :
  Forall (fun c => isDigit c = true)
         [y1; y2; y3; y4; mo1; mo2; d1; d2; h1; h2; mi1; mi2; s1; s2; z1; z2; z3; z4] ->
  let year := ((digitVal y1 * 10 + digitVal y2) * 10 + digitVal y3) * 10 + digitVal y4 in
  let month := digitVal mo1 * 10 + digitVal mo2 in
  let day := digitVal d1 * 10 + digitVal d2 in
  let hour := digitVal h1 * 10 + digitVal h2 in
  let minute := digitVal mi1 * 10 + digitVal mi2 in
  let sec := digitVal s1 * 10 + digitVal s2 in
  let zh := digitVal z1 * 10 + digitVal z2 in
  let zm := digitVal z3 * 10 + digitVal z4 in
  let off := if neg then - ((zh * 60 + zm) * 60) else (zh * 60 + zm) * 60 in
  1 <= month <= 12 -> 1 <= day <= daysIn month year ->
  hour <= 23 -> minute <= 59 -> sec <= 59 -> zh <= 24 -> zm <= 60 ->
  time_Parse nonIsoTimeFormat
    (string_of_list_ascii
       [y1; y2; y3; y4; "-"; mo1; mo2; "-"; d1; d2; " "; h1; h2; ":"; mi1; mi2;
        ":"; s1; s2; " "; if neg then "-" else "+"; z1; z2; z3; z4]%char)
  = Ok (mkTime (daysSinceEpoch year month day * 86400 + hour * 3600
                + minute * 60 + sec - off) 0 off).
Proof.
  intros HD. 
  repeat match goal with
         | H : Forall _ (_ :: _) |- _ => apply Forall_cons in H as [? H]
         end.
  clear HD.
  repeat match goal with
         | H : isDigit ?c = true |- _ =>
             lazymatch goal with
             | _ : 0 <= digitVal c <= 9 |- _ => fail
             | _ => pose proof (proj2 (digit_facts c H))
             end
         end.
  intros year month day hour minute sec zh zm off Hm Hd Hh Hmi Hs Hzh Hzm.
  unfold time_Parse, nonIsoTimeFormat.
  cbn [string_of_list_ascii String.length].
  (* year *)
  layout_step. unfold parseStd at 1. cbn [String.length].
  change (4 <=? Z.of_nat 25) with true. cbn [andb].
  match goal with H : isDigit y1 = true |- _ => rewrite H end.
  cbn [String.substring]. unfold allDigits. cbn [spanDigits].
  repeat match goal with H : isDigit ?c = true |- context [isDigit ?c] => rewrite H end.
  cbv iota beta. cbn [parseDigits dropn]. proj_fields.
  change (0 * 10 + digitVal y1) with (digitVal y1). fold year.
  (* month *)
  layout_step. unfold parseStd at 1. rewrite getnum_two by assumption.
  fold month. cond_false. proj_fields.
  (* day *)
  layout_step. unfold parseStd at 1. rewrite getnum_two by assumption.
  fold day. proj_fields.
  (* hour *)
  layout_step. unfold parseStd at 1. rewrite getnum_two by assumption.
  fold hour. cond_false. proj_fields.
  layout_step. unfold parseStd at 1. rewrite getnum_two by assumption.
  fold minute. cond_false. proj_fields.
  layout_step. unfold parseStd at 1. rewrite getnum_two by assumption.
  fold sec. cond_false. change (commaOrPeriod " ") with false. cbn [andb].
  cbv iota. proj_fields.
  (* zone *)
  layout_step.
  assert (Hoff : off <> -1) by (subst off; destruct neg; lia).
  destruct neg; cbn [cutspace]; unfold parseStd at 1; unfold str1;
    rewrite !getnum_two by assumption; fold zh; fold zm;
    do 2 cond_false; eval_eqb; proj_fields;
    layout_step;
    proj_fields;
    (replace (month <? 0) with false by (symmetry; apply Z.ltb_ge; lia));
    (replace (day <? 0) with false by (symmetry; apply Z.ltb_ge; lia));
    cbv iota;
    (replace ((day <? 1) || (daysIn month year <? day)) with false
      by (symmetry; rewrite orb_false_iff, !Z.ltb_ge; lia));
    cbv iota;
    match goal with
    | |- context [?x =? -1] =>
        replace (x =? -1) with false by (symmetry; apply Z.eqb_neq; exact Hoff)
    end; reflexivity.
Qed.

(** [NonIsoTime.UnmarshalJSON] on a timestamp in the shape of the
    layout, between quotes: four digits of year, two each of month,
    day, hour, minute and second, a sign and four digits of zone.  When
    the month is 1 to 12, the day exists in that month of that year,
    the hour is at most 23, minute and second at most 59, and the zone
    has at most 24 hours and 60 minutes, it is accepted, and the result
    is the instant with those civil fields at that offset from UTC,
    with no fraction of a second. *)
Theorem NonIsoTime_well_formed
        (y1 y2 y3 y4 mo1 mo2 d1 d2 h1 h2 mi1 mi2 s1 s2 z1 z2 z3 z4 : ascii)
        (neg : bool) :
  Forall (fun c => isDigit c = true)
         [y1; y2; y3; y4; mo1; mo2; d1; d2; h1; h2; mi1; mi2; s1; s2;
          z1; z2; z3; z4] ->
  let year := ((digitVal y1 * 10 + digitVal y2) * 10 + digitVal y3) * 10
              + digitVal y4 in
  let month := digitVal mo1 * 10 + digitVal mo2 in
  let day := digitVal d1 * 10 + digitVal d2 in
  let hour := digitVal h1 * 10 + digitVal h2 in
  let minute := digitVal mi1 * 10 + digitVal mi2 in
  let sec := digitVal s1 * 10 + digitVal s2 in
  let zh := digitVal z1 * 10 + digitVal z2 in
  let zm := digitVal z3 * 10 + digitVal z4 in
  let off := if neg then - ((zh * 60 + zm) * 60) else (zh * 60 + zm) * 60 in
  1 <= month <= 12 -> 1 <= day <= daysIn month year ->
  hour <= 23 -> minute <= 59 -> sec <= 59 -> zh <= 24 -> zm <= 60 ->
  NonIsoTime_UnmarshalJSON
    (string_of_list_ascii
       ([dquote; y1; y2; y3; y4; "-"; mo1; mo2; "-"; d1; d2; " "; h1; h2; ":";
         mi1; mi2; ":"; s1; s2; " "; if neg then "-" else "+"; z1; z2; z3; z4;
         dquote]%char))
  = Ok (mkTime (daysSinceEpoch year month day * 86400 + hour * 3600
                + minute * 60 + sec - off) 0 off).
Proof.
  intros HD year month day hour minute sec zh zm off Hm Hd Hh Hmi Hs Hzh Hzm.
  pose proof (time_Parse_strict y1 y2 y3 y4 mo1 mo2 d1 d2 h1 h2 mi1 mi2 s1 s2
                z1 z2 z3 z4 neg HD Hm Hd Hh Hmi Hs Hzh Hzm) as H.
  cbv zeta in H. fold year month day hour minute sec zh zm in H. fold off in H.
  rewrite <- H. unfold NonIsoTime_UnmarshalJSON. f_equal.
  repeat match goal with
         | H : Forall _ (_ :: _) |- _ => apply Forall_cons in H as [? H]
         end.
  cbn [string_of_list_ascii].
  rewrite removeQuotes_quote.
  repeat first [ rewrite removeQuotes_digit by assumption
               | rewrite removeQuotes_quote
               | rewrite removeQuotes_plain by (destruct neg; reflexivity) ].
  reflexivity.
Qed.

Lemma NonIsoTime_well_formed_witness :
  NonIsoTime_UnmarshalJSON (sq "'2024-02-29 23:59:59 +0530'")
  = Ok (mkTime (daysSinceEpoch 2024 2 29 * 86400 + 23 * 3600 + 59 * 60 + 59
                - (5 * 60 + 30) * 60) 0 ((5 * 60 + 30) * 60)).
Proof.
  apply (NonIsoTime_well_formed "2" "0" "2" "4" "0" "2" "2" "9" "2" "3"
           "5" "9" "5" "9" "0" "5" "3" "0" false).
  - repeat constructor.
  - vm_compute; split; discriminate.
  - vm_compute; split; discriminate.
  - vm_compute; discriminate.
  - vm_compute; discriminate.
  - vm_compute; discriminate.
  - vm_compute; discriminate.
  - vm_compute; discriminate.
Defined.

(** * Integers in [DecodedAlert] values *)

Lemma shortestLoop_eq (fuel : nat) (V LO HI s : Z) (inclusive : bool) (k : Z) :
  shortestLoop fuel V LO HI s inclusive k =
  let p2 := 2 ^ Z.max s 0 in
  let p10 := 10 ^ Z.max (- k) 0 in
  let U := 2 ^ Z.max (- s) 0 * 10 ^ Z.max k 0 in
  let Vn := V * p2 * p10 in
  let LOn := LO * p2 * p10 in
  let HIn := HI * p2 * p10 in
  let t := Vn / U in
  let okdown := (LOn <? t * U) || (inclusive && (LOn =? t * U)) in
  let okup := ((t + 1) * U <? HIn) || (inclusive && ((t + 1) * U =? HIn)) in
  let rem := Vn - t * U in
  let up := (U <? 2 * rem) || ((2 * rem =? U) && Z.odd t) in
  if okdown && okup then (if up then t + 1 else t, k)
  else if okdown then (t, k)
  else if okup then (t + 1, k)
  else match fuel with
       | O => (V * p2 * p10, k)
       | S fuel => shortestLoop fuel V LO HI s inclusive (k - 1)
       end.
Proof. destruct fuel; reflexivity. Qed.

(** The search for the shortest digits, on an integer [n] held
    exactly: [T] is the number of units in one. *)
Lemma shortestLoop_integer (n T LO s : Z) (inclusive : bool) :
  0 < n -> 4 <= T -> 2 ^ (- s) = T -> s < 0 ->
  n * T - 2 <= LO < n * T ->
  forall (fuel : nat) (k : Z),
    0 <= k <= Z.of_nat fuel ->
    exists c k',
      shortestLoop fuel (n * T) LO (n * T + 2) s inclusive k = (c, k') /\
      0 <= k' /\ c * 10 ^ k' = n.
Proof.
  intros Hn HT Hs Hs0 HLO.
  induction fuel as [|fuel IH]; intros k Hk.
  - assert (k = 0) as -> by lia.
    rewrite shortestLoop_eq. cbv zeta.
    rewrite (Z.max_r s 0), (Z.max_r (- 0) 0), (Z.max_l (- s) 0), (Z.max_l 0 0)
      by lia.
    rewrite Hs. change (2 ^ 0) with 1. change (10 ^ 0) with 1.
    rewrite !Z.mul_1_r. rewrite Z.div_mul by lia.
    replace (LO <? n * T) with true by (symmetry; apply Z.ltb_lt; lia).
    replace ((n + 1) * T <? n * T + 2) with false
      by (symmetry; apply Z.ltb_ge; nia).
    replace ((n + 1) * T =? n * T + 2) with false
      by (symmetry; apply Z.eqb_neq; nia).
    exists n, 0. split; [|split; lia].
    rewrite ?andb_false_r; cbn [orb andb]; rewrite ?andb_false_r, ?orb_false_r; cbv iota. reflexivity.
  - rewrite shortestLoop_eq. cbv zeta.
    rewrite (Z.max_r s 0), (Z.max_r (- k) 0), (Z.max_l (- s) 0), (Z.max_l k 0)
      by lia.
    rewrite Hs. change (2 ^ 0) with 1. change (10 ^ 0) with 1.
    rewrite !Z.mul_1_r.
    assert (Hp : 0 < 10 ^ k) by (apply Z.pow_pos_nonneg; lia).
    assert (Ht : n * T / (T * 10 ^ k) = n / 10 ^ k).
    { rewrite (Z.mul_comm n T). rewrite Z.div_mul_cancel_l by lia. reflexivity. }
    rewrite Ht.
    pose proof (Z.div_mod n (10 ^ k) ltac:(lia)) as Hdm.
    pose proof (Z.mod_pos_bound n (10 ^ k) Hp) as Hmb.
    set (t := n / 10 ^ k) in *. set (r := n mod 10 ^ k) in *.
    clearbody t r.
    assert (HtU : t * (T * 10 ^ k) = n * T - r * T) by (rewrite Hdm; ring).
    assert (HtU1 : (t + 1) * (T * 10 ^ k) = n * T + (10 ^ k - r) * T)
      by (rewrite Hdm; ring).
    rewrite HtU1, HtU.
    assert (Hup : 4 <= (10 ^ k - r) * T) by nia.
    assert (Hdn : r = 0 \/ 4 <= r * T) by nia.
    replace (n * T + (10 ^ k - r) * T <? n * T + 2) with false
      by (symmetry; apply Z.ltb_ge; lia).
    replace (n * T + (10 ^ k - r) * T =? n * T + 2) with false
      by (symmetry; apply Z.eqb_neq; lia).
    replace (LO =? n * T - r * T) with false
      by (symmetry; apply Z.eqb_neq; lia).
    destruct (Z.ltb_spec LO (n * T - r * T)) as [Hlt | Hge].
    + exists t, k. split; [|split; [lia|]].
      * rewrite ?andb_false_r; cbn [orb andb]; rewrite ?andb_false_r, ?orb_false_r; cbv iota. reflexivity.
      * assert (r = 0) by lia. lia.
    + assert (Hr : 0 < r) by lia.
      assert (k <> 0).
      { intros ->. change (10 ^ 0) with 1 in Hmb. lia. }
      destruct (IH (k - 1) ltac:(lia)) as (c & k' & E & H1 & H2).
      exists c, k'. split; [|auto].
      rewrite ?andb_false_r; cbn [orb andb]; rewrite ?andb_false_r, ?orb_false_r; cbv iota. cbv iota.
      exact E.
Qed.

Lemma trimZeros_value :
  forall (fuel : nat) (c k : Z),
    0 <= k -> exists c' k',
      trimZeros fuel c k = (c', k') /\ 0 <= k' /\ c' * 10 ^ k' = c * 10 ^ k.
Proof.
  induction fuel as [|fuel IH]; intros c k Hk.
  - exists c, k. auto.
  - cbn [trimZeros].
    destruct ((c =? 0) || negb (c mod 10 =? 0)) eqn:E.
    + exists c, k. auto.
    + apply orb_false_iff in E as [_ E]. apply negb_false_iff, Z.eqb_eq in E.
      destruct (IH (c / 10) (k + 1) ltac:(lia)) as (c' & k' & Ht & Hk' & Hv).
      exists c', k'. split; [exact Ht|]. split; [exact Hk'|].
      rewrite Hv, Z.pow_add_r by lia. change (10 ^ 1) with 10.
      pose proof (Z.div_mod c 10 ltac:(lia)). nia.
Qed.

(** The decimal digits of a number do not depend on the fuel, once
    there is enough of it. *)
Lemma fmtDigits_fuel :
  forall (f1 f2 : nat) (v : Z) (acc : string),
    0 <= v -> v < 2 ^ Z.of_nat f1 -> v < 2 ^ Z.of_nat f2 ->
    fmtDigits f1 v acc = fmtDigits f2 v acc.
Proof.
  induction f1 as [|f1 IH]; intros f2 v acc Hv H1 H2.
  - change (2 ^ Z.of_nat 0) with 1 in H1. assert (v = 0) as -> by lia.
    rewrite !fmtDigits_zero. reflexivity.
  - destruct f2 as [|f2].
    + change (2 ^ Z.of_nat 0) with 1 in H2. assert (v = 0) as -> by lia.
      rewrite !fmtDigits_zero. reflexivity.
    + rewrite !fmtDigits_S. destruct (0 <? v); [|reflexivity].
      rewrite Nat2Z.inj_succ, Z.pow_succ_r in H1, H2 by lia.
      apply IH.
      * apply Z.div_pos; lia.
      * apply Z.div_lt_upper_bound; lia.
      * apply Z.div_lt_upper_bound; lia.
Qed.

Lemma fmtDigits_acc :
  forall (fuel : nat) (v : Z) (acc : string),
    fmtDigits fuel v acc = (fmtDigits fuel v EmptyString ++ acc)%string.
Proof.
  induction fuel as [|fuel IH]; intros v acc; [reflexivity|].
  rewrite !fmtDigits_S. destruct (0 <? v); [|reflexivity].
  rewrite IH, (IH _ (String _ EmptyString)).
  rewrite string_append_assoc. reflexivity.
Qed.

Lemma log2_fuel (v : Z) : 0 < v -> v < 2 ^ Z.of_nat (S (Z.to_nat (Z.log2 v))).
Proof.
  intros Hv. pose proof (Z.log2_spec v Hv) as [_ H].
  pose proof (Z.log2_nonneg v).
  rewrite Nat2Z.inj_succ, Z2Nat.id by lia. exact H.
Qed.

Lemma decimal_pos (v : Z) (fuel : nat) :
  0 < v -> v < 2 ^ Z.of_nat fuel ->
  decimal v = fmtDigits fuel v EmptyString.
Proof.
  intros Hv Hf. unfold decimal.
  destruct (Z.leb_spec v 0); [lia|].
  apply fmtDigits_fuel; [lia | apply log2_fuel; lia | exact Hf].
Qed.

Lemma decimal_mul10 (v : Z) :
  0 < v -> decimal (v * 10) = (decimal v ++ "0")%string.
Proof.
  intros Hv.
  pose proof (log2_fuel v Hv) as Hf.
  set (f := S (Z.to_nat (Z.log2 v))) in *.
  assert (Hf' : v * 10 < 2 ^ Z.of_nat (S (S (S (S f))))).
  { rewrite !Nat2Z.inj_succ, !Z.pow_succ_r by lia. lia. }
  rewrite (decimal_pos (v * 10) _ ltac:(lia) Hf').
  rewrite fmtDigits_S.
  replace (0 <? v * 10) with true by (symmetry; apply Z.ltb_lt; lia).
  rewrite Z.div_mul, Z.mod_mul by lia.
  rewrite fmtDigits_acc.
  rewrite <- (decimal_pos v (S (S (S f))) Hv).
  - reflexivity.
  - rewrite !Nat2Z.inj_succ, !Z.pow_succ_r by lia.
    assert (0 < 2 ^ Z.of_nat f) by (apply Z.pow_pos_nonneg; lia). lia.
Qed.

Lemma decimal_pow10 (c : Z) (k : nat) :
  0 < c ->
  decimal (c * 10 ^ Z.of_nat k) = (decimal c ++ repeatChar "0" k)%string.
Proof.
  intros Hc. revert c Hc. induction k as [|k IH]; intros c Hc.
  - change (10 ^ Z.of_nat 0) with 1. rewrite Z.mul_1_r.
    symmetry. apply append_empty_r.
  - rewrite Nat2Z.inj_succ, Z.pow_succ_r by lia.
    replace (c * (10 * 10 ^ Z.of_nat k)) with (c * 10 * 10 ^ Z.of_nat k) by ring.
    rewrite IH by lia. rewrite decimal_mul10 by exact Hc.
    rewrite string_append_assoc. reflexivity.
Qed.

(** [FormatFloat] of an integer held exactly. *)
Lemma FormatFloat_f_exact (n : Z) (neg : bool) :
  0 < n < 2 ^ 53 ->
  strconv_FormatFloat_f
    (FFinite neg (n * 2 ^ (52 - Z.log2 n)) (Z.log2 n - 52))
  = signed neg (decimal n).
Proof.
  intros Hn. destruct (exact_mantissa n Hn) as [Hm Hl].
  unfold strconv_FormatFloat_f, shortest.
  set (m := n * 2 ^ (52 - Z.log2 n)) in *.
  set (e := Z.log2 n - 52) in *.
  cbv zeta.
  assert (HT : 4 * m = n * 2 ^ (54 - Z.log2 n)).
  { subst m. replace (54 - Z.log2 n) with (2 + (52 - Z.log2 n)) by lia.
    rewrite Z.pow_add_r by lia. change (2 ^ 2) with 4. ring. }
  assert (HT4 : 4 <= 2 ^ (54 - Z.log2 n)).
  { change 4 with (2 ^ 2). apply Z.pow_le_mono_r; lia. }
  set (T := 2 ^ (54 - Z.log2 n)) in *.
  set (LO := if (m =? 2 ^ 52) && (-1074 <? e) then 4 * m - 1 else 4 * m - 2).
  assert (HLO : n * T - 2 <= LO < n * T)
    by (subst LO; destruct ((m =? 2 ^ 52) && (-1074 <? e)); lia).
  assert (Hlog : Z.log2 (4 * m + 2) = 54).
  { apply Z.log2_unique; [lia|]. change (2 ^ 54) with (4 * 2 ^ 52).
    change (2 ^ Z.succ 54) with (4 * 2 ^ 53). lia. }
  rewrite Hlog.
  set (kstart := Z.max 0 (54 + 1 + (e - 2))).
  set (fuel := Z.to_nat (kstart - Z.min (e - 2) 0 + 1)).
  rewrite HT.
  destruct (shortestLoop_integer n T LO (e - 2) (Z.even m)
              ltac:(lia) HT4 ltac:(subst T e; f_equal; lia) ltac:(subst e; lia)
              HLO fuel kstart ltac:(subst fuel kstart e; lia))
    as (c & k & E & Hk & Hv).
  rewrite E.
  assert (Hc : 0 < c).
  { assert (0 < 10 ^ k) by (apply Z.pow_pos_nonneg; lia). nia. }
  destruct (trimZeros_value (Z.to_nat (Z.log2 c) + 1) c k Hk)
    as (c' & k' & Et & Hk' & Hv').
  rewrite Et. f_equal.
  assert (Hc' : 0 < c').
  { assert (0 < 10 ^ k') by (apply Z.pow_pos_nonneg; lia).
    assert (0 < 10 ^ k) by (apply Z.pow_pos_nonneg; lia). nia. }
  unfold fmtF. cbv zeta.
  replace (c' =? 0) with false by (symmetry; apply Z.eqb_neq; lia).
  replace (0 <=? k') with true by (symmetry; apply Z.leb_le; lia).
  rewrite <- decimal_pow10 by exact Hc'.
  rewrite Z2Nat.id by lia. f_equal. lia.
Qed.

Lemma roundFloat_neg (n d : Z) (m e : Z) :
  roundFloat false n d = FFinite false m e ->
  roundFloat true n d = FFinite true m e.
Proof.
  unfold roundFloat. destruct (n <=? 0); [discriminate|].
  destruct (scale2 n d _) as [n' d']. cbv zeta.
  destruct (if _ =? 2 ^ 53 then _ else _) as [m' e'].
  destruct (m' =? 0); [discriminate|]. destruct (971 <? e'); [discriminate|].
  intros [= <- <-]. reflexivity.
Qed.

Lemma spanDigits_cons (c : ascii) (r : string) :
  isDigit c = true -> spanDigits r = (r, EmptyString) ->
  spanDigits (String c r) = (String c r, EmptyString).
Proof. intros Hc Hr. cbn [spanDigits]. rewrite Hc, Hr. reflexivity. Qed.

Lemma spanDigits_fmtDigits :
  forall (fuel : nat) (v : Z) (acc : string),
    spanDigits acc = (acc, EmptyString) ->
    spanDigits (fmtDigits fuel v acc) = (fmtDigits fuel v acc, EmptyString).
Proof.
  induction fuel as [|fuel IH]; intros v acc H; [exact H|].
  rewrite fmtDigits_S. destruct (0 <? v); [|exact H].
  apply IH, spanDigits_cons; [|exact H]. apply digitChar_props, mod10_digit.
Qed.

Lemma parseDigits_fmtDigits :
  forall (fuel : nat) (v : Z) (acc : string),
    0 <= v -> v < 2 ^ Z.of_nat fuel ->
    parseDigits (fmtDigits fuel v acc) 0 = parseDigits acc v.
Proof.
  induction fuel as [|fuel IH]; intros v acc Hv Hf.
  - change (2 ^ Z.of_nat 0) with 1 in Hf. assert (v = 0) as -> by lia.
    reflexivity.
  - rewrite fmtDigits_S. destruct (Z.ltb_spec 0 v) as [Hp|Hz].
    + rewrite Nat2Z.inj_succ, Z.pow_succ_r in Hf by lia.
      rewrite IH; [| apply Z.div_pos; lia | apply Z.div_lt_upper_bound; lia].
      cbn [parseDigits].
      destruct (digitChar_props (v mod 10) (mod10_digit v)) as (_ & -> & _).
      f_equal. pose proof (Z.div_mod v 10 ltac:(lia)). lia.
    + assert (v = 0) as -> by lia. reflexivity.
Qed.

(** The decimal text of a positive number: digits only, the first of
    them not a minus sign, and they read back as the number. *)
Lemma decimal_text (v : Z) :
  0 < v ->
  spanDigits (decimal v) = (decimal v, EmptyString) /\
  parseDigits (decimal v) 0 = v /\
  exists c r, decimal v = String c r /\ isDigit c = true.
Proof.
  intros Hv. pose proof (log2_fuel v Hv) as Hf.
  unfold decimal. destruct (Z.leb_spec v 0); [lia|].
  split; [apply spanDigits_fmtDigits; reflexivity|].
  split; [rewrite parseDigits_fmtDigits by (lia || exact Hf); reflexivity|].
  rewrite fmtDigits_S.
  replace (0 <? v) with true by (symmetry; apply Z.ltb_lt; lia).
  apply fmtDigits_head. apply digitChar_props, mod10_digit.
Qed.

Lemma splitNumber_digits (c : ascii) (r : string) :
  isDigit c = true ->
  spanDigits (String c r) = (String c r, EmptyString) ->
  splitNumber (String c r) = (false, parseDigits (String c r) 0, 0).
Proof.
  intros Hc Hs. unfold splitNumber.
  destruct c as [[] [] [] [] [] [] [] []]; try discriminate Hc;
    cbv iota beta; rewrite Hs; cbv iota beta;
    rewrite append_empty_r; reflexivity.
Qed.

Lemma strconv_ParseFloat_decimal (v : Z) :
  0 < v < 2 ^ 53 ->
  strconv_ParseFloat (decimal v) = Some (exactFloat v) /\
  strconv_ParseFloat (String "-" (decimal v))
  = Some (FFinite true (v * 2 ^ (52 - Z.log2 v)) (Z.log2 v - 52)).
Proof.
  intros Hv.
  destruct (decimal_text v ltac:(lia)) as (Hs & Hp & c & r & E & Hc).
  pose proof (roundFloat_exact v 1 Hv ltac:(lia)) as Hr.
  assert (Hsplit : splitNumber (decimal v) = (false, v, 0)).
  { rewrite E in *. rewrite splitNumber_digits by assumption.
    rewrite Hp. reflexivity. }
  assert (Hsplit' : splitNumber (String "-" (decimal v)) = (true, v, 0)).
  { unfold splitNumber. cbv iota beta. rewrite Hs. cbv iota beta.
    rewrite append_empty_r, Hp. reflexivity. }
  unfold strconv_ParseFloat. rewrite Hsplit, Hsplit'.
  change (0 <=? 0) with true. cbv iota. change (10 ^ 0) with 1.
  rewrite Hr. split; [reflexivity|].
  rewrite (roundFloat_neg _ _ _ _ Hr). reflexivity.
Qed.

Lemma strconv_Itoa_not_empty (n : Z) : strconv_Itoa n <> EmptyString.
Proof.
  unfold strconv_Itoa. destruct (n <? 0); [discriminate|].
  destruct (Z.ltb_spec 0 n) as [Hp|Hz].
  - destruct (decimal_text n Hp) as (_ & _ & c & r & -> & _). discriminate.
  - unfold decimal. replace (n <=? 0) with true by (symmetry; apply Z.leb_le; lia).
    discriminate.
Qed.

(** The text of an integer value: the literal as it was written. *)
Lemma integer_value_text (fmt_q : string -> string) (n : Z) (cur : GoVal)
      (name : string) (units : GoVal) :
  - 2 ^ 53 < n < 2 ^ 53 ->
  snd (storeInterface (JNumber (strconv_Itoa n)) cur) = None /\
  valueText fmt_q
    (mkEntry name (fst (storeInterface (JNumber (strconv_Itoa n)) cur)) units)
  = strconv_Itoa n.
Proof.
  intros Hn. unfold storeInterface, strconv_Itoa.
  destruct (Z.ltb_spec n 0) as [Hneg | Hpos].
  - destruct (strconv_ParseFloat_decimal (- n) ltac:(lia)) as [_ ->].
    split; [reflexivity|]. unfold valueText. cbn [Value fst].
    apply (FormatFloat_f_exact (- n) true). lia.
  - destruct (Z.eq_dec n 0) as [-> | Hnz]; [split; reflexivity|].
    destruct (strconv_ParseFloat_decimal n ltac:(lia)) as [-> _].
    split; [reflexivity|]. unfold valueText. cbn [Value fst].
    apply (FormatFloat_f_exact n false). lia.
Qed.

(** An entry with a name, an integer value of magnitude below [2^53]
    and units: the map holds, at the name, the integer as it was
    written, a space and the units. *)
Theorem DecodedAlert_integer_entry (fmt_q : string -> string) (n : Z)
        (name u : string) (m : gmap string string) :
  - 2 ^ 53 < n < 2 ^ 53 -> u <> EmptyString ->
  let j := JObject [("name", JString name);
                    ("value", JNumber (strconv_Itoa n));
                    ("units", JString u)] in
  snd (storeEntry j) = None /\
  alertEntry fmt_q m (fst (storeEntry j)) !! name
  = Some (strconv_Itoa n ++ " " ++ u)%string.
Proof.
  intros Hn Hu j. subst j. unfold storeEntry.
  cbn [entryMembers]. unfold entryMember.
  change (keyIs "name" "name") with true.
  change (keyIs "name" "value") with false.
  change (keyIs "value" "value") with true.
  change (keyIs "name" "units") with false.
  change (keyIs "value" "units") with false.
  change (keyIs "units" "units") with true.
  cbv iota. cbn [storeString Name Value Units entry0].
  pose proof (integer_value_text fmt_q n VNil name (VString u) Hn) as [He Hv].
  revert He Hv.
  destruct (storeInterface (JNumber (strconv_Itoa n)) VNil) as [v e].
  cbn [snd fst]. intros -> Hv.
  change (storeInterface (JString u) VNil) with (VString u, @None error).
  cbv iota beta. cbn [firstErr snd fst Name Value Units].
  split; [reflexivity|].
  pose proof (alertEntry_with_units fmt_q m (mkEntry name v (VString u)) u
                eq_refl Hu) as H.
  rewrite Hv in H. cbn [Name] in H. apply H, strconv_Itoa_not_empty.
Qed.

Lemma DecodedAlert_integer_entry_witness :
  alertEntry (fun b => b) ∅
    (fst (storeEntry (JObject [("name", JString "PINV_a021_ov_amplitude1");
                               ("value", JNumber (strconv_Itoa 184));
                               ("units", JString "Vrms")])))
    !! "PINV_a021_ov_amplitude1"
  = Some (strconv_Itoa 184 ++ " " ++ "Vrms")%string.
Proof.
  refine (proj2 (DecodedAlert_integer_entry (fun b => b) 184
                   "PINV_a021_ov_amplitude1" "Vrms" ∅ _ _)).
  - split; [reflexivity | reflexivity].
  - discriminate.
Defined.
